(** * ARM / AArch64 processor detection and dispatch (processor_arm.cpp)

    A shallow embedding of the target resolver, the clone-flag computation,
    the backend string emitter, the host discovery helpers and the exported
    query functions of [src/processor_arm.cpp], followed by the properties
    the specification states about them.

    Conventions.  A [uint32_t] is a [Z]; the operations that can leave the
    range write their wrap-around out.  A [FeatureList<3>] is a record of
    three words.  The AArch64 build ([_CPU_AARCH64_] defined, [_CPU_ARM_]
    not) is the one embedded, with the host discovery of Darwin and that of
    Linux; of the other build, the dependency closures, the architecture
    helpers and the FPCR stubs are.
    What the file includes from headers that are not part of the sources
    (the feature table, the flag constants, the backend version) and what
    it learns from the machine it runs on is a parameter, gathered in the
    classes [Feature.Header], [Processor] and [Host]. *)

From stdpp Require Import base list strings.
From Stdlib Require Import ZArith Lia Bool Ascii.
Local Open Scope Z_scope.

(** ** 32-bit words *)

Definition UINT32_MAX : Z := 4294967295.

(** [~x] on a [uint32_t]. *)
Definition not32 (x : Z) : Z := Z.land (Z.lnot x) UINT32_MAX.

(** [(int)i] for a [uint32_t] [i]. *)
Definition to_int (i : Z) : Z := if i <? 2147483648 then i else i - 4294967296.

(** ** The CPU enumeration ([enum class CPU : uint32_t]) *)

Module CPU.

Inductive t : Set :=
  | generic | armv7_a | armv7_m | armv7e_m | armv7_r | armv8_a | armv8_m_base
  | armv8_m_main | armv8_r | armv8_1_a | armv8_2_a | armv8_3_a | armv8_4_a
  | armv8_5_a | armv8_6_a | arm_mpcore | arm_1136jf_s | arm_1156t2f_s
  | arm_1176jzf_s | arm_cortex_m0 | arm_cortex_m1 | arm_cortex_m3
  | arm_cortex_m4 | arm_cortex_m7 | arm_cortex_a5 | arm_cortex_a7
  | arm_cortex_a8 | arm_cortex_a9 | arm_cortex_a12 | arm_cortex_a15
  | arm_cortex_a17 | arm_cortex_r4 | arm_cortex_r5 | arm_cortex_r7
  | arm_cortex_r8 | arm_cortex_m23 | arm_cortex_m33 | arm_cortex_a32
  | arm_cortex_r52 | arm_cortex_a34 | arm_cortex_a35 | arm_cortex_a53
  | arm_cortex_a55 | arm_cortex_a57 | arm_cortex_a65 | arm_cortex_a65ae
  | arm_cortex_a72 | arm_cortex_a73 | arm_cortex_a75 | arm_cortex_a76
  | arm_cortex_a76ae | arm_cortex_a77 | arm_cortex_a78 | arm_cortex_x1
  | arm_neoverse_e1 | arm_neoverse_n1 | arm_neoverse_v1 | arm_neoverse_n2
  | cavium_thunderx | cavium_thunderx88 | cavium_thunderx88p1
  | cavium_thunderx81 | cavium_thunderx83 | cavium_thunderx2t99
  | cavium_thunderx2t99p1 | cavium_octeontx2 | cavium_octeontx2t98
  | cavium_octeontx2t96 | cavium_octeontx2f95 | cavium_octeontx2f95n
  | cavium_octeontx2f95mm | fujitsu_a64fx | hisilicon_tsv110 | hxt_phecda
  | nvidia_denver1 | nvidia_denver2 | nvidia_carmel | apm_xgene1 | apm_xgene2
  | apm_xgene3 | qualcomm_scorpion | qualcomm_krait | qualcomm_kyro
  | qualcomm_falkor | qualcomm_saphira | samsung_exynos_m1
  | samsung_exynos_m2 | samsung_exynos_m3 | samsung_exynos_m4
  | samsung_exynos_m5 | apple_swift | apple_a7 | apple_a8 | apple_a9
  | apple_a10 | apple_a11 | apple_a12 | apple_a13 | apple_a14 | apple_a15
  | apple_a16 | apple_a17 | apple_m1 | apple_m2 | apple_m3 | apple_m4
  | apple_s4 | apple_s5 | marvell_pj4 | marvell_thunderx3t110 | intel_3735d.

Definition id (c : t) : Z :=
  match c with
  | generic => 0 | armv7_a => 1 | armv7_m => 2 | armv7e_m => 3 | armv7_r => 4
  | armv8_a => 5 | armv8_m_base => 6 | armv8_m_main => 7 | armv8_r => 8
  | armv8_1_a => 9 | armv8_2_a => 10 | armv8_3_a => 11 | armv8_4_a => 12
  | armv8_5_a => 13 | armv8_6_a => 14 | arm_mpcore => 15 | arm_1136jf_s => 16
  | arm_1156t2f_s => 17 | arm_1176jzf_s => 18 | arm_cortex_m0 => 19
  | arm_cortex_m1 => 20 | arm_cortex_m3 => 21 | arm_cortex_m4 => 22
  | arm_cortex_m7 => 23 | arm_cortex_a5 => 24 | arm_cortex_a7 => 25
  | arm_cortex_a8 => 26 | arm_cortex_a9 => 27 | arm_cortex_a12 => 28
  | arm_cortex_a15 => 29 | arm_cortex_a17 => 30 | arm_cortex_r4 => 31
  | arm_cortex_r5 => 32 | arm_cortex_r7 => 33 | arm_cortex_r8 => 34
  | arm_cortex_m23 => 35 | arm_cortex_m33 => 36 | arm_cortex_a32 => 37
  | arm_cortex_r52 => 38 | arm_cortex_a34 => 39 | arm_cortex_a35 => 40
  | arm_cortex_a53 => 41 | arm_cortex_a55 => 42 | arm_cortex_a57 => 43
  | arm_cortex_a65 => 44 | arm_cortex_a65ae => 45 | arm_cortex_a72 => 46
  | arm_cortex_a73 => 47 | arm_cortex_a75 => 48 | arm_cortex_a76 => 49
  | arm_cortex_a76ae => 50 | arm_cortex_a77 => 51 | arm_cortex_a78 => 52
  | arm_cortex_x1 => 53 | arm_neoverse_e1 => 54 | arm_neoverse_n1 => 55
  | arm_neoverse_v1 => 56 | arm_neoverse_n2 => 57 | cavium_thunderx => 58
  | cavium_thunderx88 => 59 | cavium_thunderx88p1 => 60
  | cavium_thunderx81 => 61 | cavium_thunderx83 => 62
  | cavium_thunderx2t99 => 63 | cavium_thunderx2t99p1 => 64
  | cavium_octeontx2 => 65 | cavium_octeontx2t98 => 66
  | cavium_octeontx2t96 => 67 | cavium_octeontx2f95 => 68
  | cavium_octeontx2f95n => 69 | cavium_octeontx2f95mm => 70
  | fujitsu_a64fx => 71 | hisilicon_tsv110 => 72 | hxt_phecda => 73
  | nvidia_denver1 => 74 | nvidia_denver2 => 75 | nvidia_carmel => 76
  | apm_xgene1 => 77 | apm_xgene2 => 78 | apm_xgene3 => 79
  | qualcomm_scorpion => 80 | qualcomm_krait => 81 | qualcomm_kyro => 82
  | qualcomm_falkor => 83 | qualcomm_saphira => 84 | samsung_exynos_m1 => 85
  | samsung_exynos_m2 => 86 | samsung_exynos_m3 => 87
  | samsung_exynos_m4 => 88 | samsung_exynos_m5 => 89 | apple_swift => 90
  | apple_a7 => 91 | apple_a8 => 92 | apple_a9 => 93 | apple_a10 => 94
  | apple_a11 => 95 | apple_a12 => 96 | apple_a13 => 97 | apple_a14 => 98
  | apple_a15 => 99 | apple_a16 => 100 | apple_a17 => 101 | apple_m1 => 102
  | apple_m2 => 103 | apple_m3 => 104 | apple_m4 => 105 | apple_s4 => 106
  | apple_s5 => 107 | marvell_pj4 => 108 | marvell_thunderx3t110 => 109
  | intel_3735d => 110
  end.

End CPU.

(** ** Feature vectors

    Modelled from the spec: [FeatureList<n>] and its bit operations live in
    processor.h, which is not among the sources.  "Feature vector: a
    fixed-width bitset of W x 32 bits (W = 3 for this core) ... union,
    intersection, complement, test-bit, set-bit, clear-bit, mask", held as
    "a [W] array of 32-bit words", where "bit / 32 and bit % 32 address a
    word and offset".  An index outside the array reads 0 and writes
    nothing here; the code never forms one (see [Feature.header_ok]). *)

Record FeatureList : Set := mkFeatureList { w0 : Z; w1 : Z; w2 : Z }.

Definition feature_sz : Z := 3.

Definition FL_zero : FeatureList := mkFeatureList 0 0 0.

(** [features[i]] *)
Definition get_word (F : FeatureList) (i : Z) : Z :=
  if i =? 0 then w0 F else if i =? 1 then w1 F else if i =? 2 then w2 F else 0.

(** [features[i] = v] *)
Definition set_word (F : FeatureList) (i : Z) (v : Z) : FeatureList :=
  if i =? 0 then mkFeatureList v (w1 F) (w2 F)
  else if i =? 1 then mkFeatureList (w0 F) v (w2 F)
  else if i =? 2 then mkFeatureList (w0 F) (w1 F) v
  else F.

Definition test_nbit (F : FeatureList) (bitidx : Z) : bool :=
  let u32idx := bitidx / 32 in
  let bit := bitidx mod 32 in
  negb (Z.land (get_word F u32idx) (Z.shiftl 1 bit) =? 0).

Definition set_bit (F : FeatureList) (bitidx : Z) (val : bool) : FeatureList :=
  let u32idx := bitidx / 32 in
  let bit := bitidx mod 32 in
  if val then set_word F u32idx (Z.lor (get_word F u32idx) (Z.shiftl 1 bit))
  else set_word F u32idx (Z.land (get_word F u32idx) (not32 (Z.shiftl 1 bit))).

Definition unset_bits (F : FeatureList) (bitidx : Z) : FeatureList :=
  let u32idx := bitidx / 32 in
  let bit := bitidx mod 32 in
  set_word F u32idx (Z.land (get_word F u32idx) (not32 (Z.shiftl 1 bit))).

(** [a | b], [a & b] and [~a] on feature vectors, word by word. *)
Definition FL_or (A B : FeatureList) : FeatureList :=
  mkFeatureList (Z.lor (w0 A) (w0 B)) (Z.lor (w1 A) (w1 B)) (Z.lor (w2 A) (w2 B)).

Definition FL_and (A B : FeatureList) : FeatureList :=
  mkFeatureList (Z.land (w0 A) (w0 B)) (Z.land (w1 A) (w1 B)) (Z.land (w2 A) (w2 B)).

Definition FL_not (A : FeatureList) : FeatureList :=
  mkFeatureList (not32 (w0 A)) (not32 (w1 A)) (not32 (w2 A)).

(** [mask_features(masks, &features[0])]: [features[i] &= masks[i]]. *)
Definition mask_features (masks features : FeatureList) : FeatureList :=
  FL_and features masks.

(** [get_feature_masks<3>(bits...)]: the vector with the listed bits set.  A
    bit that falls in none of the three words, such as the [-1] that closes
    the list of [feature_masks], contributes nothing. *)
Definition get_feature_masks (bits : list Z) : FeatureList :=
  fold_left (fun F b => if (0 <=? b) && (b <? 32 * feature_sz)
                        then set_bit F b true else F) bits FL_zero.

(** [struct FeatureName { name, bit, llvmver }] *)
Record FeatureName : Set :=
  mkFeatureName { fe_name : string; fe_bit : Z; fe_llvmver : Z }.

(** [struct FeatureDep { feature, dep }]: [feature] needs [dep]. *)
Record FeatureDep : Set := mkFeatureDep { feature : Z; dep : Z }.

(** ** The feature catalog ([namespace Feature]) *)

Module Feature.

(** The enumerators of [features_aarch64.h] that the file names. *)
Inductive id : Set :=
  | crc | aes | sha2 | lse | fullfp16 | rdm | jsconv | complxnum | rcpc | ccpp
  | sha3 | sm4 | dotprod | sve | fp16fml | dit | rcpc_immo | flagm | ssbs | sb
  | pauth | ccdp | sve2 | sve2_aes | sve2_bitperm | sve2_sha3 | sve2_sm4
  | altnzcv | fptoint | f32mm | f64mm | i8mm | bf16 | rand | mte
  | v8_1a | v8_2a | v8_3a | v8_4a | v8_5a | v8_6a.

Definition all : list id :=
  [ crc; aes; sha2; lse; fullfp16; rdm; jsconv; complxnum; rcpc; ccpp;
    sha3; sm4; dotprod; sve; fp16fml; dit; rcpc_immo; flagm; ssbs; sb;
    pauth; ccdp; sve2; sve2_aes; sve2_bitperm; sve2_sha3; sve2_sm4;
    altnzcv; fptoint; f32mm; f64mm; i8mm; bf16; rand; mte;
    v8_1a; v8_2a; v8_3a; v8_4a; v8_5a; v8_6a ].

#[global] Instance id_eq_dec : EqDecision id.
Proof. solve_decision. Defined.

(** What [#include "features_aarch64.h"] contributes.  The header is not
    among the sources, so its content is a parameter: [bit] is the value of
    each enumerator ([JL_FEATURE_DEF(name, bit, llvmver)] read as
    [name = bit]), [feature_names] the table the same lines give when read
    as [{#name, bit, llvmver}], in the header's order. *)
Class Header : Type := {
  bit : id -> Z;
  feature_names : list FeatureName;
}.

(** The header gives every enumerator its own bit, inside the vector: the
    spec's "bit ids are unique", and what the constant evaluation of
    [feature_masks] needs to compile. *)
Definition header_ok `{Header} : Prop :=
  (forall a b : id, bit a = bit b -> a = b) /\ (forall a : id, 0 <= bit a < 96).

Section catalog.
Context `{Header}.

(** [get_feature_masks(a, b, ...)] on enumerators. *)
Definition masks (l : list id) : FeatureList := get_feature_masks (bit <$> l).

(** [feature_masks]: every bit of the header, then [-1]. *)
Definition feature_masks : FeatureList :=
  get_feature_masks ((fe_bit <$> feature_names) ++ [UINT32_MAX]).

Definition real_feature_masks : FeatureList :=
  FL_and feature_masks (mkFeatureList UINT32_MAX UINT32_MAX 0).

(** This does not cover all dependencies (e.g. the ones that depends on arm
    versions). *)
Definition deps_ids : list (id * id) :=
  [ (rcpc_immo, rcpc);
    (sha3, sha2);
    (ccdp, ccpp);
    (sve, fullfp16);
    (fp16fml, fullfp16);
    (altnzcv, flagm);
    (sve2, sve);
    (sve2_aes, sve2);
    (sve2_aes, aes);
    (sve2_bitperm, sve2);
    (sve2_sha3, sve2);
    (sve2_sha3, sha3);
    (sve2_sm4, sve2);
    (sve2_sm4, sm4);
    (f32mm, sve);
    (f64mm, sve) ].

Definition deps : list FeatureDep :=
  (fun d => mkFeatureDep (bit d.1) (bit d.2)) <$> deps_ids.

Definition generic : FeatureList := masks [].
Definition armv8a_crc : FeatureList := masks [crc].
Definition armv8a_crc_crypto : FeatureList :=
  FL_or armv8a_crc (masks [aes; sha2]).
Definition armv8_1a : FeatureList :=
  FL_or armv8a_crc (masks [v8_1a; lse; rdm]).
Definition armv8_1a_crypto : FeatureList :=
  FL_or armv8_1a (masks [aes; sha2]).
Definition armv8_2a : FeatureList :=
  FL_or armv8_1a (masks [v8_2a; ccpp]).
Definition armv8_2a_crypto : FeatureList :=
  FL_or armv8_2a (masks [aes; sha2]).
Definition armv8_3a : FeatureList :=
  FL_or armv8_2a (masks [v8_3a; jsconv; complxnum; rcpc]).
Definition armv8_3a_crypto : FeatureList :=
  FL_or armv8_3a (masks [aes; sha2]).
Definition armv8_4a : FeatureList :=
  FL_or armv8_3a (masks [v8_4a; dit; rcpc_immo; flagm]).
Definition armv8_4a_crypto : FeatureList :=
  FL_or armv8_4a (masks [aes; sha2]).
Definition armv8_5a : FeatureList :=
  FL_or armv8_4a (masks [v8_5a; sb; ccdp; altnzcv; fptoint]).
Definition armv8_5a_crypto : FeatureList :=
  FL_or armv8_5a (masks [aes; sha2]).
Definition armv8_6a : FeatureList :=
  FL_or armv8_5a (masks [v8_6a; i8mm; bf16]).
Definition arm_cortex_a34 : FeatureList := armv8a_crc.
Definition arm_cortex_a35 : FeatureList := armv8a_crc.
Definition arm_cortex_a53 : FeatureList := armv8a_crc.
Definition arm_cortex_a55 : FeatureList :=
  FL_or armv8_2a (masks [dotprod; rcpc; fullfp16; ssbs]).
Definition arm_cortex_a57 : FeatureList := armv8a_crc.
Definition arm_cortex_a65 : FeatureList :=
  FL_or armv8_2a (masks [rcpc; fullfp16; ssbs]).
Definition arm_cortex_a72 : FeatureList := armv8a_crc.
Definition arm_cortex_a73 : FeatureList := armv8a_crc.
Definition arm_cortex_a75 : FeatureList :=
  FL_or armv8_2a (masks [dotprod; rcpc; fullfp16]).
Definition arm_cortex_a76 : FeatureList :=
  FL_or armv8_2a (masks [dotprod; rcpc; fullfp16; ssbs]).
Definition arm_cortex_a77 : FeatureList :=
  FL_or armv8_2a (masks [dotprod; rcpc; fullfp16; ssbs]).
Definition arm_cortex_a78 : FeatureList :=
  FL_or armv8_2a (masks [dotprod; rcpc; fullfp16; ssbs]).
Definition arm_cortex_x1 : FeatureList :=
  FL_or armv8_2a (masks [dotprod; rcpc; fullfp16; ssbs]).
Definition arm_neoverse_e1 : FeatureList :=
  FL_or armv8_2a (masks [rcpc; fullfp16; ssbs]).
Definition arm_neoverse_n1 : FeatureList :=
  FL_or armv8_2a (masks [dotprod; rcpc; fullfp16; ssbs]).
Definition arm_neoverse_v1 : FeatureList :=
  FL_or armv8_4a (masks [sve; i8mm; bf16; fullfp16; ssbs; rand]).
Definition arm_neoverse_n2 : FeatureList :=
  FL_or armv8_5a (masks [sve; i8mm; bf16; fullfp16; sve2; sve2_bitperm; rand; mte]).
Definition cavium_thunderx : FeatureList := armv8a_crc_crypto.
Definition cavium_thunderx88 : FeatureList := armv8a_crc_crypto.
Definition cavium_thunderx88p1 : FeatureList := armv8a_crc_crypto.
Definition cavium_thunderx81 : FeatureList := armv8a_crc_crypto.
Definition cavium_thunderx83 : FeatureList := armv8a_crc_crypto.
Definition cavium_thunderx2t99 : FeatureList := armv8_1a_crypto.
Definition cavium_thunderx2t99p1 : FeatureList := cavium_thunderx2t99.
Definition cavium_octeontx2 : FeatureList := armv8_2a_crypto.
Definition fujitsu_a64fx : FeatureList :=
  FL_or armv8_2a (masks [sha2; fullfp16; sve; complxnum]).
Definition hisilicon_tsv110 : FeatureList :=
  FL_or armv8_2a_crypto (masks [dotprod; fullfp16]).
Definition hxt_phecda : FeatureList := armv8a_crc_crypto.
Definition marvell_thunderx3t110 : FeatureList := armv8_3a_crypto.
Definition nvidia_denver1 : FeatureList := generic.
Definition nvidia_denver2 : FeatureList := armv8a_crc_crypto.
Definition nvidia_carmel : FeatureList :=
  FL_or armv8_2a_crypto (masks [fullfp16]).
Definition apm_xgene1 : FeatureList := generic.
Definition apm_xgene2 : FeatureList := generic.
Definition apm_xgene3 : FeatureList := generic.
Definition qualcomm_kyro : FeatureList := armv8a_crc_crypto.
Definition qualcomm_falkor : FeatureList :=
  FL_or armv8a_crc_crypto (masks [rdm]).
Definition qualcomm_saphira : FeatureList := armv8_4a_crypto.
Definition samsung_exynos_m1 : FeatureList := armv8a_crc_crypto.
Definition samsung_exynos_m2 : FeatureList := armv8a_crc_crypto.
Definition samsung_exynos_m3 : FeatureList := armv8a_crc_crypto.
Definition samsung_exynos_m4 : FeatureList :=
  FL_or armv8_2a_crypto (masks [dotprod; fullfp16]).
Definition samsung_exynos_m5 : FeatureList := samsung_exynos_m4.
Definition apple_a7 : FeatureList := armv8a_crc_crypto.
Definition apple_a10 : FeatureList :=
  FL_or armv8a_crc_crypto (masks [rdm]).
Definition apple_a11 : FeatureList :=
  FL_or armv8_2a_crypto (masks [fullfp16]).
Definition apple_a12 : FeatureList :=
  FL_or armv8_3a_crypto (masks [fullfp16]).
Definition apple_a13 : FeatureList :=
  FL_or armv8_4a_crypto (masks [fp16fml; fullfp16; sha3]).
Definition apple_a14 : FeatureList :=
  FL_or armv8_5a_crypto (masks [dotprod; fp16fml; fullfp16; sha3]).
Definition apple_a15 : FeatureList :=
  FL_or armv8_5a_crypto (masks [dotprod; fp16fml; fullfp16; sha3; i8mm; bf16]).
Definition apple_a16 : FeatureList :=
  FL_or armv8_5a_crypto (masks [dotprod; fp16fml; fullfp16; sha3; i8mm; bf16]).
Definition apple_a17 : FeatureList :=
  FL_or armv8_5a_crypto (masks [dotprod; fp16fml; fullfp16; sha3; i8mm; bf16]).
Definition apple_m1 : FeatureList :=
  FL_or armv8_5a_crypto (masks [dotprod; fp16fml; fullfp16; sha3]).
Definition apple_m2 : FeatureList :=
  FL_or armv8_5a_crypto (masks [dotprod; fp16fml; fullfp16; sha3; i8mm; bf16]).
Definition apple_m3 : FeatureList :=
  FL_or armv8_5a_crypto (masks [dotprod; fp16fml; fullfp16; sha3; i8mm; bf16]).
Definition apple_m4 : FeatureList :=
  FL_or armv8_5a_crypto (masks [dotprod; fp16fml; fullfp16; sha3; i8mm; bf16]).
Definition apple_s4 : FeatureList := apple_a12.
Definition apple_s5 : FeatureList := apple_a12.
End catalog.

End Feature.

Import Feature.

(** ** The CPU catalog *)

(** [struct CPUSpec { name, cpu, fallback, llvmver, features }] *)
Record CPUSpec : Set := mkCPUSpec {
  spec_name : string;
  spec_cpu : CPU.t;
  spec_fallback : CPU.t;
  spec_llvmver : Z;
  spec_features : FeatureList;
}.

Section cpu_catalog.
Context `{Header}.

Definition cpus : list CPUSpec :=
  [ mkCPUSpec "generic" CPU.generic CPU.generic 0 Feature.generic;
    mkCPUSpec "armv8.1-a" CPU.armv8_1_a CPU.generic 0 Feature.armv8_1a;
    mkCPUSpec "armv8.2-a" CPU.armv8_2_a CPU.generic 0 Feature.armv8_2a;
    mkCPUSpec "armv8.3_a" CPU.armv8_3_a CPU.generic 0 Feature.armv8_3a;
    mkCPUSpec "armv8.4-a" CPU.armv8_4_a CPU.generic 0 Feature.armv8_4a;
    mkCPUSpec "armv8.5-a" CPU.armv8_5_a CPU.generic 0 Feature.armv8_5a;
    mkCPUSpec "armv8.6_a" CPU.armv8_6_a CPU.generic 0 Feature.armv8_6a;
    mkCPUSpec "cortex-a34" CPU.arm_cortex_a34 CPU.arm_cortex_a35 110000 Feature.arm_cortex_a34;
    mkCPUSpec "cortex-a35" CPU.arm_cortex_a35 CPU.generic 0 Feature.arm_cortex_a35;
    mkCPUSpec "cortex-a53" CPU.arm_cortex_a53 CPU.generic 0 Feature.arm_cortex_a53;
    mkCPUSpec "cortex-a55" CPU.arm_cortex_a55 CPU.generic 0 Feature.arm_cortex_a55;
    mkCPUSpec "cortex-a57" CPU.arm_cortex_a57 CPU.generic 0 Feature.arm_cortex_a57;
    mkCPUSpec "cortex-a65" CPU.arm_cortex_a65 CPU.arm_cortex_a75 100000 Feature.arm_cortex_a65;
    mkCPUSpec "cortex-a65ae" CPU.arm_cortex_a65ae CPU.arm_cortex_a75 100000 Feature.arm_cortex_a65;
    mkCPUSpec "cortex-a72" CPU.arm_cortex_a72 CPU.generic 0 Feature.arm_cortex_a72;
    mkCPUSpec "cortex-a73" CPU.arm_cortex_a73 CPU.generic 0 Feature.arm_cortex_a73;
    mkCPUSpec "cortex-a75" CPU.arm_cortex_a75 CPU.generic 0 Feature.arm_cortex_a75;
    mkCPUSpec "cortex-a76" CPU.arm_cortex_a76 CPU.generic 0 Feature.arm_cortex_a76;
    mkCPUSpec "cortex-a76ae" CPU.arm_cortex_a76ae CPU.generic 0 Feature.arm_cortex_a76;
    mkCPUSpec "cortex-a77" CPU.arm_cortex_a77 CPU.arm_cortex_a76 110000 Feature.arm_cortex_a77;
    mkCPUSpec "cortex-a78" CPU.arm_cortex_a78 CPU.arm_cortex_a77 110000 Feature.arm_cortex_a78;
    mkCPUSpec "cortex-x1" CPU.arm_cortex_x1 CPU.arm_cortex_a78 110000 Feature.arm_cortex_x1;
    mkCPUSpec "neoverse-e1" CPU.arm_neoverse_e1 CPU.arm_cortex_a76 100000 Feature.arm_neoverse_e1;
    mkCPUSpec "neoverse-n1" CPU.arm_neoverse_n1 CPU.arm_cortex_a76 100000 Feature.arm_neoverse_n1;
    mkCPUSpec "neoverse-v1" CPU.arm_neoverse_v1 CPU.arm_neoverse_n1 UINT32_MAX Feature.arm_neoverse_v1;
    mkCPUSpec "neoverse-n2" CPU.arm_neoverse_n2 CPU.arm_neoverse_n1 UINT32_MAX Feature.arm_neoverse_n2;
    mkCPUSpec "thunderx" CPU.cavium_thunderx CPU.generic 0 Feature.cavium_thunderx;
    mkCPUSpec "thunderxt88" CPU.cavium_thunderx88 CPU.generic 0 Feature.cavium_thunderx88;
    mkCPUSpec "thunderxt88p1" CPU.cavium_thunderx88p1 CPU.cavium_thunderx88 UINT32_MAX Feature.cavium_thunderx88p1;
    mkCPUSpec "thunderxt81" CPU.cavium_thunderx81 CPU.generic 0 Feature.cavium_thunderx81;
    mkCPUSpec "thunderxt83" CPU.cavium_thunderx83 CPU.generic 0 Feature.cavium_thunderx83;
    mkCPUSpec "thunderx2t99" CPU.cavium_thunderx2t99 CPU.generic 0 Feature.cavium_thunderx2t99;
    mkCPUSpec "thunderx2t99p1" CPU.cavium_thunderx2t99p1 CPU.cavium_thunderx2t99 UINT32_MAX Feature.cavium_thunderx2t99p1;
    mkCPUSpec "octeontx2" CPU.cavium_octeontx2 CPU.arm_cortex_a57 UINT32_MAX Feature.cavium_octeontx2;
    mkCPUSpec "octeontx2t98" CPU.cavium_octeontx2t98 CPU.arm_cortex_a57 UINT32_MAX Feature.cavium_octeontx2;
    mkCPUSpec "octeontx2t96" CPU.cavium_octeontx2t96 CPU.arm_cortex_a57 UINT32_MAX Feature.cavium_octeontx2;
    mkCPUSpec "octeontx2f95" CPU.cavium_octeontx2f95 CPU.arm_cortex_a57 UINT32_MAX Feature.cavium_octeontx2;
    mkCPUSpec "octeontx2f95n" CPU.cavium_octeontx2f95n CPU.arm_cortex_a57 UINT32_MAX Feature.cavium_octeontx2;
    mkCPUSpec "octeontx2f95mm" CPU.cavium_octeontx2f95mm CPU.arm_cortex_a57 UINT32_MAX Feature.cavium_octeontx2;
    mkCPUSpec "a64fx" CPU.fujitsu_a64fx CPU.generic 110000 Feature.fujitsu_a64fx;
    mkCPUSpec "tsv110" CPU.hisilicon_tsv110 CPU.generic 0 Feature.hisilicon_tsv110;
    mkCPUSpec "phecda" CPU.hxt_phecda CPU.qualcomm_falkor UINT32_MAX Feature.hxt_phecda;
    mkCPUSpec "denver1" CPU.nvidia_denver1 CPU.generic UINT32_MAX Feature.nvidia_denver1;
    mkCPUSpec "denver2" CPU.nvidia_denver2 CPU.generic UINT32_MAX Feature.nvidia_denver2;
    mkCPUSpec "carmel" CPU.nvidia_carmel CPU.generic 110000 Feature.nvidia_carmel;
    mkCPUSpec "xgene1" CPU.apm_xgene1 CPU.generic UINT32_MAX Feature.apm_xgene1;
    mkCPUSpec "xgene2" CPU.apm_xgene2 CPU.generic UINT32_MAX Feature.apm_xgene2;
    mkCPUSpec "xgene3" CPU.apm_xgene3 CPU.generic UINT32_MAX Feature.apm_xgene3;
    mkCPUSpec "kyro" CPU.qualcomm_kyro CPU.generic 0 Feature.qualcomm_kyro;
    mkCPUSpec "falkor" CPU.qualcomm_falkor CPU.generic 0 Feature.qualcomm_falkor;
    mkCPUSpec "saphira" CPU.qualcomm_saphira CPU.generic 0 Feature.qualcomm_saphira;
    mkCPUSpec "exynos-m1" CPU.samsung_exynos_m1 CPU.generic UINT32_MAX Feature.samsung_exynos_m1;
    mkCPUSpec "exynos-m2" CPU.samsung_exynos_m2 CPU.generic UINT32_MAX Feature.samsung_exynos_m2;
    mkCPUSpec "exynos-m3" CPU.samsung_exynos_m3 CPU.generic 0 Feature.samsung_exynos_m3;
    mkCPUSpec "exynos-m4" CPU.samsung_exynos_m4 CPU.generic 0 Feature.samsung_exynos_m4;
    mkCPUSpec "exynos-m5" CPU.samsung_exynos_m5 CPU.samsung_exynos_m4 110000 Feature.samsung_exynos_m5;
    mkCPUSpec "apple-a7" CPU.apple_a7 CPU.generic 100000 Feature.apple_a7;
    mkCPUSpec "apple-a8" CPU.apple_a8 CPU.generic 100000 Feature.apple_a7;
    mkCPUSpec "apple-a9" CPU.apple_a9 CPU.generic 100000 Feature.apple_a7;
    mkCPUSpec "apple-a10" CPU.apple_a10 CPU.generic 100000 Feature.apple_a10;
    mkCPUSpec "apple-a11" CPU.apple_a11 CPU.generic 100000 Feature.apple_a11;
    mkCPUSpec "apple-a12" CPU.apple_a12 CPU.generic 100000 Feature.apple_a12;
    mkCPUSpec "apple-a13" CPU.apple_a13 CPU.generic 100000 Feature.apple_a13;
    mkCPUSpec "apple-a14" CPU.apple_a14 CPU.apple_a13 120000 Feature.apple_a14;
    mkCPUSpec "apple-a15" CPU.apple_a15 CPU.apple_a14 160000 Feature.apple_a15;
    mkCPUSpec "apple-a16" CPU.apple_a16 CPU.apple_a14 160000 Feature.apple_a16;
    mkCPUSpec "apple-a17" CPU.apple_a17 CPU.apple_a16 190000 Feature.apple_a17;
    mkCPUSpec "apple-m1" CPU.apple_m1 CPU.apple_a14 130000 Feature.apple_m1;
    mkCPUSpec "apple-m2" CPU.apple_m2 CPU.apple_m1 160000 Feature.apple_m2;
    mkCPUSpec "apple-m3" CPU.apple_m3 CPU.apple_m2 180000 Feature.apple_m3;
    mkCPUSpec "apple-m4" CPU.apple_m4 CPU.apple_m3 190000 Feature.apple_m4;
    mkCPUSpec "apple-s4" CPU.apple_s4 CPU.generic 100000 Feature.apple_s4;
    mkCPUSpec "apple-s5" CPU.apple_s5 CPU.generic 100000 Feature.apple_s5;
    mkCPUSpec "thunderx3t110" CPU.marvell_thunderx3t110 CPU.cavium_thunderx2t99 110000 Feature.marvell_thunderx3t110 ].
Definition ncpu_names : nat := length cpus.

(** Modelled from the spec: the generic [find_cpu] and [find_cpu_name] of
    processor.cpp are not among the sources; "find_cpu_by_name,
    find_cpu_by_id and find_cpu_name(id)" look an entry of the catalog up
    by its name or by its id, the first one that matches. *)
Definition find_cpu_id (cpu : Z) : option CPUSpec :=
  List.find (fun s => CPU.id (spec_cpu s) =? cpu) cpus.

Definition find_cpu (name : string) : option CPUSpec :=
  List.find (fun s => String.eqb (spec_name s) name) cpus.

Definition find_cpu_name (cpu : Z) : string :=
  match find_cpu_id cpu with
  | Some s => spec_name s
  | None => "generic"
  end.

End cpu_catalog.

(** ** Dependency closures

    Modelled from the spec: the generic [enable_depends] and
    [disable_depends] of processor.cpp, which the wrappers below call, are
    not among the sources.  "enable_depends(F): repeatedly walks a static
    edge list; for each (dep, prereq) where dep is set, sets prereq";
    "disable_depends(F): for each edge, if the prerequisite is clear, clears
    the dependent"; "both closures ... converge in a bounded number of
    passes (at most |edges| + 1)"; "a single generic fixpoint over edges
    utility parameterized by direction avoids duplication".  A pass reports
    whether it changed the vector, the walk is repeated while it did, and
    [None] stands for a walk that has not settled within that bound. *)

Definition dep_pass (act : FeatureList -> FeatureDep -> FeatureList)
    (deps : list FeatureDep) (F : FeatureList) : FeatureList * bool :=
  fold_left (fun (st : FeatureList * bool) d =>
               if test_nbit st.1 (feature d) && negb (test_nbit st.1 (dep d))
               then (act st.1 d, true)
               else st) deps (F, false).

Definition enable_pass : list FeatureDep -> FeatureList -> FeatureList * bool :=
  dep_pass (fun F d => set_bit F (dep d) true).

Definition disable_pass : list FeatureDep -> FeatureList -> FeatureList * bool :=
  dep_pass (fun F d => unset_bits F (feature d)).

Fixpoint closure_loop (pass : FeatureList -> FeatureList * bool)
    (fuel : nat) (F : FeatureList) : option FeatureList :=
  match fuel with
  | O => None
  | S fuel =>
      let r := pass F in
      if r.2 then closure_loop pass fuel r.1 else Some r.1
  end.

Definition generic_enable_depends (F : FeatureList) (deps : list FeatureDep)
  : option FeatureList :=
  closure_loop (enable_pass deps) (S (length deps)) F.

Definition generic_disable_depends (F : FeatureList) (deps : list FeatureDep)
  : option FeatureList :=
  closure_loop (disable_pass deps) (S (length deps)) F.

(** [if (test_nbit(features, a)) { set_bit(features, b, true); ... }] *)
Definition implies (F : FeatureList) (a : Z) (bs : list Z) : FeatureList :=
  if test_nbit F a then fold_left (fun F b => set_bit F b true) bs F else F.

Section closures.
Context `{Header}.

Definition enable_depends (features : FeatureList) : option FeatureList :=
  let features := implies features (bit v8_6a) [bit v8_5a] in
  let features := implies features (bit v8_5a) [bit v8_4a] in
  let features := implies features (bit v8_4a) [bit v8_3a] in
  let features := implies features (bit v8_3a) [bit v8_2a] in
  let features := implies features (bit v8_2a) [bit v8_1a] in
  let features := implies features (bit v8_1a) [bit crc] in
  let features := implies features (bit v8_1a) [bit lse; bit rdm] in
  let features := implies features (bit v8_2a) [bit ccpp] in
  let features :=
    implies features (bit v8_3a) [bit jsconv; bit complxnum; bit rcpc] in
  let features :=
    implies features (bit v8_4a) [bit dit; bit rcpc_immo; bit flagm] in
  let features :=
    implies features (bit v8_5a)
            [bit sb; bit ccdp; bit altnzcv; bit fptoint] in
  let features := implies features (bit v8_6a) [bit i8mm; bit bf16] in
  generic_enable_depends features deps.

Definition disable_depends (features : FeatureList) : option FeatureList :=
  generic_disable_depends features deps.

End closures.

(** ** Targets *)

(** [struct TargetData { name, ext_features, en { features, flags },
    dis { features, flags }, base }] *)
Record FeatureData : Set := mkFeatureData { features : FeatureList; flags : Z }.

Record TargetData : Set := mkTargetData {
  name : string;
  ext_features : string;
  en : FeatureData;
  dis : FeatureData;
  base : Z;
}.

(** The constants the file takes from processor.h and from the backend's
    version header. *)
Class Processor : Type := {
  JL_LLVM_VERSION : Z;
  JL_TARGET_CLONE_ALL : Z;
  JL_TARGET_CLONE_LOOP : Z;
  JL_TARGET_UNKNOWN_NAME : Z;
  JL_TARGET_CLONE_CPU : Z;
  JL_TARGET_CLONE_FLOAT16 : Z;
  (** [check_cmdline(cmdline, imaging)] returns ([true]) or leaves the
      process. *)
  check_cmdline : list TargetData -> bool -> bool;
}.

(** The memoized result of host discovery and the backend's own name for
    the host. *)
Class Host : Type := {
  get_host_cpu : Z * FeatureList;
  jl_get_cpu_name_llvm : string;
}.

Definition is_generic_cpu_name (cpu : Z) : bool :=
  existsb (fun c => CPU.id c =? cpu)
    [ CPU.generic; CPU.armv7_a; CPU.armv7_m; CPU.armv7e_m; CPU.armv7_r;
      CPU.armv8_a; CPU.armv8_m_base; CPU.armv8_m_main; CPU.armv8_r;
      CPU.armv8_1_a; CPU.armv8_2_a; CPU.armv8_3_a; CPU.armv8_4_a;
      CPU.armv8_5_a; CPU.armv8_6_a ].

Definition normalize_cpu_name (name : string) : option string :=
  if String.eqb name "ares" then Some "neoverse-n1"
  else if String.eqb name "zeus" then Some "neoverse-v1"
  else if String.eqb name "cyclone" then Some "apple-a7"
  else if String.eqb name "typhoon" then Some "apple-a8"
  else if String.eqb name "twister" then Some "apple-a9"
  else if String.eqb name "hurricane" then Some "apple-a10"
  else None.

Section resolver.
Context `{Header} `{Processor} `{Host}.

Definition host_cpu_name : string :=
  if is_generic_cpu_name get_host_cpu.1
     && negb (String.eqb jl_get_cpu_name_llvm "generic")
  then jl_get_cpu_name_llvm
  else find_cpu_name get_host_cpu.1.

Definition set_features (d : FeatureData) (F : FeatureList) : FeatureData :=
  mkFeatureData F (flags d).

Definition set_flags (d : FeatureData) (f : Z) : FeatureData :=
  mkFeatureData (features d) f.

Definition arg_target_data (arg : TargetData) (require_host : bool)
  : option TargetData :=
  let res := arg in
  let '(res_name, cpu_features, en_flags) :=
    if String.eqb (name res) "native"
    then (host_cpu_name, Some get_host_cpu.2, flags (en res))
    else match find_cpu (name res) with
         | Some spec => (name res, Some (spec_features spec), flags (en res))
         | None => (name res, None,
                    Z.lor (flags (en res)) JL_TARGET_UNKNOWN_NAME)
         end in
  let en_features :=
    match cpu_features with
    | Some cf => FL_or (features (en res)) cf
    | None => features (en res)
    end in
  en_features ← enable_depends en_features;
  let en_features := FL_and en_features (FL_not (features (dis res))) in
  let en_features :=
    if require_host then FL_and en_features get_host_cpu.2 else en_features in
  en_features ← disable_depends en_features;
  let dis_features :=
    match cpu_features with
    | Some _ =>
        (* If the base feature if known, fill in the disable features *)
        FL_and feature_masks (FL_not en_features)
    | None => features (dis res)
    end in
  Some (mkTargetData res_name (ext_features res)
          (mkFeatureData en_features en_flags)
          (mkFeatureData dis_features (flags (dis res)))
          (base res)).

End resolver.

(** ** The JIT target list and the clone flags *)

Section jit_targets.
Context `{Header} `{Processor} `{Host}.

(** [for (auto &arg: cmdline) { jit_targets.push_back(arg_target_data(arg,
    jit_targets.empty())); }] *)
Fixpoint resolve_all (cmdline : list TargetData) (targets : list TargetData)
  : option (list TargetData) :=
  match cmdline with
  | [] => Some targets
  | arg :: rest =>
      data ← arg_target_data arg (bool_decide (targets = []));
      resolve_all rest (targets ++ [data])
  end.

(** [for (auto fe: fes) if (!test_nbit(features0, fe) &&
    test_nbit(t.en.features, fe)) { flags |= flag; break; }] *)
Definition clone_if_new (fes : list Z) (features0 tfeatures : FeatureList)
    (flag fl : Z) : Z :=
  if existsb (fun fe => negb (test_nbit features0 fe) && test_nbit tfeatures fe)
             fes
  then Z.lor fl flag else fl.

Definition clone_fp16 : list Z := [bit fp16fml; bit fullfp16].

(** The body of the loop that decides the clone condition, at index [i].
    [None] is an index outside the list. *)
Definition clone_step (targets : list TargetData) (i : nat)
  : option (list TargetData) :=
  t ← targets !! i;
  if negb (Z.land (flags (en t)) JL_TARGET_CLONE_ALL =? 0) then Some targets
  else
    t0 ← targets !! Z.to_nat (base t);
    let features0 := features (en t0) in
    (* Always clone when code checks CPU features *)
    let fl := Z.lor (flags (en t)) JL_TARGET_CLONE_CPU in
    let fl := clone_if_new clone_fp16 features0 (features (en t))
                           JL_TARGET_CLONE_FLOAT16 fl in
    (* The most useful one in general... *)
    let fl := Z.lor fl JL_TARGET_CLONE_LOOP in
    Some (<[i := mkTargetData (name t) (ext_features t)
                   (mkFeatureData (features (en t)) fl) (dis t) (base t)]>
            targets).

(** [for (size_t i = 1; i < ntargets; i++)] *)
Fixpoint clone_loop (targets : list TargetData) (i : nat) (n : nat)
  : option (list TargetData) :=
  match n with
  | O => Some targets
  | S n => targets ← clone_step targets i; clone_loop targets (S i) n
  end.

(** [ensure_jit_target]: the new value of [jit_targets], or [None] when
    the call does not return. *)
Definition ensure_jit_target (jit_targets cmdline : list TargetData)
    (imaging : bool) : option (list TargetData) :=
  if negb (check_cmdline cmdline imaging) then None
  else if negb (bool_decide (jit_targets = [])) then Some jit_targets
  else
    jit_targets ← resolve_all cmdline jit_targets;
    let ntargets := length jit_targets in
    clone_loop jit_targets 1 (ntargets - 1).

End jit_targets.

(** ** The backend string emitter *)

Section emitter.
Context `{Header} `{Processor}.

(** [while (spec) { if (spec->llvmver <= JL_LLVM_VERSION) break;
    spec = find_cpu(spec->fallback); name = spec->name; }], with [None] for
    a fallback that is not in the catalog. *)
Fixpoint fallback_loop (fuel : nat) (spec : CPUSpec) : option CPUSpec :=
  if spec_llvmver spec <=? JL_LLVM_VERSION then Some spec
  else match fuel with
       | O => None
       | S fuel =>
           spec ← find_cpu_id (CPU.id (spec_fallback spec));
           fallback_loop fuel spec
       end.

(** [for (auto &fename: feature_names)] *)
Fixpoint feature_strs_loop (names : list FeatureName)
    (features dis_features : FeatureList) (feature_strs : list string)
  : list string :=
  match names with
  | [] => feature_strs
  | fename :: names =>
      if JL_LLVM_VERSION <? fe_llvmver fename
      then feature_strs_loop names features dis_features feature_strs
      else if 32 * 2 <=? fe_bit fename then feature_strs
      else
        let enable := test_nbit features (fe_bit fename) in
        let disable := test_nbit dis_features (fe_bit fename) in
        if enable
        then feature_strs_loop names features dis_features
               (("+" +:+ fe_name fename) :: feature_strs)
        else if disable
        then feature_strs_loop names features dis_features
               (feature_strs ++ ["-" +:+ fe_name fename])
        else feature_strs_loop names features dis_features feature_strs
  end.

(** [if (test_nbit(features, fe)) feature_strs.push_back(s);] *)
Definition push_if (features : FeatureList) (fe : Z) (s : string)
    (feature_strs : list string) : list string :=
  if test_nbit features fe then feature_strs ++ [s] else feature_strs.

Definition get_llvm_target_noext (data : TargetData)
  : option (string * list string) :=
  spec ← match find_cpu (name data) with
         | Some spec => Some <$> fallback_loop ncpu_names spec
         | None => Some None
         end;
  let name := match spec with Some s => spec_name s | None => name data end in
  let dis_features := features (dis data) in
  let features := features (en data) in
  let '(features, name) :=
    match spec with
    | Some s =>
        if is_generic_cpu_name (CPU.id (spec_cpu s))
        then (FL_or features (spec_features s), "generic")
        else (features, name)
    | None => (features, name)
    end in
  let feature_strs :=
    feature_strs_loop feature_names features dis_features [] in
  let feature_strs := push_if features (bit v8_6a) "+v8.6a" feature_strs in
  let feature_strs := push_if features (bit v8_5a) "+v8.5a" feature_strs in
  let feature_strs := push_if features (bit v8_4a) "+v8.4a" feature_strs in
  let feature_strs := push_if features (bit v8_3a) "+v8.3a" feature_strs in
  let feature_strs := push_if features (bit v8_2a) "+v8.2a" feature_strs in
  let feature_strs := push_if features (bit v8_1a) "+v8.1a" feature_strs in
  let feature_strs := feature_strs ++ ["+neon"] in
  let feature_strs := feature_strs ++ ["+fp-armv8"] in
  Some (name, feature_strs).

(** Modelled from the spec: [join_feature_strs] and [append_ext_features]
    of processor.cpp are not among the sources; the feature string "is
    comma-joined +/- tokens", and the emitter is to "append the per-target
    ext_features string verbatim". *)
Fixpoint join_feature_strs (strs : list string) : string :=
  match strs with
  | [] => ""
  | [s] => s
  | s :: strs => s +:+ "," +:+ join_feature_strs strs
  end.

Definition append_ext_features (features ext_features : string) : string :=
  if String.eqb ext_features "" then features
  else if String.eqb features "" then ext_features
  else features +:+ "," +:+ ext_features.

Definition get_llvm_target_str (data : TargetData) : option (string * string) :=
  res0 ← get_llvm_target_noext data;
  let features := join_feature_strs res0.2 in
  Some (res0.1, append_ext_features features (ext_features data)).

End emitter.

(** ** Host discovery *)

(** [StringRef::find(needle)]: the first position at which [needle] occurs,
    [None] for [npos]. *)
Fixpoint StringRef_find (s needle : string) : option nat :=
  if String.prefix needle s then Some O
  else match s with
       | EmptyString => None
       | String _ rest => S <$> StringRef_find rest needle
       end.

Section darwin.
Context `{Header}.

(** [_get_host_cpu] of the Darwin AArch64 build, on the value of the sysctl
    [machdep.cpu.brand_string]. *)
Definition _get_host_cpu (cpu_name : string) : Z * FeatureList :=
  if bool_decide (StringRef_find cpu_name "M1" <> None)
  then (CPU.id CPU.apple_m1, Feature.apple_m1)
  else if bool_decide (StringRef_find cpu_name "M2" <> None)
  then (CPU.id CPU.apple_m2, Feature.apple_m2)
  else if bool_decide (StringRef_find cpu_name "M3" <> None)
  then (CPU.id CPU.apple_m3, Feature.apple_m3)
  else if bool_decide (StringRef_find cpu_name "M4" <> None)
  then (CPU.id CPU.apple_m4, Feature.apple_m4)
  else (CPU.id CPU.apple_m1, Feature.apple_m1).

End darwin.

(** [struct CPUID { implementer, variant, part }] *)
Record CPUID : Set := mkCPUID { implementer : Z; variant : Z; part : Z }.

(** The lambda [find] of [shrink_big_little]: the index of [name] in
    [cpus], as an [int], or -1. *)
Fixpoint find_from (cpus : list CPU.t) (name : Z) (i : Z) : Z :=
  match cpus with
  | [] => -1
  | c :: cpus =>
      if CPU.id c =? name then to_int i else find_from cpus name (i + 1)
  end.

Definition shrink_big_little (lst : list (Z * CPUID)) (cpus : list CPU.t)
  : list (Z * CPUID) :=
  let find := fun name => find_from cpus name 0 in
  let maxidx :=
    fold_left (fun maxidx ele =>
                 let idx := find ele.1 in
                 if maxidx <? idx then idx else maxidx) lst (-1) in
  if 0 <=? maxidx
  then filter (fun ele => ~ (find ele.1 <> -1 /\ find ele.1 < maxidx)) lst
  else lst.

(** Not all elements/pairs are valid *)
Definition v8order : list CPU.t :=
  [ CPU.arm_cortex_a35; CPU.arm_cortex_a53; CPU.arm_cortex_a55;
    CPU.arm_cortex_a57; CPU.arm_cortex_a72; CPU.arm_cortex_a73;
    CPU.arm_cortex_a75; CPU.arm_cortex_a76; CPU.arm_neoverse_n1;
    CPU.arm_neoverse_n2; CPU.arm_neoverse_v1; CPU.nvidia_denver2;
    CPU.nvidia_carmel; CPU.samsung_exynos_m1; CPU.samsung_exynos_m2;
    CPU.samsung_exynos_m3; CPU.samsung_exynos_m4; CPU.samsung_exynos_m5 ].

(** ** Exported queries *)

(** [bits[u32idx]] through the pointer [&get_host_cpu().second[0]]: [None]
    is a read outside the three words. *)
Definition read_u32 (F : FeatureList) (u32idx : Z) : option Z :=
  if u32idx =? 0 then Some (w0 F)
  else if u32idx =? 1 then Some (w1 F)
  else if u32idx =? 2 then Some (w2 F)
  else None.

Definition test_nbit_ptr (bits : FeatureList) (bitidx : Z) : option bool :=
  let u32idx := bitidx / 32 in
  let bit := bitidx mod 32 in
  w ← read_u32 bits u32idx;
  Some (negb (Z.land w (Z.shiftl 1 bit) =? 0)).

Section queries.
Context `{Host}.

(** [jl_test_cpu_feature].  The argument is a 32-bit enumeration value; the
    comparison converts it to [size_t], the call to [uint32_t]. *)
Definition jl_test_cpu_feature (feature : Z) : option Z :=
  if 32 * feature_sz <=? feature mod 2 ^ 64 then Some 0
  else
    b ← test_nbit_ptr get_host_cpu.2 (feature mod 2 ^ 32);
    Some (if b : bool then 1 else 0).

End queries.

(** The build with [_CPU_ARM_] defined: its dependency closures, and the
    FPCR operations of the build without [_CPU_AARCH64_]. *)
Module AArch32.

(** The enumerators of [features_aarch32.h] that the file names. *)
Inductive id : Set :=
  | v7 | v8 | aclass | rclass | mclass | hwdiv | hwdiv_arm | neon | vfp3
  | vfp4 | vfp4sp | d32 | crc | crypto
  | v8_1a | v8_2a | v8_3a | v8_4a | v8_5a | v8_6a | v8_m_main.

#[global] Instance id_eq_dec : EqDecision id.
Proof. solve_decision. Defined.

(** What the file takes from [features_aarch32.h]: the value of each
    enumerator. *)
Class Header : Type := { bit : id -> Z }.

(** Every enumerator has its own bit, inside the vector. *)
Definition header_ok `{Header} : Prop :=
  (forall a b : id, bit a = bit b -> a = b) /\ (forall a : id, 0 <= bit a < 96).

Section closures.
Context `{Header}.

(** This does not cover all dependencies (e.g. the ones that depends on arm
    versions). *)
Definition deps_ids : list (id * id) :=
  [ (neon, vfp3); (vfp4, vfp3); (crypto, neon) ].

Definition deps : list FeatureDep :=
  (fun d => mkFeatureDep (bit d.1) (bit d.2)) <$> deps_ids.

Definition enable_depends (features : FeatureList) : option FeatureList :=
  let features := implies features (bit v8_6a) [bit v8_5a] in
  let features := implies features (bit v8_5a) [bit v8_4a] in
  let features := implies features (bit v8_4a) [bit v8_3a] in
  let features := implies features (bit v8_3a) [bit v8_2a] in
  let features := implies features (bit v8_2a) [bit v8_1a] in
  let features := implies features (bit v8_1a) [bit crc] in
  let features := implies features (bit v8_1a) [bit v8; bit aclass] in
  let features := implies features (bit v8_m_main) [bit v8; bit mclass] in
  let features :=
    if test_nbit features (bit v8) then
      let features := set_bit features (bit v7) true in
      implies features (bit aclass)
              [bit neon; bit vfp3; bit vfp4; bit hwdiv_arm; bit hwdiv; bit d32]
    else features in
  generic_enable_depends features deps.

Definition disable_depends (features : FeatureList) : option FeatureList :=
  generic_disable_depends features deps.

End closures.

(** The FPCR operations.  [St] is whatever state the machine has; each
    operation returns its result and the state it leaves. *)
Section fpcr.
Context {St : Type}.

Definition jl_get_zero_subnormals (s : St) : Z * St := (0, s).

Definition jl_set_zero_subnormals (isZero : Z) (s : St) : Z * St := (isZero, s).

Definition jl_get_default_nans (s : St) : Z * St := (0, s).

Definition jl_set_default_nans (isDefault : Z) (s : St) : Z * St :=
  (isDefault, s).

End fpcr.
End AArch32.

(** ** Image initialization *)

(** The outcome of a call that may end in [jl_error]. *)
Inductive result (A : Type) : Type :=
  | Returns (a : A)
  | jl_error (msg : string).
Arguments Returns {A} a.
Arguments jl_error {A} msg.

Inductive init_cb : Set := sysimg_init_cb | pkgimg_init_cb.

Section init.
Context {jl_image_buf_t jl_image_t : Type}.

(** The image reader: it runs the callback it is given, which may publish
    the JIT target, and returns the image. *)
Context (parse_sysimg : jl_image_buf_t -> init_cb -> option string ->
                        list TargetData -> jl_image_t * list TargetData).

Definition jl_init_processor_sysimg (image : jl_image_buf_t)
    (cpu_target : string) (jit_targets : list TargetData)
  : result (jl_image_t * list TargetData) :=
  if negb (bool_decide (jit_targets = []))
  then jl_error "JIT targets already initialized"
  else Returns (parse_sysimg image sysimg_init_cb (Some cpu_target) jit_targets).

Definition jl_init_processor_pkgimg (image : jl_image_buf_t)
    (jit_targets : list TargetData)
  : result (jl_image_t * list TargetData) :=
  if bool_decide (jit_targets = [])
  then jl_error "JIT targets not initialized"
  else if bool_decide (1 < length jit_targets)%nat
  then jl_error "Expected only one JIT target"
  else Returns (parse_sysimg image pkgimg_init_cb None jit_targets).

End init.

(** ** Host discovery on Linux and FreeBSD *)

(** [CPUID::operator<]: by implementer, then part, then variant. *)
Definition CPUID_lt (l right : CPUID) : bool :=
  if implementer l <? implementer right then true
  else if implementer right <? implementer l then false
  else if part l <? part right then true
  else if part right <? part l then false
  else variant l <? variant right.

(** [std::set<CPUID>::insert].  The set is the list of its elements in the
    order an iteration visits them, increasing for [operator<]; an element
    equivalent to one that is there is not inserted. *)
Fixpoint set_insert (x : CPUID) (s : list CPUID) : list CPUID :=
  match s with
  | [] => [x]
  | y :: s' =>
      if CPUID_lt x y then x :: s
      else if CPUID_lt y x then y :: set_insert x s'
      else s
  end.

(** The [CPUID] initializer of [get_cpuinfo_sysfs], on the [uint64_t] read
    from [midr_el1]. *)
Definition cpuid_of_midr (val : Z) : CPUID :=
  mkCPUID (Z.shiftr val 24 mod 2 ^ 8)
          (Z.land (Z.shiftr val 20) 0xf mod 2 ^ 8)
          (Z.land (Z.shiftr val 4) 0xfff mod 2 ^ 16).

(** What [readdir] returns for one entry of /sys/devices/system/cpu, with
    what the entry's regs/identification/midr_el1 gives: [None] for a file
    that cannot be opened or does not hold a hexadecimal number. *)
Record dirent : Set := mk_dirent {
  d_type_is_dir : bool;
  d_name : string;
  midr_el1 : option Z;
}.

(** [get_cpuinfo_sysfs]; [dir] is [None] when [opendir] fails. *)
Definition get_cpuinfo_sysfs (dir : option (list dirent)) (res : list CPUID)
  : list CPUID :=
  match dir with
  | None => res
  | Some entries =>
      fold_left (fun res entry =>
                   if negb (d_type_is_dir entry) then res
                   else if negb (String.prefix "cpu" (d_name entry)) then res
                   else match midr_el1 entry with
                        | None => res
                        | Some val => set_insert (cpuid_of_midr val) res
                        end) entries res
  end.

(** [switch (x) { case k: ...; default: ... }] where every case returns. *)
Definition switch {A : Type} (x : Z) (cases : list (Z * A)) (default : A) : A :=
  match List.find (fun c => c.1 =? x) cases with
  | Some c => c.2
  | None => default
  end.

Definition get_cpu_name (cpuid : CPUID) : CPU.t :=
  switch (implementer cpuid)
    [ (0x41, (* 'A': ARM *)
        switch (part cpuid)
          [ (0xb02, CPU.arm_mpcore); (0xb36, CPU.arm_1136jf_s);
            (0xb56, CPU.arm_1156t2f_s); (0xb76, CPU.arm_1176jzf_s);
            (0xc05, CPU.arm_cortex_a5); (0xc07, CPU.arm_cortex_a7);
            (0xc08, CPU.arm_cortex_a8); (0xc09, CPU.arm_cortex_a9);
            (0xc0d, CPU.arm_cortex_a12); (0xc0f, CPU.arm_cortex_a15);
            (0xc0e, CPU.arm_cortex_a17); (0xc14, CPU.arm_cortex_r4);
            (0xc15, CPU.arm_cortex_r5); (0xc17, CPU.arm_cortex_r7);
            (0xc18, CPU.arm_cortex_r8); (0xc20, CPU.arm_cortex_m0);
            (0xc21, CPU.arm_cortex_m1); (0xc23, CPU.arm_cortex_m3);
            (0xc24, CPU.arm_cortex_m4); (0xc27, CPU.arm_cortex_m7);
            (0xd01, CPU.arm_cortex_a32); (0xd02, CPU.arm_cortex_a34);
            (0xd03, CPU.arm_cortex_a53); (0xd04, CPU.arm_cortex_a35);
            (0xd05, CPU.arm_cortex_a55); (0xd06, CPU.arm_cortex_a65);
            (0xd07, CPU.arm_cortex_a57); (0xd08, CPU.arm_cortex_a72);
            (0xd09, CPU.arm_cortex_a73); (0xd0a, CPU.arm_cortex_a75);
            (0xd0b, CPU.arm_cortex_a76); (0xd0c, CPU.arm_neoverse_n1);
            (0xd0d, CPU.arm_cortex_a77); (0xd0e, CPU.arm_cortex_a76ae);
            (0xd13, CPU.arm_cortex_r52); (0xd20, CPU.arm_cortex_m23);
            (0xd21, CPU.arm_cortex_m33); (0xd40, CPU.arm_neoverse_v1);
            (0xd41, CPU.arm_cortex_a78); (0xd43, CPU.arm_cortex_a65ae);
            (0xd44, CPU.arm_cortex_x1); (0xd49, CPU.arm_neoverse_n2);
            (0xd4a, CPU.arm_neoverse_e1) ]
          CPU.generic);
      (0x42, (* 'B': Broadcom (Cavium) *)
        switch (part cpuid)
          [ (0x516, CPU.cavium_thunderx2t99p1) ]
          CPU.generic);
      (0x43, (* 'C': Cavium *)
        switch (part cpuid)
          [ (0xa0, CPU.cavium_thunderx);
            (0xa1, if variant cpuid =? 0 then CPU.cavium_thunderx88p1
                  else CPU.cavium_thunderx88);
            (0xa2, CPU.cavium_thunderx81); (0xa3, CPU.cavium_thunderx83);
            (0xaf, CPU.cavium_thunderx2t99); (0xb0, CPU.cavium_octeontx2);
            (0xb1, CPU.cavium_octeontx2t98); (0xb2, CPU.cavium_octeontx2t96);
            (0xb3, CPU.cavium_octeontx2f95);
            (0xb4, CPU.cavium_octeontx2f95n);
            (0xb5, CPU.cavium_octeontx2f95mm);
            (0xb8, CPU.marvell_thunderx3t110) ]
          CPU.generic);
      (0x46, (* 'F': Fujitsu *)
        switch (part cpuid)
          [ (0x1, CPU.fujitsu_a64fx) ]
          CPU.generic);
      (0x48, (* 'H': HiSilicon *)
        switch (part cpuid)
          [ (0xd01, CPU.hisilicon_tsv110); (0xd40, CPU.arm_cortex_a76) ]
          CPU.generic);
      (0x4e, (* 'N': NVIDIA *)
        switch (part cpuid)
          [ (0x000, CPU.nvidia_denver1); (0x003, CPU.nvidia_denver2);
            (0x004, CPU.nvidia_carmel) ]
          CPU.generic);
      (0x50, (* 'P': AppliedMicro *)
        switch (part cpuid)
          [ (0x000, CPU.apm_xgene1) ]
          CPU.generic);
      (0x51, (* 'Q': Qualcomm *)
        switch (part cpuid)
          [ (0x00f, CPU.qualcomm_scorpion); (0x02d, CPU.qualcomm_scorpion);
            (0x04d, CPU.qualcomm_krait); (0x06f, CPU.qualcomm_krait);
            (0x201, CPU.qualcomm_kyro); (0x205, CPU.qualcomm_kyro);
            (0x211, CPU.qualcomm_kyro); (0x800, CPU.arm_cortex_a73);
            (0x801, CPU.arm_cortex_a53); (0x802, CPU.arm_cortex_a75);
            (0x803, CPU.arm_cortex_a55); (0x804, CPU.arm_cortex_a76);
            (0x805, CPU.arm_cortex_a55); (0xc00, CPU.qualcomm_falkor);
            (0xc01, CPU.qualcomm_saphira) ]
          CPU.generic);
      (0x53, (* 'S': Samsung *)
        if part cpuid =? 1
        then (if variant cpuid =? 4 then CPU.samsung_exynos_m2
              else CPU.samsung_exynos_m1)
        else if negb (variant cpuid =? 1) then CPU.generic
        else switch (part cpuid)
               [ (0x2, CPU.samsung_exynos_m3); (0x3, CPU.samsung_exynos_m4);
                 (0x4, CPU.samsung_exynos_m5) ]
               CPU.generic);
      (0x56, (* 'V': Marvell *)
        switch (part cpuid)
          [ (0x581, CPU.marvell_pj4); (0x584, CPU.marvell_pj4) ]
          CPU.generic);
      (0x61, (* 'a': Apple *)
        switch (part cpuid)
          [ (0x0, CPU.apple_swift); (0x1, CPU.apple_a7); (0x2, CPU.apple_a8);
            (0x3, CPU.apple_a8); (0x4, CPU.apple_a9); (0x5, CPU.apple_a9);
            (0x6, CPU.apple_a10); (0x7, CPU.apple_a10); (0x8, CPU.apple_a11);
            (0x9, CPU.apple_a11); (0xB, CPU.apple_a12); (0xC, CPU.apple_a12);
            (0x10, CPU.apple_a12); (0x11, CPU.apple_a12);
            (0xF, CPU.apple_s4); (0x12, CPU.apple_a13);
            (0x13, CPU.apple_a13); (0x20, CPU.apple_a14);
            (0x21, CPU.apple_a14); (0x22, CPU.apple_m1);
            (0x23, CPU.apple_m1); (0x24, CPU.apple_m1); (0x25, CPU.apple_m1);
            (0x28, CPU.apple_m1); (0x29, CPU.apple_m1);
            (0x30, CPU.apple_a15); (0x31, CPU.apple_a15);
            (0x32, CPU.apple_m2); (0x33, CPU.apple_m2); (0x34, CPU.apple_m2);
            (0x35, CPU.apple_m2); (0x38, CPU.apple_m2); (0x39, CPU.apple_m2);
            (0x40, CPU.apple_a16); (0x41, CPU.apple_a16);
            (0x42, CPU.apple_m3); (0x43, CPU.apple_m3); (0x44, CPU.apple_m3);
            (0x45, CPU.apple_m3); (0x49, CPU.apple_m3); (0x48, CPU.apple_m3);
            (0x50, CPU.apple_a17); (0x51, CPU.apple_a17);
            (0x52, CPU.apple_m4); (0x53, CPU.apple_m4); (0x54, CPU.apple_m4);
            (0x55, CPU.apple_m4); (0x58, CPU.apple_m4); (0x59, CPU.apple_m4) ]
          CPU.generic);
      (0x68, (* 'h': Huaxintong Semiconductor *)
        switch (part cpuid)
          [ (0x0, CPU.hxt_phecda) ]
          CPU.generic);
      (0x69, (* 'i': Intel *)
        switch (part cpuid)
          [ (0x001, CPU.intel_3735d) ]
          CPU.generic) ]
    CPU.generic.

(** [struct arm_arch { int version; char klass; }] *)
Record arm_arch : Set := mk_arm_arch { version : Z; klass : Ascii.ascii }.

Definition mclass (a : arm_arch) : bool := Ascii.eqb (klass a) "M"%char.

(** The three functions below are those of the AArch64 build. *)
Definition get_elf_arch : arm_arch := mk_arm_arch 8 "A"%char.

Definition feature_arch_version (feature : FeatureList) : arm_arch :=
  mk_arm_arch 8 "A"%char.

Definition generic_for_arch (arch : arm_arch) : CPU.t := CPU.generic.

Section linux_host.
Context `{Header}.

Definition check_cpu_arch_ver (cpu : Z) (arch : arm_arch) : bool :=
  match find_cpu_id cpu with
  | None =>
      (* This happens on AArch64 and indicates that the cpu name isn't a
         valid aarch64 CPU *)
      false
  | Some spec =>
      let feature_arch := feature_arch_version (spec_features spec) in
      if negb (Bool.eqb (mclass arch) (mclass feature_arch)) then false
      else if version feature_arch <? version arch then false
      else true
  end.

(** The variables of the loop over [cpuinfo]: [cpus] is the
    [std::set<uint32_t>] of the names seen, of which the loop only asks
    whether a name is new. *)
Record host_scan : Set := mk_host_scan {
  extra_initialized : bool;
  extra_features : FeatureList;
  scan_cpus : list Z;
  scan_list : list (Z * CPUID);
}.

(** One turn of [for (auto info: cpuinfo)]; [None] is the call
    [find_cpu(name)->features] on a name the catalog does not have. *)
Definition scan_step (arch : arm_arch) (st : host_scan) (info : CPUID)
  : option host_scan :=
  let name := CPU.id (get_cpu_name info) in
  if name =? 0 then
    (* no need to clear the feature set if it wasn't initialized *)
    Some (mk_host_scan true
            (if extra_initialized st then FL_zero else extra_features st)
            (scan_cpus st) (scan_list st))
  else if negb (check_cpu_arch_ver name arch) then Some st
  else if bool_decide (name ∈ scan_cpus st) then Some st
  else
    spec ← find_cpu_id name;
    Some (mk_host_scan true
            (if extra_initialized st
             then FL_and (extra_features st) (spec_features spec)
             else spec_features spec)
            (name :: scan_cpus st)
            (scan_list st ++ [(name, info)])).

Fixpoint scan_cpuinfo (arch : arm_arch) (cpuinfo : list CPUID) (st : host_scan)
  : option host_scan :=
  match cpuinfo with
  | [] => Some st
  | info :: cpuinfo => st ← scan_step arch st info; scan_cpuinfo arch cpuinfo st
  end.

End linux_host.

Module Linux.
Section host.
Context `{Header}.

(** [_get_host_cpu] of the AArch64 build that is not Darwin's, on what
    [jl_getauxval(AT_HWCAP)], [jl_getauxval(AT_HWCAP2)] and [get_cpuinfo()]
    return. *)
Definition _get_host_cpu (hwcap hwcap2 : Z) (cpuinfo : list CPUID)
  : option (Z * FeatureList) :=
  let features := FL_zero in
  let features := set_word features 0 (hwcap mod 2 ^ 32) in
  let features := set_word features 1 (hwcap2 mod 2 ^ 32) in
  let features :=
    if test_nbit features 31 (* HWCAP_PACG *)
    then set_bit features (bit pauth) true else features in
  let arch := get_elf_arch in
  st ← scan_cpuinfo arch cpuinfo (mk_host_scan false FL_zero [] []);
  let features := FL_or features (extra_features st) in
  let lst := shrink_big_little (scan_list st) v8order in
  let cpu :=
    match lst with
    | [] => CPU.id (generic_for_arch arch)
    | ele :: _ => ele.1
    end in
  (* Ignore feature bits that we are not interested in. *)
  let features := mask_features feature_masks features in
  Some (cpu, features).

End host.
End Linux.

(** ** Vector width *)

Section vector_size.
Context `{Header}.

Definition max_vector_size (features : FeatureList) : Z :=
  if test_nbit features (bit sve2) then 256
  else if test_nbit features (bit sve) then 128
  else 16.

End vector_size.

(** ** The FPCR of the AArch64 build

    The state is the register: [get_fpcr_aarch64] reads it, and
    [set_fpcr_aarch64] leaves in it the value it is given. *)

(** [~x] on a [uint64_t]. *)
Definition not64 (x : Z) : Z := Z.land (Z.lnot x) (2 ^ 64 - 1).

(** FPCR FZ, bit [24] *)
Definition fpcr_fz_mask : Z := Z.shiftl 1 24.
(** FPCR FZ16, bit [19] *)
Definition fpcr_fz16_mask : Z := Z.shiftl 1 19.
(** FPCR DN, bit [25] *)
Definition fpcr_dn_mask : Z := Z.shiftl 1 25.

Definition get_fpcr_aarch64 (fpcr : Z) : Z * Z := (fpcr, fpcr).

Definition set_fpcr_aarch64 (v : Z) (fpcr : Z) : unit * Z := (tt, v).

Section fpcr.
Context `{Header} `{Host}.

(** Modelled from the spec: [JL_AArch64_fullfp16] is an enumerator of
    processor.h, which is not among the sources; "setting FZ also sets FZ16
    (bit 19) iff fullfp16 is a host feature", so it is the bit of
    [Feature::fullfp16]. *)
Definition JL_AArch64_fullfp16 : Z := bit fullfp16.

Definition jl_get_zero_subnormals (fpcr : Z) : Z * Z :=
  let '(v, fpcr) := get_fpcr_aarch64 fpcr in
  (if negb (Z.land v fpcr_fz_mask =? 0) then 1 else 0, fpcr).

(** [mask] is a [static] of the function: it is computed by the first call
    and is the same in every call, the host features being fixed. *)
Definition jl_set_zero_subnormals (isZero : Z) (fpcr : Z) : option (Z * Z) :=
  let '(v, fpcr) := get_fpcr_aarch64 fpcr in
  t ← jl_test_cpu_feature JL_AArch64_fullfp16;
  let mask :=
    Z.lor fpcr_fz_mask (if negb (t =? 0) then fpcr_fz16_mask else 0) in
  let v := if negb (isZero =? 0) then Z.lor v mask else Z.land v (not64 mask) in
  let '(_, fpcr) := set_fpcr_aarch64 v fpcr in
  Some (0, fpcr).

Definition jl_get_default_nans (fpcr : Z) : Z * Z :=
  let '(v, fpcr) := get_fpcr_aarch64 fpcr in
  (if negb (Z.land v fpcr_dn_mask =? 0) then 1 else 0, fpcr).

Definition jl_set_default_nans (isDefault : Z) (fpcr : Z) : Z * Z :=
  let '(v, fpcr) := get_fpcr_aarch64 fpcr in
  let v :=
    if negb (isDefault =? 0) then Z.lor v fpcr_dn_mask
    else Z.land v (not64 fpcr_dn_mask) in
  let '(_, fpcr) := set_fpcr_aarch64 v fpcr in
  (0, fpcr).

End fpcr.

(** ** The command line *)

(** [if (auto nname = normalize_cpu_name(t.name)) t.name = nname;] *)
Definition normalize_target (t : TargetData) : TargetData :=
  match normalize_cpu_name (name t) with
  | Some nname => mkTargetData nname (ext_features t) (en t) (dis t) (base t)
  | None => t
  end.

Section cmdline.
Context `{Header}.

(** [find_feature_bit] and the generic [get_cmdline_targets] of
    processor.cpp are not among the sources: the file's own code is taken
    for any two such functions. *)
Variable find_feature_bit : list FeatureName -> string -> Z.
Variable generic_get_cmdline_targets :
  string -> (string -> FeatureList -> bool * FeatureList) -> list TargetData.

(** The lambda [feature_cb]: what it returns and what it leaves in [list]. *)
Definition feature_cb (str : string) (lst : FeatureList) : bool * FeatureList :=
  (* On AArch64, treat `crypto` as an alias of aes + sha2 just like LLVM *)
  if String.eqb str "crypto"
  then (true, set_bit (set_bit lst (bit aes) true) (bit sha2) true)
  else
    let fbit := find_feature_bit feature_names str in
    if fbit =? UINT32_MAX then (false, lst)
    else (true, set_bit lst fbit true).

Definition get_cmdline_targets (cpu_target : string) : list TargetData :=
  let targets := generic_get_cmdline_targets cpu_target feature_cb in
  normalize_target <$> targets.

End cmdline.

(** ** The image callback, the JIT target and the image targets *)

(** [match_sysimg_targets] returns a [struct { best_idx, vreg_size }]. *)
Record sysimg_match : Set := mk_sysimg_match { best_idx : Z; vreg_size : Z }.

(** [jl_target_spec_t], with [Data] for the bytes [serialize_target_data]
    makes. *)
Record jl_target_spec_t (Data : Type) : Type := mk_jl_target_spec_t {
  cpu_name : string;
  cpu_features : string;
  data : Data;
  spec_flags : Z;
  spec_base : Z;
}.
Arguments mk_jl_target_spec_t {Data} _ _ _ _ _.
Arguments cpu_name {Data} _.
Arguments cpu_features {Data} _.
Arguments data {Data} _.
Arguments spec_flags {Data} _.
Arguments spec_base {Data} _.

Section image_targets.
Context `{Header} `{Processor} `{Host}.
Context {Id Data : Type}.

(** What the file calls and processor.cpp defines: the reader of the
    targets an image carries, the matcher, the vector overload of
    [append_ext_features], the serializer, and the flag the matcher's
    answer is compared with. *)
Variable deserialize_target_data : Id -> list TargetData.
Variable match_sysimg_targets :
  list TargetData -> TargetData -> (FeatureList -> Z) -> sysimg_match.
Variable append_ext_features_vec : list string -> string -> list string.
Variable serialize_target_data :
  string -> FeatureList -> FeatureList -> string -> Data.
Variable JL_TARGET_VEC_CALL : Z.

(** The callback [sysimg_init_cb] on the command line targets [cmdline] and the image's
    [id]: the index it returns and the new value of [jit_targets].  [None]
    is a read outside [cmdline] or [sysimg]. *)
Definition run_sysimg_init_cb (cmdline : list TargetData) (id : Id)
    (jit_targets : list TargetData) : option (Z * list TargetData) :=
  (* First see what target is requested for the JIT. *)
  arg ← cmdline !! O;
  target ← arg_target_data arg true;
  (* Then find the best match in the sysimg *)
  let sysimg := normalize_target <$> deserialize_target_data id in
  let mtch := match_sysimg_targets sysimg target max_vector_size in
  if best_idx mtch =? UINT32_MAX then Some (best_idx mtch, jit_targets)
  else
    (* Now we've decided on which sysimg version to use.
       Make sure the JIT target is compatible with it and save the JIT
       target. *)
    _ ← (if negb (vreg_size mtch =? max_vector_size (features (en target)))
         then
           t ← sysimg !! Z.to_nat (best_idx mtch);
           Some (negb (Z.land (flags (en t)) JL_TARGET_VEC_CALL =? 0))
         else Some false);
    Some (best_idx mtch, jit_targets ++ [target]).



(** There isn't currently any conflicting features on AArch64 *)
Definition get_max_feature : FeatureList := feature_masks.

Definition jl_get_llvm_disasm_target : option (string * string) :=
  let max_feature := get_max_feature in
  get_llvm_target_str
    (mkTargetData host_cpu_name
       "+ecv,+tme,+am,+specrestrict,+predres,+lor,+perfmon,+spe,+tracev8.4"
       (mkFeatureData max_feature 0)
       (mkFeatureData (FL_and feature_masks (FL_not max_feature)) 0)
       0).

(** [for (auto &fename: feature_names) if (fename.llvmver >
    JL_LLVM_VERSION) { unset_bits(features_en, fename.bit);
    unset_bits(features_dis, fename.bit); }] *)
Definition unset_new_features (names : list FeatureName)
    (features_en features_dis : FeatureList) : FeatureList * FeatureList :=
  fold_left (fun (st : FeatureList * FeatureList) fename =>
               if JL_LLVM_VERSION <? fe_llvmver fename
               then (unset_bits st.1 (fe_bit fename),
                     unset_bits st.2 (fe_bit fename))
               else st) names (features_en, features_dis).

(** The two feature sets [jl_get_llvm_clone_targets] serializes for a
    target. *)
Definition serialized_features (target : TargetData)
  : option (FeatureList * FeatureList) :=
  let '(features_en, features_dis) :=
    unset_new_features feature_names (features (en target))
                       (features (dis target)) in
  features_en ← disable_depends features_en;
  Some (features_en, features_dis).

(** The body of the last loop of [jl_get_llvm_clone_targets]. *)
Definition clone_target_spec (target : TargetData)
  : option (jl_target_spec_t Data) :=
  fs ← serialized_features target;
  str ← get_llvm_target_str target;
  Some (mk_jl_target_spec_t str.1 str.2
          (serialize_target_data (name target) fs.1 fs.2 (ext_features target))
          (flags (en target)) (base target)).

(** [jl_get_llvm_clone_targets] on the command line targets.  The loop
    that resolves the targets and the loop that decides the clone
    condition are, line for line, those of [ensure_jit_target], on a vector
    of the function's own. *)
Definition jl_get_llvm_clone_targets (cmdline : list TargetData)
  : option (result (list (jl_target_spec_t Data))) :=
  if negb (check_cmdline cmdline true) then None
  else
    image_targets ← resolve_all cmdline [];
    let ntargets := length image_targets in
    if bool_decide (image_targets = [])
    then Some (jl_error "No targets specified")
    else
      image_targets ← clone_loop image_targets 1 (ntargets - 1);
      res ← mapM clone_target_spec image_targets;
      Some (Returns res).

End image_targets.

(** ** The AArch32 build: architecture, vector width and FMA *)

Module AArch32Host.

(** What the compiler defines for the build: [__ARM_ARCH], and
    [__ARM_ARCH_PROFILE] when it is defined. *)
Class Build : Type := {
  __ARM_ARCH : Z;
  __ARM_ARCH_PROFILE : option Ascii.ascii;
}.

Section arch.
Context `{AArch32.Header} `{Build}.
Import AArch32.

(** [get_elf_arch]; [machine] is [name.machine], [None] when [uname]
    fails. *)
Definition get_elf_arch (machine : option string) : arm_arch :=
  let '(ver, profile) :=
    match machine with
    | Some machine =>
        (* name.machine is the elf_platform in the kernel. *)
        if String.eqb machine "armv6l" then (6, Ascii.zero)
        else if String.eqb machine "armv7l" then (7, Ascii.zero)
        else if String.eqb machine "armv7ml" then (7, "M"%char)
        else if String.eqb machine "armv8l" || String.eqb machine "aarch64"
        then (8, Ascii.zero)
        else (0, Ascii.zero)
    | None => (0, Ascii.zero)
    end in
  let ver := if ver <? __ARM_ARCH then __ARM_ARCH else ver in
  let profile :=
    match __ARM_ARCH_PROFILE with
    | Some p => if 6 <? __ARM_ARCH then p else profile
    | None => profile
    end in
  mk_arm_arch ver profile.

Definition feature_arch_version (feature : FeatureList) : arm_arch :=
  let go (ver : Z) : arm_arch :=
    if test_nbit feature (bit mclass) then mk_arm_arch ver "M"
    else if test_nbit feature (bit rclass) then mk_arm_arch ver "R"
    else if test_nbit feature (bit aclass) then mk_arm_arch ver "A"
    else mk_arm_arch ver Ascii.zero in
  if test_nbit feature (bit v8) then go 8
  else if test_nbit feature (bit v7) then go 7
  else mk_arm_arch 6 Ascii.zero.

Definition generic_for_arch (arch : arm_arch) : CPU.t :=
  let klass :=
    match __ARM_ARCH_PROFILE with
    | Some p => p
    | None => klass arch
    end in
  if 8 <=? version arch then
    if Ascii.eqb klass "M" then CPU.armv8_m_base
    else if Ascii.eqb klass "R" then CPU.armv8_r
    else CPU.armv8_a
  else if version arch =? 7 then
    if Ascii.eqb klass "M" then CPU.armv7_m
    else if Ascii.eqb klass "R" then CPU.armv7_r
    else CPU.armv7_a
  else CPU.generic.

(** The block of [_get_host_cpu] that records the architecture in the
    feature vector. *)
Definition host_arch_features (features : FeatureList) (arch : arm_arch)
  : FeatureList :=
  let features :=
    if 7 <=? version arch then
      if Ascii.eqb (klass arch) "M" then set_bit features (bit mclass) true
      else if Ascii.eqb (klass arch) "R" then set_bit features (bit rclass) true
      else if Ascii.eqb (klass arch) "A" then set_bit features (bit aclass) true
      else features
    else features in
  if version arch =? 8
  then set_bit (set_bit features (bit v8) true) (bit v7) true
  else if version arch =? 7 then set_bit features (bit v7) true
  else features.

Definition max_vector_size (features : FeatureList) : Z :=
  if test_nbit features (bit neon) then 16 else 8.


End arch.
End AArch32Host.

(** ** A sample environment

    Modelled from the spec: features_aarch64.h and processor.h are not
    among the sources, so the concrete runs below need one admissible
    content for them.  Host discovery is to "copy the low 32 bits of each
    [of HWCAP and HWCAP2] into words 0 and 1 of the initial feature
    vector", so a machine feature sits at the bit the kernel reports it at;
    "the third word thus carries nominal-only features", the
    "architectural marker bits" of the version ladder.  Every entry is
    accepted by every backend version.  The clone-directive constants are
    distinct single bits, "fixed by the image ABI". *)

Definition sample_feature_names : list FeatureName :=
  [ mkFeatureName "aes" 3 0;
    mkFeatureName "sha2" 6 0;
    mkFeatureName "crc" 7 0;
    mkFeatureName "lse" 8 0;
    mkFeatureName "fullfp16" 9 0;
    mkFeatureName "rdm" 12 0;
    mkFeatureName "jsconv" 13 0;
    mkFeatureName "complxnum" 14 0;
    mkFeatureName "rcpc" 15 0;
    mkFeatureName "ccpp" 16 0;
    mkFeatureName "sha3" 17 0;
    mkFeatureName "sm4" 19 0;
    mkFeatureName "dotprod" 20 0;
    mkFeatureName "sve" 22 0;
    mkFeatureName "fp16fml" 23 0;
    mkFeatureName "dit" 24 0;
    mkFeatureName "rcpc-immo" 26 0;
    mkFeatureName "flagm" 27 0;
    mkFeatureName "ssbs" 28 0;
    mkFeatureName "sb" 29 0;
    mkFeatureName "pauth" 30 0;
    mkFeatureName "ccdp" (32 + 0) 0;
    mkFeatureName "sve2" (32 + 1) 0;
    mkFeatureName "sve2-aes" (32 + 2) 0;
    mkFeatureName "sve2-bitperm" (32 + 4) 0;
    mkFeatureName "sve2-sha3" (32 + 5) 0;
    mkFeatureName "sve2-sm4" (32 + 6) 0;
    mkFeatureName "altnzcv" (32 + 7) 0;
    mkFeatureName "fptoint" (32 + 8) 0;
    mkFeatureName "f32mm" (32 + 10) 0;
    mkFeatureName "f64mm" (32 + 11) 0;
    mkFeatureName "i8mm" (32 + 13) 0;
    mkFeatureName "bf16" (32 + 14) 0;
    mkFeatureName "rand" (32 + 16) 0;
    mkFeatureName "mte" (32 + 18) 0;
    mkFeatureName "v8.1a" (32 * 2 + 0) 0;
    mkFeatureName "v8.2a" (32 * 2 + 1) 0;
    mkFeatureName "v8.3a" (32 * 2 + 2) 0;
    mkFeatureName "v8.4a" (32 * 2 + 3) 0;
    mkFeatureName "v8.5a" (32 * 2 + 4) 0;
    mkFeatureName "v8.6a" (32 * 2 + 5) 0 ].

Definition sample_bit (f : Feature.id) : Z :=
  match f with
  | aes => 3 | sha2 => 6 | crc => 7 | lse => 8 | fullfp16 => 9 | rdm => 12
  | jsconv => 13 | complxnum => 14 | rcpc => 15 | ccpp => 16 | sha3 => 17
  | sm4 => 19 | dotprod => 20 | sve => 22 | fp16fml => 23 | dit => 24
  | rcpc_immo => 26 | flagm => 27 | ssbs => 28 | sb => 29 | pauth => 30
  | ccdp => 32 + 0 | sve2 => 32 + 1 | sve2_aes => 32 + 2
  | sve2_bitperm => 32 + 4 | sve2_sha3 => 32 + 5 | sve2_sm4 => 32 + 6
  | altnzcv => 32 + 7 | fptoint => 32 + 8 | f32mm => 32 + 10
  | f64mm => 32 + 11 | i8mm => 32 + 13 | bf16 => 32 + 14 | rand => 32 + 16
  | mte => 32 + 18
  | v8_1a => 32 * 2 + 0 | v8_2a => 32 * 2 + 1 | v8_3a => 32 * 2 + 2
  | v8_4a => 32 * 2 + 3 | v8_5a => 32 * 2 + 4 | v8_6a => 32 * 2 + 5
  end.

Definition sample_header : Header :=
  {| bit := sample_bit; feature_names := sample_feature_names |}.

(** Backend version 14, and a command-line check that accepts. *)
Definition sample_processor : Processor :=
  {| JL_LLVM_VERSION := 140000;
     JL_TARGET_CLONE_ALL := 1;
     JL_TARGET_CLONE_LOOP := 4;
     JL_TARGET_UNKNOWN_NAME := 16;
     JL_TARGET_CLONE_CPU := 128;
     JL_TARGET_CLONE_FLOAT16 := 256;
     check_cmdline := fun _ _ => true |}.

(** An Apple M2 under Darwin. *)
Definition m2_host : Host :=
  {| get_host_cpu := @_get_host_cpu sample_header "Apple M2";
     jl_get_cpu_name_llvm := "apple-m2" |}.

(** What the command-line parser gives for a lone CPU name. *)
Definition parsed (cpu : string) : TargetData :=
  mkTargetData cpu "" (mkFeatureData FL_zero 0) (mkFeatureData FL_zero 0) 0.

(** * Vocabulary of the properties

    The predicates and auxiliary functions the statements below are written
    with.  None of them is part of the program. *)

(** ** Feature vectors *)

(** A bit index inside the vector. *)
Definition in_range (b : Z) : Prop := 0 <= b < 96.

(** Every bit of [A] is a bit of [B]: [A & B = A], word by word. *)
Definition FL_subset (A B : FeatureList) : Prop := FL_and A B = A.

(** Every word fits 32 bits, in the form the bit operations use. *)
Definition u32_words (F : FeatureList) : Prop :=
  Z.land (w0 F) UINT32_MAX = w0 F /\ Z.land (w1 F) UINT32_MAX = w1 F /\
  Z.land (w2 F) UINT32_MAX = w2 F.

(** The three words as one 96-bit number, word 0 lowest. *)
Definition flat (F : FeatureList) : Z :=
  Z.lor (w0 F) (Z.lor (Z.shiftl (w1 F) 32) (Z.shiftl (w2 F) 64)).

(** Every word is a [uint32_t]. *)
Definition wf_words (F : FeatureList) : Prop :=
  0 <= w0 F < 2 ^ 32 /\ 0 <= w1 F < 2 ^ 32 /\ 0 <= w2 F < 2 ^ 32.

(** ** Dependency passes *)

(** The edge has its dependent set and its prerequisite clear. *)
Definition fires (F : FeatureList) (d : FeatureDep) : bool :=
  test_nbit F (feature d) && negb (test_nbit F (dep d)).

(** No edge fires: along every edge, a dependent that is set has its
    prerequisite set.  This is the spec's upward-closed, read from the
    dependents, and its downward-closed, read from the prerequisites. *)
Definition settled (deps : list FeatureDep) (F : FeatureList) : Prop :=
  forall d, d ∈ deps -> test_nbit F (feature d) = true -> test_nbit F (dep d) = true.

(** A pass that starts from any vector and flag. *)
Definition pass_from (act : FeatureList -> FeatureDep -> FeatureList)
    (deps : list FeatureDep) (st : FeatureList * bool) : FeatureList * bool :=
  fold_left (fun (st : FeatureList * bool) d =>
               if test_nbit st.1 (feature d) && negb (test_nbit st.1 (dep d))
               then (act st.1 d, true)
               else st) deps st.

(** The number of edges whose prerequisite is still clear, and of those
    whose dependent is still set. *)
Definition missing_prereqs (deps : list FeatureDep) (F : FeatureList) : nat :=
  length (filter (fun d => test_nbit F (dep d) = false) deps).

Definition live_dependents (deps : list FeatureDep) (F : FeatureList) : nat :=
  length (filter (fun d => test_nbit F (feature d) = true) deps).

(** The [set_bit] calls under one [if]. *)
Definition set_all (F : FeatureList) (bs : list Z) : FeatureList :=
  fold_left (fun F b => set_bit F b true) bs F.

(** ** The straight-line part of a closure

    [enable_depends] runs its [if]s once, in their order, before it walks
    the edge list.  An [if] is a rule: the enumerators it tests, which must
    all be set, and the enumerators it then sets.  [I] is the enumeration
    of the build and [bit] the value the header gives each enumerator. *)

Section rules.
Context {I : Type} (bit : I -> Z).

(** [test_nbit] on an enumerator. *)
Definition has (F : FeatureList) (f : I) : bool := test_nbit F (bit f).

(** One rule. *)
Definition apply_rule (F : FeatureList) (r : list I * list I) : FeatureList :=
  if forallb (has F) r.1 then set_all F (bit <$> r.2) else F.

(** The rules run in their order. *)
Definition run_rules (F : FeatureList) (rules : list (list I * list I))
  : FeatureList :=
  fold_left apply_rule rules F.

(** [F] already holds what the rules ask for. *)
Definition closed_rules (rules : list (list I * list I)) (F : FeatureList)
  : Prop :=
  forall r, r ∈ rules -> forallb (has F) r.1 = true ->
  forall b, b ∈ r.2 -> has F b = true.

(** What the rules test, and what they can set. *)
Definition premises (rules : list (list I * list I)) : list I := rules ≫= fst.

Definition conclusions (rules : list (list I * list I)) : list I :=
  rules ≫= snd.

(** No rule sets what a rule that ran before it tests. *)
Fixpoint ordered (rules : list (list I * list I)) : Prop :=
  match rules with
  | [] => True
  | r :: rules => Forall (fun a => a ∉ conclusions rules) r.1 /\ ordered rules
  end.

(** An edge list over enumerators, as the array of [FeatureDep] it is. *)
Definition edges_of (edges : list (I * I)) : list FeatureDep :=
  (fun d => mkFeatureDep (bit d.1) (bit d.2)) <$> edges.

(** The vector holds every feature its own features imply. *)
Definition closed_under (rules : list (list I * list I)) (edges : list (I * I))
    (F : FeatureList) : Prop :=
  closed_rules rules F /\ settled (edges_of edges) F.

End rules.

(** [test_nbit] on an enumerator of the AArch64 build. *)
Abbreviation mem := (has bit).

(** ** Feature sets of the AArch64 build *)

Section feature_sets.
Context `{Header}.

(** The straight-line part of [enable_depends], one rule per [if]. *)
Definition arch_rules : list (list id * list id) :=
  [ ([v8_6a], [v8_5a]); ([v8_5a], [v8_4a]); ([v8_4a], [v8_3a]);
    ([v8_3a], [v8_2a]); ([v8_2a], [v8_1a]); ([v8_1a], [crc]);
    ([v8_1a], [lse; rdm]); ([v8_2a], [ccpp]);
    ([v8_3a], [jsconv; complxnum; rcpc]);
    ([v8_4a], [dit; rcpc_immo; flagm]);
    ([v8_5a], [sb; ccdp; altnzcv; fptoint]);
    ([v8_6a], [i8mm; bf16]) ].

(** The vector holds every feature its own features imply. *)
Definition upward_closed (F : FeatureList) : Prop :=
  closed_rules bit arch_rules F /\ settled deps F.

(** [Feature.apple_m2] as a set. *)
Definition apple_m2_ids : list id :=
  [ crc; v8_1a; lse; rdm; v8_2a; ccpp; v8_3a; jsconv; complxnum; rcpc;
    v8_4a; dit; rcpc_immo; flagm; v8_5a; sb; ccdp; altnzcv; fptoint;
    aes; sha2; dotprod; fp16fml; fullfp16; sha3; i8mm; bf16 ].

(** What "native" resolves to on an M2. *)
Definition apple_m2_target : TargetData :=
  mkTargetData "apple-m2" ""
    (mkFeatureData Feature.apple_m2 0)
    (mkFeatureData (FL_and feature_masks (FL_not Feature.apple_m2)) 0)
    0.

(** The target enables one of fp16fml and fullfp16 that its base does not. *)
Definition new_fp16 (r0 r : TargetData) : Prop :=
  (test_nbit (features (en r)) (bit fp16fml) = true /\
   test_nbit (features (en r0)) (bit fp16fml) = false) \/
  (test_nbit (features (en r)) (bit fullfp16) = true /\
   test_nbit (features (en r0)) (bit fullfp16) = false).

End feature_sets.

(** ** Feature sets of the AArch32 build *)

Section feature_sets32.
Context `{AArch32.Header}.
Import AArch32.

(** The straight-line part of [AArch32.enable_depends]; the inner [if] of
    the last block tests both [v8] and [aclass]. *)
Definition aarch32_rules : list (list AArch32.id * list AArch32.id) :=
  [ ([v8_6a], [v8_5a]); ([v8_5a], [v8_4a]); ([v8_4a], [v8_3a]);
    ([v8_3a], [v8_2a]); ([v8_2a], [v8_1a]); ([v8_1a], [crc]);
    ([v8_1a], [v8; aclass]); ([v8_m_main], [v8; mclass]);
    ([v8], [v7]);
    ([v8; aclass], [neon; vfp3; vfp4; hwdiv_arm; hwdiv; d32]) ].

End feature_sets32.

(** One admissible content of [features_aarch32.h]: the enumerators
    numbered in the order they are listed in. *)
Definition aarch32_sample_header : AArch32.Header :=
  {| AArch32.bit f :=
       match f with
       | AArch32.v7 => 0 | AArch32.v8 => 1 | AArch32.aclass => 2
       | AArch32.rclass => 3 | AArch32.mclass => 4 | AArch32.hwdiv => 5
       | AArch32.hwdiv_arm => 6 | AArch32.neon => 7 | AArch32.vfp3 => 8
       | AArch32.vfp4 => 9 | AArch32.vfp4sp => 10 | AArch32.d32 => 11
       | AArch32.crc => 12 | AArch32.crypto => 13 | AArch32.v8_1a => 14
       | AArch32.v8_2a => 15 | AArch32.v8_3a => 16 | AArch32.v8_4a => 17
       | AArch32.v8_5a => 18 | AArch32.v8_6a => 19 | AArch32.v8_m_main => 20
       end |}.

(** ** Resolution and clone flags *)

Section resolution.
Context `{Header} `{Processor} `{Host}.

(** The feature sets [arg_target_data] works with: the enable set it
    starts from, and the one it hands to [disable_depends]. *)
Definition cpu_features_of (arg : TargetData) : option FeatureList :=
  if String.eqb (name arg) "native" then Some get_host_cpu.2
  else spec_features <$> find_cpu (name arg).

(** Everything but the flags of the enable set is the same. *)
Definition same_but_flags (r t : TargetData) : Prop :=
  name t = name r /\ ext_features t = ext_features r /\
  features (en t) = features (en r) /\ dis t = dis r /\ base t = base r.

(** The flags target [r] of the resolved list [rs] ends with, once its turn
    in the loop has come. *)
Definition clone_flags_of (rs : list TargetData) (r : TargetData) : Z :=
  if negb (Z.land (flags (en r)) JL_TARGET_CLONE_ALL =? 0) then flags (en r)
  else match rs !! Z.to_nat (base r) with
       | Some r0 =>
           Z.lor (clone_if_new clone_fp16 (features (en r0)) (features (en r))
                    JL_TARGET_CLONE_FLOAT16
                    (Z.lor (flags (en r)) JL_TARGET_CLONE_CPU))
                 JL_TARGET_CLONE_LOOP
       | None => flags (en r)
       end.

(** What holds of the list when the loop is about to run index [k]. *)
Definition clone_inv (rs : list TargetData) (k : nat) (ts : list TargetData) : Prop :=
  length ts = length rs /\
  forall j r, rs !! j = Some r ->
    exists t, ts !! j = Some t /\ same_but_flags r t /\
      flags (en t) = if bool_decide (1 <= j < k)%nat
                     then clone_flags_of rs r else flags (en r).

End resolution.

(** ** Host discovery *)

(** [needle] occurs somewhere in [s]. *)
Definition occurs_in (needle s : string) : Prop :=
  exists pre post, s = pre +:+ needle +:+ post.

(** A Darwin host whose sysctl brand string is [brand]. *)
Definition darwin_host `{Header} (brand llvm_name : string) : Host :=
  {| get_host_cpu := _get_host_cpu brand; jl_get_cpu_name_llvm := llvm_name |}.

(** [i] is the first position of the family order list that holds the CPU
    with id [name]. *)
Definition first_index (cpus : list CPU.t) (name : Z) (i : nat) : Prop :=
  (exists c, cpus !! i = Some c /\ CPU.id c = name) /\
  (forall j c, (j < i)%nat -> cpus !! j = Some c -> CPU.id c <> name).

(** Some entry of the list is the family member of index [m]. *)
Definition present (lst : list (Z * CPUID)) (cpus : list CPU.t) (m : nat) : Prop :=
  exists ele, ele ∈ lst /\ first_index cpus ele.1 m.

(** The entry is a family member of an index below that of another member
    that is present. *)
Definition outranked (lst : list (Z * CPUID)) (cpus : list CPU.t)
    (ele : Z * CPUID) : Prop :=
  exists i m, first_index cpus ele.1 i /\ present lst cpus m /\ (i < m)%nat.

(** The first loop: the greatest index found, or -1. *)
Definition max_index (cpus : list CPU.t) (lst : list (Z * CPUID)) (start : Z) : Z :=
  fold_left (fun maxidx ele =>
               let idx := find_from cpus ele.1 0 in
               if maxidx <? idx then idx else maxidx) lst start.

(** The test of the second loop, for the greatest index [maxidx]. *)
Definition kept (cpus : list CPU.t) (maxidx : Z) (ele : Z * CPUID) : bool :=
  if 0 <=? maxidx
  then bool_decide (~ (find_from cpus ele.1 0 <> -1 /\
                       find_from cpus ele.1 0 < maxidx))
  else true.

(** ** Sample inputs *)

(** A host with crc (bit 7 of word 0) and nothing else. *)
Definition crc_host : Host :=
  {| get_host_cpu := (0, mkFeatureList 128 0 0); jl_get_cpu_name_llvm := "generic" |}.

(** A target whose CPU name is not in the catalog. *)
Definition unknown_target : TargetData :=
  mkTargetData "mystery" ""
    (mkFeatureData (@masks sample_header [sve2; aes]) 0)
    (mkFeatureData (@masks sample_header [sve]) 0) 0.

(** "generic;cortex-a57,+crc,clone_all;apple-m1" as the parser gives it. *)
Definition sample_cmdline : list TargetData :=
  [ parsed "generic";
    mkTargetData "cortex-a57" ""
      (mkFeatureData (@masks sample_header [crc]) 1)
      (mkFeatureData FL_zero 0) 0;
    parsed "apple-m1" ].

(** ** The set of CPUIDs *)

(** The list is increasing for [CPUID::operator<]: what an iteration of a
    [std::set<CPUID>] gives. *)
Fixpoint increasing (s : list CPUID) : Prop :=
  match s with
  | [] => True
  | x :: s => Forall (fun y => CPUID_lt x y = true) s /\ increasing s
  end.

(** The entry is one [get_cpuinfo_sysfs] reads [val] from. *)
Definition read_from (entry : dirent) (val : Z) : Prop :=
  d_type_is_dir entry = true /\ String.prefix "cpu" (d_name entry) = true /\
  midr_el1 entry = Some val.

(** ** Host discovery on Linux *)

(** The CPU id [_get_host_cpu] gives a core. *)
Definition core_name (info : CPUID) : Z := CPU.id (get_cpu_name info).

Section linux_vocabulary.
Context `{Header}.

(** The vector [_get_host_cpu] starts from: the low halves of HWCAP and
    HWCAP2, and [pauth] for HWCAP_PACG. *)
Definition hwcap_features (hwcap hwcap2 : Z) : FeatureList :=
  let features :=
    set_word (set_word FL_zero 0 (hwcap mod 2 ^ 32)) 1 (hwcap2 mod 2 ^ 32) in
  if test_nbit features 31 then set_bit features (bit pauth) true else features.

(** The core is one [get_cpu_name] recognizes and the catalog has. *)
Definition known_core (info : CPUID) : Prop :=
  core_name info <> 0 /\ is_Some (find_cpu_id (core_name info)).

(** What holds of the loop variables once the cores [seen] are done. *)
Definition scan_inv (seen : list CPUID) (st : host_scan) : Prop :=
  (extra_initialized st = true <->
   exists info, info ∈ seen /\ (core_name info = 0 \/ known_core info)) /\
  (extra_initialized st = false -> extra_features st = FL_zero) /\
  (forall b, test_nbit (extra_features st) b = true <->
     extra_initialized st = true /\
     (forall info, info ∈ seen -> core_name info <> 0) /\
     (forall info s, info ∈ seen ->
        find_cpu_id (core_name info) = Some s ->
        test_nbit (spec_features s) b = true)) /\
  (forall n, n ∈ scan_cpus st <->
     exists info, info ∈ seen /\ known_core info /\ core_name info = n) /\
  (forall e, e ∈ scan_list st ->
     e.1 = core_name e.2 /\ e.2 ∈ seen /\ known_core e.2) /\
  (forall info, info ∈ seen -> known_core info ->
     exists e, e ∈ scan_list st /\ e.1 = core_name info).

End linux_vocabulary.

(** ** The backend string *)

Section emitter_vocabulary.
Context `{Header} `{Processor} `{Host}.

(** The entries of the feature table the loop of [get_llvm_target_noext]
    looks at: it skips the ones the backend is too old for and stops at the
    first one of the others whose bit is 64 or more. *)
Fixpoint visited (names : list FeatureName) : list FeatureName :=
  match names with
  | [] => []
  | fename :: names =>
      if JL_LLVM_VERSION <? fe_llvmver fename then visited names
      else if 32 * 2 <=? fe_bit fename then []
      else fename :: visited names
  end.

(** The tokens of the entries that are enabled, and of the entries that
    are not enabled and are disabled. *)
Definition plus_tokens (features : FeatureList) (names : list FeatureName)
  : list string :=
  (fun fename => "+" +:+ fe_name fename) <$>
    List.filter (fun fename => test_nbit features (fe_bit fename)) names.

Definition minus_tokens (features dis_features : FeatureList)
    (names : list FeatureName) : list string :=
  (fun fename => "-" +:+ fe_name fename) <$>
    List.filter (fun fename => negb (test_nbit features (fe_bit fename))
                               && test_nbit dis_features (fe_bit fename))
                names.

(** The target [jl_get_llvm_disasm_target] asks the string of. *)
Definition disasm_target_data : TargetData :=
  mkTargetData host_cpu_name
    "+ecv,+tme,+am,+specrestrict,+predres,+lor,+perfmon,+spe,+tracev8.4"
    (mkFeatureData get_max_feature 0)
    (mkFeatureData (FL_and feature_masks (FL_not get_max_feature)) 0)
    0.

End emitter_vocabulary.

(** ** Sample inputs of the host discovery and of the image callback *)

(** A directory with two Cortex-A53 cores, a Cortex-A73 core, and entries
    that are not cores. *)
Definition sample_sysfs : list dirent :=
  [ mk_dirent true "cpu0" (Some 0x410fd034);
    mk_dirent true "cpufreq" None;
    mk_dirent false "online" None;
    mk_dirent true "cpu1" (Some 0x410fd034);
    mk_dirent true "cpu4" (Some 0x410fd092) ].

(** A reader of images that finds one target, and a matcher that takes the
    first target of an image that has one. *)
Definition sample_deserialize (id : unit) : list TargetData :=
  [parsed "cyclone"].

Definition sample_match (sysimg : list TargetData) (target : TargetData)
    (max_vector_size : FeatureList -> Z) : sysimg_match :=
  mk_sysimg_match (if bool_decide (sysimg = []) then UINT32_MAX else 0) 16.

Definition sample_serialize (name : string) (en dis : FeatureList)
    (ext : string) : string * FeatureList * FeatureList * string :=
  (name, en, dis, ext).


(** The sample header read by a backend of version 10, for which sve2 is
    too new. *)
Definition old_backend_header : Header :=
  {| bit := sample_bit;
     feature_names :=
       (fun n => if String.eqb (fe_name n) "sve2"
                 then mkFeatureName (fe_name n) (fe_bit n) 110000 else n)
         <$> sample_feature_names |}.

Definition old_backend_processor : Processor :=
  {| JL_LLVM_VERSION := 100000;
     JL_TARGET_CLONE_ALL := 1;
     JL_TARGET_CLONE_LOOP := 4;
     JL_TARGET_UNKNOWN_NAME := 16;
     JL_TARGET_CLONE_CPU := 128;
     JL_TARGET_CLONE_FLOAT16 := 256;
     check_cmdline := fun _ _ => true |}.

(** * Properties *)

(** ** Words and bits *)

Lemma shiftl_1_testbit (k n : Z) :
  0 <= k -> Z.testbit (Z.shiftl 1 k) n = bool_decide (n = k).
Proof.
  intros Hk. rewrite Z.shiftl_1_l, Z.pow2_bits_eqb by lia.
  rewrite Z.eqb_sym. case_bool_decide; lia.
Qed.

Lemma land_shiftl_1 (w k : Z) :
  0 <= k -> negb (Z.land w (Z.shiftl 1 k) =? 0) = Z.testbit w k.
Proof.
  intros Hk. destruct (Z.testbit w k) eqn:E.
  - apply negb_true_iff, Z.eqb_neq. intros Hz.
    assert (Z.testbit (Z.land w (Z.shiftl 1 k)) k = true) as Ht.
    { rewrite Z.land_spec, E, shiftl_1_testbit by lia.
      rewrite bool_decide_eq_true_2; done. }
    rewrite Hz, Z.bits_0 in Ht. done.
  - apply negb_false_iff, Z.eqb_eq, Z.bits_inj'. intros n Hn.
    rewrite Z.land_spec, Z.bits_0, shiftl_1_testbit by lia.
    case_bool_decide; subst; rewrite ?E, ?andb_false_r; done.
Qed.

Lemma not32_testbit (x n : Z) :
  0 <= n -> Z.testbit (not32 x) n = negb (Z.testbit x n) && bool_decide (n < 32).
Proof.
  intros Hn. unfold not32, UINT32_MAX.
  rewrite Z.land_spec, Z.lnot_spec by lia.
  change 4294967295 with (Z.ones 32). rewrite Z.testbit_ones_nonneg by lia.
  f_equal. case_bool_decide; lia.
Qed.

Lemma in_range_word (b : Z) : in_range b -> 0 <= b / 32 < 3 /\ 0 <= b mod 32 < 32.
Proof. unfold in_range. intros. split; [|apply Z.mod_pos_bound; lia].
  split; [apply Z.div_pos; lia | apply Z.div_lt_upper_bound; lia]. Qed.

Lemma test_nbit_testbit (F : FeatureList) (b : Z) :
  test_nbit F b = Z.testbit (get_word F (b / 32)) (b mod 32).
Proof.
  unfold test_nbit. cbv zeta. apply land_shiftl_1.
  apply Z.mod_pos_bound. lia.
Qed.

Ltac case_eqb :=
  repeat (match goal with
          | |- context [?a =? ?b] => destruct (Z.eqb_spec a b)
          end; simpl; try done; try lia).

Lemma get_set_word (F : FeatureList) (i j v : Z) :
  0 <= i < 3 ->
  get_word (set_word F i v) j = if bool_decide (j = i) then v else get_word F j.
Proof.
  intros Hi. unfold get_word, set_word.
  case_bool_decide; subst; case_eqb.
Qed.

Lemma set_word_same (F : FeatureList) (i : Z) : set_word F i (get_word F i) = F.
Proof.
  unfold set_word, get_word. destruct F. case_eqb.
Qed.

Lemma bit_split (b c : Z) : b = c <-> b / 32 = c / 32 /\ b mod 32 = c mod 32.
Proof.
  split; [intros ->; done|]. intros [Hd Hm].
  rewrite (Z.div_mod b 32), (Z.div_mod c 32) by lia. lia.
Qed.

Lemma test_nbit_set_bit (F : FeatureList) (b c : Z) :
  in_range b ->
  test_nbit (set_bit F b true) c = bool_decide (c = b) || test_nbit F c.
Proof.
  intros Hb. destruct (in_range_word b Hb) as [Hw Hm].
  rewrite !test_nbit_testbit. unfold set_bit. cbv zeta.
  rewrite get_set_word by done.
  pose proof (Z.mod_pos_bound c 32 ltac:(lia)).
  case_bool_decide as Hd.
  - rewrite Hd, Z.lor_spec, shiftl_1_testbit by lia.
    rewrite orb_comm. f_equal.
    apply bool_decide_ext. rewrite (bit_split c b). tauto.
  - rewrite bool_decide_eq_false_2; [done|]. rewrite bit_split. tauto.
Qed.

Lemma test_nbit_unset_bits (F : FeatureList) (b c : Z) :
  in_range b ->
  test_nbit (unset_bits F b) c = negb (bool_decide (c = b)) && test_nbit F c.
Proof.
  intros Hb. destruct (in_range_word b Hb) as [Hw Hm].
  rewrite !test_nbit_testbit. unfold unset_bits. cbv zeta.
  rewrite get_set_word by done.
  pose proof (Z.mod_pos_bound c 32 ltac:(lia)).
  case_bool_decide as Hd.
  - rewrite Hd, Z.land_spec, not32_testbit, shiftl_1_testbit by lia.
    rewrite (bool_decide_eq_true_2 (c mod 32 < 32)) by lia.
    rewrite andb_true_r, andb_comm. f_equal. f_equal.
    apply bool_decide_ext. rewrite (bit_split c b). tauto.
  - rewrite bool_decide_eq_false_2; [done|]. rewrite bit_split. tauto.
Qed.

Lemma set_bit_set (F : FeatureList) (b : Z) :
  test_nbit F b = true -> set_bit F b true = F.
Proof.
  rewrite test_nbit_testbit. intros Ht. unfold set_bit. cbv zeta.
  pose proof (Z.mod_pos_bound b 32 ltac:(lia)).
  replace (Z.lor _ _) with (get_word F (b / 32)); [apply set_word_same|].
  apply Z.bits_inj'. intros n Hn.
  rewrite Z.lor_spec, shiftl_1_testbit by lia.
  case_bool_decide; subst; rewrite ?Ht, ?orb_false_r; done.
Qed.

(** ** Inclusion of feature vectors *)

Lemma FL_subset_words (A B : FeatureList) :
  FL_subset A B <->
  Z.land (w0 A) (w0 B) = w0 A /\ Z.land (w1 A) (w1 B) = w1 A /\
  Z.land (w2 A) (w2 B) = w2 A.
Proof.
  unfold FL_subset, FL_and. destruct A, B; simpl. split.
  - intros [= H0 H1 H2]. done.
  - intros (H0 & H1 & H2). f_equal; done.
Qed.

Lemma FL_subset_refl (A : FeatureList) : FL_subset A A.
Proof. apply FL_subset_words. rewrite !Z.land_diag. done. Qed.

Lemma land_trans (a b c : Z) :
  Z.land a b = a -> Z.land b c = b -> Z.land a c = a.
Proof.
  intros Hab Hbc. rewrite <- Hab, <- Z.land_assoc, Hbc. done.
Qed.

Lemma FL_subset_trans (A B C : FeatureList) :
  FL_subset A B -> FL_subset B C -> FL_subset A C.
Proof.
  rewrite !FL_subset_words. intros (?&?&?) (?&?&?).
  repeat split; eapply land_trans; eauto.
Qed.

Lemma land_lor_absorb (a m : Z) : Z.land a (Z.lor a m) = a.
Proof.
  apply Z.bits_inj'. intros n _. rewrite Z.land_spec, Z.lor_spec.
  destruct (Z.testbit a n); done.
Qed.

Lemma land_land_absorb (a m : Z) : Z.land (Z.land a m) a = Z.land a m.
Proof.
  apply Z.bits_inj'. intros n _. rewrite !Z.land_spec.
  destruct (Z.testbit a n), (Z.testbit m n); done.
Qed.

Lemma FL_subset_set_word_lor (F : FeatureList) (i m : Z) :
  FL_subset F (set_word F i (Z.lor (get_word F i) m)).
Proof.
  apply FL_subset_words. unfold set_word, get_word.
  case_eqb; rewrite ?land_lor_absorb, ?Z.land_diag; done.
Qed.

Lemma FL_subset_set_word_land (F : FeatureList) (i m : Z) :
  FL_subset (set_word F i (Z.land (get_word F i) m)) F.
Proof.
  apply FL_subset_words. unfold set_word, get_word.
  case_eqb; rewrite ?land_land_absorb, ?Z.land_diag; done.
Qed.

Lemma FL_subset_set_bit (F : FeatureList) (b : Z) :
  FL_subset F (set_bit F b true).
Proof. apply FL_subset_set_word_lor. Qed.

Lemma FL_subset_unset_bits (F : FeatureList) (b : Z) :
  FL_subset (unset_bits F b) F.
Proof. apply FL_subset_set_word_land. Qed.

Lemma get_word_land (A B : FeatureList) (i : Z) :
  get_word (FL_and A B) i = Z.land (get_word A i) (get_word B i).
Proof. unfold get_word, FL_and. case_eqb. Qed.

Lemma get_word_lor (A B : FeatureList) (i : Z) :
  get_word (FL_or A B) i = Z.lor (get_word A i) (get_word B i).
Proof. unfold get_word, FL_or. case_eqb. Qed.

Lemma test_nbit_and (A B : FeatureList) (c : Z) :
  test_nbit (FL_and A B) c = test_nbit A c && test_nbit B c.
Proof. rewrite !test_nbit_testbit, get_word_land, Z.land_spec. done. Qed.

Lemma test_nbit_or (A B : FeatureList) (c : Z) :
  test_nbit (FL_or A B) c = test_nbit A c || test_nbit B c.
Proof. rewrite !test_nbit_testbit, get_word_lor, Z.lor_spec. done. Qed.

Lemma test_nbit_zero (c : Z) : test_nbit FL_zero c = false.
Proof.
  rewrite test_nbit_testbit. unfold get_word, FL_zero.
  case_eqb; apply Z.bits_0.
Qed.

Lemma FL_subset_test (A B : FeatureList) (c : Z) :
  FL_subset A B -> test_nbit A c = true -> test_nbit B c = true.
Proof.
  intros Hs Ht. rewrite <- Hs, test_nbit_and in Ht.
  apply andb_true_iff in Ht. tauto.
Qed.

(** ** The dependency passes *)

Section passes.
Context (act : FeatureList -> FeatureDep -> FeatureList).
Context (m : FeatureList -> nat).

Lemma pass_from_settled (deps : list FeatureDep) (st : FeatureList * bool) :
  settled deps st.1 -> pass_from act deps st = st.
Proof.
  induction deps as [|d deps IH]; intros Hs; [done|]. simpl.
  destruct (test_nbit st.1 (feature d)) eqn:Ef; simpl.
  - rewrite (Hs d) by (done || constructor). simpl.
    apply IH. intros e He. apply Hs. by constructor.
  - apply IH. intros e He. apply Hs. by constructor.
Qed.

Lemma pass_from_flag (deps : list FeatureDep) (st : FeatureList * bool) :
  st.2 = true -> (pass_from act deps st).2 = true.
Proof.
  revert st. induction deps as [|d deps IH]; intros st Hc; [done|]. simpl.
  destruct (_ && _); apply IH; done.
Qed.

Lemma pass_from_unchanged (deps : list FeatureDep) (st : FeatureList * bool) :
  (pass_from act deps st).2 = false -> pass_from act deps st = st /\ settled deps st.1.
Proof.
  revert st. induction deps as [|d deps IH]; intros st Hc.
  - split; [done|]. intros d Hd. by apply elem_of_nil in Hd.
  - simpl in *.
    destruct (test_nbit st.1 (feature d) && negb (test_nbit st.1 (dep d))) eqn:Ef.
    + rewrite pass_from_flag in Hc; done.
    + destruct (IH _ Hc) as [Heq Hs]. split; [done|].
      intros e [->|He]%elem_of_cons Ht; [|by apply Hs].
      rewrite Ht in Ef. simpl in Ef. by apply negb_false_iff in Ef.
Qed.

Lemma pass_from_measure (deps : list FeatureDep) (st : FeatureList * bool) :
  (forall F d, d ∈ deps -> fires F d = true -> (m (act F d) < m F)%nat) ->
  (m (pass_from act deps st).1 <= m st.1)%nat /\
  (st.2 = false -> (pass_from act deps st).2 = true ->
   (m (pass_from act deps st).1 < m st.1)%nat).
Proof.
  revert st. induction deps as [|d deps IH]; intros st Hact.
  - simpl. split; [lia|]. intros -> ?. done.
  - simpl. assert (forall F e, e ∈ deps -> fires F e = true ->
                     (m (act F e) < m F)%nat) as Hact'.
    { intros F e He. apply Hact. by constructor. }
    destruct (test_nbit st.1 (feature d) && negb (test_nbit st.1 (dep d))) eqn:Ef.
    + pose proof (Hact st.1 d ltac:(constructor) Ef) as Hlt.
      destruct (IH (act st.1 d, true) Hact') as [Hle _]. simpl in Hle.
      split; [lia|]. intros _ _. lia.
    + apply IH. done.
Qed.

Lemma pass_from_inv (P : FeatureList -> Prop) (deps : list FeatureDep)
    (st : FeatureList * bool) :
  (forall F d, d ∈ deps -> fires F d = true -> P F -> P (act F d)) ->
  P st.1 -> P (pass_from act deps st).1.
Proof.
  revert st. induction deps as [|d deps IH]; intros st Hact HP; [done|].
  simpl. assert (forall F e, e ∈ deps -> fires F e = true -> P F -> P (act F e)) as Hact'.
  { intros F e He. apply Hact. by constructor. }
  destruct (test_nbit st.1 (feature d) && negb (test_nbit st.1 (dep d))) eqn:Ef.
  - apply IH; [done|]. simpl. apply Hact; [constructor|done..].
  - by apply IH.
Qed.

Lemma dep_pass_unfold (deps : list FeatureDep) (F : FeatureList) :
  dep_pass act deps F = pass_from act deps (F, false).
Proof. done. Qed.

Lemma closure_loop_terminates (deps : list FeatureDep) (fuel : nat) (F : FeatureList) :
  (forall F d, d ∈ deps -> fires F d = true -> (m (act F d) < m F)%nat) ->
  (m F < fuel)%nat ->
  is_Some (closure_loop (dep_pass act deps) fuel F).
Proof.
  intros Hact. revert F. induction fuel as [|fuel IH]; intros F Hm; [lia|].
  simpl. rewrite dep_pass_unfold.
  destruct (pass_from_measure deps (F, false) Hact) as [_ Hlt].
  destruct (pass_from act deps (F, false)).2 eqn:Ec; [|done].
  apply IH. specialize (Hlt eq_refl eq_refl). simpl in Hlt. lia.
Qed.

Lemma closure_loop_settled (deps : list FeatureDep) (fuel : nat) (F G : FeatureList) :
  closure_loop (dep_pass act deps) fuel F = Some G -> settled deps G.
Proof.
  revert F. induction fuel as [|fuel IH]; intros F; [done|]. simpl.
  rewrite dep_pass_unfold.
  destruct (pass_from act deps (F, false)).2 eqn:Ec; [apply IH|].
  intros [= <-]. apply pass_from_unchanged in Ec as [-> Hs]. done.
Qed.

Lemma closure_loop_inv (P : FeatureList -> Prop) (deps : list FeatureDep)
    (fuel : nat) (F G : FeatureList) :
  (forall F d, d ∈ deps -> fires F d = true -> P F -> P (act F d)) ->
  P F -> closure_loop (dep_pass act deps) fuel F = Some G -> P G.
Proof.
  intros Hact. revert F. induction fuel as [|fuel IH]; intros F HP; [done|].
  simpl. rewrite dep_pass_unfold.
  pose proof (pass_from_inv P deps (F, false) Hact HP) as HP'.
  destruct (pass_from act deps (F, false)).2; [by apply IH|].
  by intros [= <-].
Qed.

Lemma closure_loop_fixed (deps : list FeatureDep) (fuel : nat) (F : FeatureList) :
  settled deps F -> closure_loop (dep_pass act deps) (S fuel) F = Some F.
Proof.
  intros Hs. simpl. rewrite dep_pass_unfold, pass_from_settled by done. done.
Qed.

End passes.

Lemma filter_length_mono {A} (P Q : A -> Prop) `{!forall x, Decision (P x)}
    `{!forall x, Decision (Q x)} (l : list A) :
  (forall x, P x -> Q x) ->
  (length (filter P l) <= length (filter Q l))%nat /\
  (forall d, d ∈ l -> Q d -> ~ P d ->
     (length (filter P l) < length (filter Q l))%nat).
Proof.
  intros HPQ. induction l as [|x l [IHle IHlt]].
  - split; [done|]. intros d Hd. by apply elem_of_nil in Hd.
  - rewrite !filter_cons. split.
    + destruct (decide (P x)), (decide (Q x)); simpl; try lia. naive_solver.
    + intros d [->|Hd]%elem_of_cons HQ HnP.
      * destruct (decide (P x)), (decide (Q x)); simpl; try done; lia.
      * specialize (IHlt d Hd HQ HnP).
        destruct (decide (P x)), (decide (Q x)); simpl; try lia. naive_solver.
Qed.

Lemma enable_act_decreases (deps : list FeatureDep) (F : FeatureList) (d : FeatureDep) :
  Forall (fun d => in_range (dep d)) deps ->
  d ∈ deps -> fires F d = true ->
  (missing_prereqs deps (set_bit F (dep d) true) < missing_prereqs deps F)%nat.
Proof.
  intros Hr Hd Hf. rewrite Forall_forall in Hr.
  apply andb_true_iff in Hf as [_ Hf%negb_true_iff].
  eapply filter_length_mono; [|done|done|].
  - intros x. rewrite test_nbit_set_bit by auto.
    intros [_ ?]%orb_false_iff. done.
  - rewrite test_nbit_set_bit by auto.
    rewrite bool_decide_eq_true_2; done.
Qed.

Lemma disable_act_decreases (deps : list FeatureDep) (F : FeatureList) (d : FeatureDep) :
  Forall (fun d => in_range (feature d)) deps ->
  d ∈ deps -> fires F d = true ->
  (live_dependents deps (unset_bits F (feature d)) < live_dependents deps F)%nat.
Proof.
  intros Hr Hd Hf. rewrite Forall_forall in Hr.
  apply andb_true_iff in Hf as [Hf _].
  eapply filter_length_mono; [|done|done|].
  - intros x. rewrite test_nbit_unset_bits by auto.
    intros [_ ?]%andb_true_iff. done.
  - rewrite test_nbit_unset_bits by auto.
    rewrite bool_decide_eq_true_2; done.
Qed.

Lemma generic_enable_depends_total (ds : list FeatureDep) (F : FeatureList) :
  Forall (fun d => in_range (dep d)) ds ->
  is_Some (generic_enable_depends F ds).
Proof.
  intros Hr. unfold generic_enable_depends, enable_pass.
  apply (closure_loop_terminates _ (missing_prereqs ds)).
  - intros. by apply enable_act_decreases.
  - unfold missing_prereqs.
    pose proof (length_filter (fun d => test_nbit F (dep d) = false) ds). lia.
Qed.

Lemma generic_enable_depends_inv (P : FeatureList -> Prop)
    (ds : list FeatureDep) (F G : FeatureList) :
  (forall X d, d ∈ ds -> P X -> P (set_bit X (dep d) true)) ->
  P F -> generic_enable_depends F ds = Some G -> P G.
Proof.
  unfold generic_enable_depends, enable_pass. intros Hact HP.
  apply (closure_loop_inv _ P); [|done]. intros X d Hd _. by apply Hact.
Qed.

Lemma generic_enable_depends_sound (ds : list FeatureDep) (F G : FeatureList) :
  generic_enable_depends F ds = Some G -> FL_subset F G /\ settled ds G.
Proof.
  intros HG. split.
  - revert HG. apply (generic_enable_depends_inv (FL_subset F)).
    + intros X d _ HX. eapply FL_subset_trans; [done|apply FL_subset_set_bit].
    + apply FL_subset_refl.
  - unfold generic_enable_depends, enable_pass in HG.
    eapply closure_loop_settled. exact HG.
Qed.

Lemma generic_enable_depends_fixed (ds : list FeatureDep) (F : FeatureList) :
  settled ds F -> generic_enable_depends F ds = Some F.
Proof. intros Hs. unfold generic_enable_depends. by apply closure_loop_fixed. Qed.

Lemma generic_disable_depends_total (ds : list FeatureDep) (F : FeatureList) :
  Forall (fun d => in_range (feature d)) ds ->
  is_Some (generic_disable_depends F ds).
Proof.
  intros Hr. unfold generic_disable_depends, disable_pass.
  apply (closure_loop_terminates _ (live_dependents ds)).
  - intros. by apply disable_act_decreases.
  - unfold live_dependents.
    pose proof (length_filter (fun d => test_nbit F (feature d) = true) ds). lia.
Qed.

Lemma generic_disable_depends_inv (P : FeatureList -> Prop)
    (ds : list FeatureDep) (F G : FeatureList) :
  (forall X d, d ∈ ds -> P X -> P (unset_bits X (feature d))) ->
  P F -> generic_disable_depends F ds = Some G -> P G.
Proof.
  unfold generic_disable_depends, disable_pass. intros Hact HP.
  apply (closure_loop_inv _ P); [|done]. intros X d Hd _. by apply Hact.
Qed.

Lemma generic_disable_depends_sound (ds : list FeatureDep) (F G : FeatureList) :
  generic_disable_depends F ds = Some G -> FL_subset G F /\ settled ds G.
Proof.
  intros HG. split.
  - revert HG. apply (generic_disable_depends_inv (fun X => FL_subset X F)).
    + intros X d _ HX. eapply FL_subset_trans; [apply FL_subset_unset_bits|done].
    + apply FL_subset_refl.
  - unfold generic_disable_depends, disable_pass in HG.
    eapply closure_loop_settled. exact HG.
Qed.

Lemma generic_disable_depends_fixed (ds : list FeatureDep) (F : FeatureList) :
  settled ds F -> generic_disable_depends F ds = Some F.
Proof. intros Hs. unfold generic_disable_depends. by apply closure_loop_fixed. Qed.

(** ** Rules and edges *)

Lemma set_all_subset (bs : list Z) (F : FeatureList) : FL_subset F (set_all F bs).
Proof.
  revert F. induction bs as [|b bs IH]; intros F; [apply FL_subset_refl|].
  eapply FL_subset_trans; [apply (FL_subset_set_bit F b)|apply IH].
Qed.

Lemma set_all_fixed (bs : list Z) (F : FeatureList) :
  Forall (fun b => test_nbit F b = true) bs -> set_all F bs = F.
Proof.
  induction 1 as [|b bs Hb _ IH]; [done|].
  unfold set_all in *. cbn [fold_left fmap list_fmap]. rewrite set_bit_set by done. done.
Qed.

Lemma implies_subset (F : FeatureList) (a : Z) (bs : list Z) :
  FL_subset F (implies F a bs).
Proof.
  unfold implies. destruct (test_nbit F a); [apply set_all_subset|apply FL_subset_refl].
Qed.

Section rule_facts.
Context {I : Type} `{EqDecision I} (bit : I -> Z).
Hypothesis bit_range : forall f : I, in_range (bit f).
Hypothesis bit_inj : forall a b : I, bit a = bit b -> a = b.

Lemma bit_eq_decide (a b : I) : bool_decide (bit a = bit b) = bool_decide (a = b).
Proof. apply bool_decide_ext. split; [apply bit_inj|by intros ->]. Qed.

Lemma has_set_bit (F : FeatureList) (b f : I) :
  has bit (set_bit F (bit b) true) f = bool_decide (f = b) || has bit F f.
Proof. unfold has. rewrite test_nbit_set_bit, bit_eq_decide by apply bit_range. done. Qed.

Lemma has_unset_bits (F : FeatureList) (b f : I) :
  has bit (unset_bits F (bit b)) f = negb (bool_decide (f = b)) && has bit F f.
Proof. unfold has. rewrite test_nbit_unset_bits, bit_eq_decide by apply bit_range. done. Qed.

Lemma has_set_all (bs : list I) (F : FeatureList) (f : I) :
  has bit (set_all F (bit <$> bs)) f = bool_decide (f ∈ bs) || has bit F f.
Proof.
  revert F. induction bs as [|b bs IH]; intros F.
  - rewrite bool_decide_eq_false_2 by apply not_elem_of_nil. done.
  - unfold set_all in *. cbn [fold_left fmap list_fmap]. rewrite IH, has_set_bit.
    rewrite orb_assoc. f_equal.
    rewrite (bool_decide_ext (f ∈ b :: bs) (f = b \/ f ∈ bs)) by apply elem_of_cons.
    repeat case_bool_decide; simpl; try done; tauto.
Qed.

Lemma apply_rule_single (F : FeatureList) (a : I) (bs : list I) :
  apply_rule bit F ([a], bs) = implies F (bit a) (bit <$> bs).
Proof.
  unfold apply_rule, implies, has, set_all. cbn [forallb fst snd].
  by rewrite andb_true_r.
Qed.

Lemma apply_rule_subset (F : FeatureList) (r : list I * list I) :
  FL_subset F (apply_rule bit F r).
Proof.
  unfold apply_rule. destruct (forallb _ _); [apply set_all_subset|apply FL_subset_refl].
Qed.

Lemma has_apply_rule (F : FeatureList) (r : list I * list I) (f : I) :
  has bit (apply_rule bit F r) f =
  (forallb (has bit F) r.1 && bool_decide (f ∈ r.2)) || has bit F f.
Proof.
  unfold apply_rule. destruct (forallb _ _); [|done]. apply has_set_all.
Qed.

Lemma apply_rule_fixed (F : FeatureList) (r : list I * list I) :
  (forallb (has bit F) r.1 = true -> forall b, b ∈ r.2 -> has bit F b = true) ->
  apply_rule bit F r = F.
Proof.
  intros Hc. unfold apply_rule.
  destruct (forallb _ _) eqn:Ea; [|done].
  apply set_all_fixed. apply Forall_fmap, Forall_forall. intros b Hb.
  by apply Hc.
Qed.

Lemma run_rules_subset (rules : list (list I * list I)) (F : FeatureList) :
  FL_subset F (run_rules bit F rules).
Proof.
  revert F. induction rules as [|r rules IH]; intros F; [apply FL_subset_refl|].
  eapply FL_subset_trans; [apply apply_rule_subset|apply IH].
Qed.

Lemma run_rules_fixed (rules : list (list I * list I)) (F : FeatureList) :
  closed_rules bit rules F -> run_rules bit F rules = F.
Proof.
  induction rules as [|r rules IH]; intros Hc; [done|].
  unfold run_rules in *. cbn [fold_left]. rewrite apply_rule_fixed.
  - apply IH. intros r' Hr'. apply Hc. by constructor.
  - apply Hc. constructor.
Qed.

Lemma run_rules_only_adds (rules : list (list I * list I)) (F : FeatureList)
    (f : I) :
  has bit (run_rules bit F rules) f = true ->
  has bit F f = true \/ f ∈ conclusions rules.
Proof.
  revert F. induction rules as [|r rules IH]; intros F; [by left|].
  unfold run_rules in *. cbn [fold_left]. intros [Hm|Hm]%IH.
  - rewrite has_apply_rule in Hm. apply orb_true_iff in Hm as [Hm|Hm]; [|by left].
    apply andb_true_iff in Hm as [_ Hm%bool_decide_eq_true].
    right. unfold conclusions. simpl. apply elem_of_app. by left.
  - right. unfold conclusions. simpl. apply elem_of_app. by right.
Qed.

Lemma run_rules_closed (rules : list (list I * list I)) (F : FeatureList) :
  ordered rules -> closed_rules bit rules (run_rules bit F rules).
Proof.
  revert F. induction rules as [|r rules IH]; intros F Hord.
  - intros r Hr. by apply elem_of_nil in Hr.
  - destruct Hord as [Hfresh Hord]. unfold run_rules. cbn [fold_left].
    fold (run_rules bit (apply_rule bit F r) rules).
    intros r' [->|Hr']%elem_of_cons; [|by apply IH].
    intros Hm b Hb.
    eapply FL_subset_test; [apply run_rules_subset|].
    fold (has bit (apply_rule bit F r) b). rewrite has_apply_rule.
    assert (forallb (has bit (apply_rule bit F r)) r.1 = true) as Hm'.
    { apply forallb_forall. intros a Ha.
      rewrite forallb_forall in Hm. specialize (Hm a Ha).
      apply run_rules_only_adds in Hm as [Hm|Hm]; [done|].
      rewrite Forall_forall in Hfresh. apply list_elem_of_In in Ha.
      by destruct (Hfresh a Ha). }
    destruct (forallb (has bit F) r.1) eqn:Ea.
    + simpl. by rewrite bool_decide_eq_true_2.
    + unfold apply_rule in Hm'. rewrite Ea in Hm'. by rewrite Hm' in Ea.
Qed.

Lemma edges_in_range (edges : list (I * I)) :
  Forall (fun d => in_range (dep d)) (edges_of bit edges) /\
  Forall (fun d => in_range (feature d)) (edges_of bit edges).
Proof.
  unfold edges_of. split; apply Forall_fmap, Forall_forall; intros d _;
    apply bit_range.
Qed.

Lemma edges_only_add (edges : list (I * I)) (G R : FeatureList) (f : I) :
  generic_enable_depends G (edges_of bit edges) = Some R ->
  has bit R f = true -> has bit G f = true \/ f ∈ edges.*2.
Proof.
  intros HR. revert f. revert HR.
  apply (generic_enable_depends_inv (fun X => forall f, has bit X f = true ->
            has bit G f = true \/ f ∈ edges.*2)); [|by left].
  intros X d Hd HX f.
  apply list_elem_of_fmap in Hd as (p & -> & Hp). cbn [dep].
  rewrite has_set_bit. intros [Hf%bool_decide_eq_true|Hf]%orb_true_iff.
  - right. subst f. apply list_elem_of_fmap. by exists p.
  - by apply HX.
Qed.

(** The closure of a build: its rules, then its edges. *)
Section closure.
Variable rules : list (list I * list I).
Variable edges : list (I * I).
Hypothesis rules_ordered : ordered rules.
Hypothesis premises_not_prereqs : Forall (fun a => a ∉ edges.*2) (premises rules).

Lemma closure_closed (F R : FeatureList) :
  generic_enable_depends (run_rules bit F rules) (edges_of bit edges) = Some R ->
  closed_under bit rules edges R.
Proof.
  generalize (run_rules_closed rules F rules_ordered).
  generalize (run_rules bit F rules). intros G HG HR.
  destruct (generic_enable_depends_sound _ _ _ HR) as [Hsub Hs].
  split; [|done].
  intros r Hr Hm b Hb.
  eapply FL_subset_test; [exact Hsub|]. apply (HG r Hr); [|done].
  apply forallb_forall. intros a Ha.
  rewrite forallb_forall in Hm. specialize (Hm a Ha).
  apply (edges_only_add _ _ _ _ HR) in Hm as [Hm|Hm]; [done|].
  rewrite Forall_forall in premises_not_prereqs.
  destruct (premises_not_prereqs a); [|done].
  unfold premises. apply list_elem_of_bind. exists r.
  split; [by apply list_elem_of_In|done].
Qed.

Lemma closure_fixed (R : FeatureList) :
  closed_under bit rules edges R ->
  generic_enable_depends (run_rules bit R rules) (edges_of bit edges) = Some R.
Proof.
  intros [Hr Hs]. rewrite run_rules_fixed by done.
  by apply generic_enable_depends_fixed.
Qed.

Lemma closure_total (F : FeatureList) :
  exists G, generic_enable_depends (run_rules bit F rules) (edges_of bit edges)
            = Some G /\ FL_subset F G.
Proof.
  pose proof (run_rules_subset rules F) as Hsub. revert Hsub.
  generalize (run_rules bit F rules). intros X Hsub.
  destruct (generic_enable_depends_total (edges_of bit edges) X) as [G HG];
    [apply edges_in_range|].
  destruct (generic_enable_depends_sound _ _ _ HG) as [HXG _].
  exists G. split; [done|]. by eapply FL_subset_trans.
Qed.

End closure.
End rule_facts.

(** ** The closure of the AArch64 build *)

Section arm_closure.
Context `{Header}.
Hypothesis Hok : header_ok.

Lemma bit_in_range (f : id) : in_range (bit f).
Proof. apply Hok. Qed.

Lemma mem_set_bit (F : FeatureList) (b f : id) :
  mem (set_bit F (bit b) true) f = bool_decide (f = b) || mem F f.
Proof. apply has_set_bit; apply Hok. Qed.

Lemma mem_unset_bits (F : FeatureList) (b f : id) :
  mem (unset_bits F (bit b)) f = negb (bool_decide (f = b)) && mem F f.
Proof. apply has_unset_bits; apply Hok. Qed.

Lemma enable_depends_unfold (F : FeatureList) :
  enable_depends F = generic_enable_depends (run_rules bit F arch_rules) deps.
Proof.
  unfold run_rules, arch_rules. cbn [fold_left].
  by rewrite !apply_rule_single.
Qed.

Lemma ordered_arch_rules : ordered arch_rules.
Proof.
  repeat split; repeat constructor; apply (bool_decide_unpack _); by vm_compute.
Qed.

Lemma arch_premises_not_prereqs :
  Forall (fun a => a ∉ deps_ids.*2) (premises arch_rules).
Proof. repeat constructor; apply (bool_decide_unpack _); by vm_compute. Qed.

Lemma deps_in_range :
  Forall (fun d => in_range (dep d)) deps /\
  Forall (fun d => in_range (feature d)) deps.
Proof. apply (edges_in_range bit), Hok. Qed.

Lemma enable_depends_closed (F R : FeatureList) :
  enable_depends F = Some R -> upward_closed R.
Proof.
  rewrite enable_depends_unfold.
  apply (closure_closed bit); try apply Hok;
    [apply ordered_arch_rules|apply arch_premises_not_prereqs].
Qed.

Lemma enable_depends_fixed (R : FeatureList) :
  upward_closed R -> enable_depends R = Some R.
Proof.
  intros HR. rewrite enable_depends_unfold. by apply (closure_fixed bit).
Qed.

Lemma enable_depends_total (F : FeatureList) :
  exists G, enable_depends F = Some G /\ FL_subset F G.
Proof.
  destruct (closure_total bit (proj2 Hok) arch_rules deps_ids F) as (G & HG & Hs).
  exists G. by rewrite enable_depends_unfold.
Qed.

(** C3.  For every feature vector [F], the closure [enable_depends]
    returns, its result contains [F], and running it on its own result
    gives that result back. *)
Theorem enable_depends_superset_idempotent (F : FeatureList) :
  exists G, enable_depends F = Some G /\ FL_subset F G /\
            enable_depends G = Some G.
Proof.
  destruct (enable_depends_total F) as (G & HG & Hsub).
  exists G. repeat split; [done..|].
  apply enable_depends_fixed. by eapply enable_depends_closed.
Qed.

End arm_closure.

(** ** The closure of the AArch32 build *)

Section arm32_closure.
Context `{AArch32.Header}.
Hypothesis Hok : AArch32.header_ok.

(** The last block of the straight-line part: an [if] inside an [if]. *)
Lemma aarch32_nested_if (X : FeatureList) (cs : list AArch32.id) :
  (if test_nbit X (AArch32.bit AArch32.v8)
   then implies (set_bit X (AArch32.bit AArch32.v7) true)
                (AArch32.bit AArch32.aclass) (AArch32.bit <$> cs)
   else X) =
  run_rules AArch32.bit X
    [ ([AArch32.v8], [AArch32.v7]); ([AArch32.v8; AArch32.aclass], cs) ].
Proof.
  unfold run_rules, apply_rule, implies, has, set_all.
  cbn [fold_left forallb fst snd fmap list_fmap]. rewrite !andb_true_r.
  destruct (test_nbit X (AArch32.bit AArch32.v8)) eqn:E8; cbn [andb].
  - by rewrite (FL_subset_test _ _ _ (FL_subset_set_bit X _) E8).
  - by rewrite E8.
Qed.

Lemma aarch32_enable_depends_unfold (F : FeatureList) :
  AArch32.enable_depends F =
  generic_enable_depends (run_rules AArch32.bit F aarch32_rules) AArch32.deps.
Proof.
  unfold AArch32.enable_depends. cbv zeta.
  change [AArch32.bit AArch32.neon; AArch32.bit AArch32.vfp3;
          AArch32.bit AArch32.vfp4; AArch32.bit AArch32.hwdiv_arm;
          AArch32.bit AArch32.hwdiv; AArch32.bit AArch32.d32]
    with (AArch32.bit <$> [AArch32.neon; AArch32.vfp3; AArch32.vfp4;
                           AArch32.hwdiv_arm; AArch32.hwdiv; AArch32.d32]).
  rewrite aarch32_nested_if.
  unfold run_rules, aarch32_rules. cbn [fold_left].
  by rewrite !apply_rule_single.
Qed.

Lemma ordered_aarch32_rules : ordered aarch32_rules.
Proof.
  repeat split; repeat constructor; apply (bool_decide_unpack _); by vm_compute.
Qed.

Lemma aarch32_premises_not_prereqs :
  Forall (fun a => a ∉ AArch32.deps_ids.*2) (premises aarch32_rules).
Proof. repeat constructor; apply (bool_decide_unpack _); by vm_compute. Qed.

(** The property of C3 on the AArch32 build: the closure returns, its
    result contains [F], and it is a fixed point of the closure. *)
Theorem aarch32_enable_depends_superset_idempotent (F : FeatureList) :
  exists G, AArch32.enable_depends F = Some G /\ FL_subset F G /\
            AArch32.enable_depends G = Some G.
Proof.
  destruct Hok as [Hinj Hrange].
  destruct (closure_total AArch32.bit Hrange aarch32_rules AArch32.deps_ids F)
    as (G & HG & Hsub).
  exists G. rewrite !aarch32_enable_depends_unfold.
  repeat split; [done..|].
  apply (closure_fixed AArch32.bit).
  by apply (closure_closed AArch32.bit Hrange Hinj _ _
              ordered_aarch32_rules aarch32_premises_not_prereqs F).
Qed.

(** [AArch32.disable_depends] returns, its result is inside [F], and it is
    a fixed point. *)
Lemma aarch32_disable_depends_subset_idempotent (F : FeatureList) :
  exists G, AArch32.disable_depends F = Some G /\ FL_subset G F /\
            AArch32.disable_depends G = Some G.
Proof.
  unfold AArch32.disable_depends.
  destruct (generic_disable_depends_total AArch32.deps F) as [G HG];
    [apply (edges_in_range AArch32.bit), Hok|].
  destruct (generic_disable_depends_sound _ _ _ HG) as [Hsub Hs].
  exists G. repeat split; [done..|].
  by apply generic_disable_depends_fixed.
Qed.

End arm32_closure.

Lemma aarch32_sample_header_ok : @AArch32.header_ok aarch32_sample_header.
Proof.
  split.
  - intros a b. destruct a, b; (done || discriminate).
  - intros a. destruct a; cbn; lia.
Qed.

(** On the sample header, a v8.2-A vector gains the ladder below it, the
    A profile and what the profile brings. *)
Example aarch32_enable_depends_sample :
  @AArch32.enable_depends aarch32_sample_header
    (get_feature_masks [15]) =
  Some (get_feature_masks [0; 1; 2; 5; 6; 7; 8; 9; 11; 12; 14; 15]).
Proof. by vm_compute. Qed.

(** ** The target resolver *)

Lemma land_not32_disjoint (e d : Z) : Z.land (Z.land e (not32 d)) d = 0.
Proof.
  apply Z.bits_inj'. intros n Hn.
  rewrite !Z.land_spec, not32_testbit, Z.bits_0 by done.
  destruct (Z.testbit d n); simpl; rewrite ?andb_false_r; done.
Qed.

Lemma land_not32_self (m g : Z) : Z.land g (Z.land m (not32 g)) = 0.
Proof.
  apply Z.bits_inj'. intros n Hn.
  rewrite !Z.land_spec, not32_testbit, Z.bits_0 by done.
  destruct (Z.testbit g n); simpl; rewrite ?andb_false_r; done.
Qed.

Lemma FL_and_not_disjoint (E D : FeatureList) :
  FL_and (FL_and E (FL_not D)) D = FL_zero.
Proof. unfold FL_and, FL_not, FL_zero. simpl. rewrite !land_not32_disjoint. done. Qed.

Lemma FL_and_mask_not_self (M G : FeatureList) :
  FL_and G (FL_and M (FL_not G)) = FL_zero.
Proof. unfold FL_and, FL_not, FL_zero. simpl. rewrite !land_not32_self. done. Qed.

Lemma FL_and_l_subset (A B : FeatureList) : FL_subset (FL_and A B) A.
Proof.
  apply FL_subset_words. unfold FL_and. simpl.
  rewrite !land_land_absorb. done.
Qed.

Lemma FL_subset_disjoint (G X D : FeatureList) :
  FL_subset G X -> FL_and X D = FL_zero -> FL_and G D = FL_zero.
Proof.
  intros HG HX. apply FL_subset_words in HG as (H0 & H1 & H2).
  unfold FL_and, FL_zero in *. injection HX as Hx0 Hx1 Hx2.
  rewrite <- H0, <- H1, <- H2, <- !Z.land_assoc, Hx0, Hx1, Hx2, !Z.land_0_r.
  done.
Qed.

Section resolver_facts.
Context `{Header} `{Processor} `{Host}.
Hypothesis Hok : header_ok.

Lemma disable_depends_total (F : FeatureList) :
  exists G, disable_depends F = Some G /\ FL_subset G F /\ settled deps G.
Proof.
  unfold disable_depends.
  destruct (generic_disable_depends_total deps F) as [G HG];
    [apply (deps_in_range Hok)|].
  exists G. split; [done|]. by apply generic_disable_depends_sound.
Qed.

Lemma arg_target_data_inv (arg : TargetData) (require_host : bool) :
  exists E G res,
    arg_target_data arg require_host = Some res /\
    enable_depends (match cpu_features_of arg with
                    | Some cf => FL_or (features (en arg)) cf
                    | None => features (en arg)
                    end) = Some E /\
    disable_depends
      (if require_host
       then FL_and (FL_and E (FL_not (features (dis arg)))) get_host_cpu.2
       else FL_and E (FL_not (features (dis arg)))) = Some G /\
    features (en res) = G /\
    features (dis res) = match cpu_features_of arg with
                         | Some _ => FL_and feature_masks (FL_not G)
                         | None => features (dis arg)
                         end.
Proof.
  pose proof (enable_depends_total Hok) as He.
  pose proof disable_depends_total as Hd.
  unfold arg_target_data, cpu_features_of. revert He Hd.
  generalize (@enable_depends _) (@disable_depends _). intros ed dd He Hd.
  assert (forall (cf : option FeatureList) (nm : string) (fl : Z),
    exists E G res,
      (en_features ← ed (match cf with
                         | Some cf => FL_or (features (en arg)) cf
                         | None => features (en arg)
                         end);
       en_features ← dd (if require_host
                         then FL_and (FL_and en_features (FL_not (features (dis arg))))
                                     get_host_cpu.2
                         else FL_and en_features (FL_not (features (dis arg))));
       Some (mkTargetData nm (ext_features arg)
               (mkFeatureData en_features fl)
               (mkFeatureData
                  match cf with
                  | Some _ => FL_and feature_masks (FL_not en_features)
                  | None => features (dis arg)
                  end (flags (dis arg)))
               (base arg))) = Some res /\
      ed (match cf with
          | Some cf => FL_or (features (en arg)) cf
          | None => features (en arg)
          end) = Some E /\
      dd (if require_host
          then FL_and (FL_and E (FL_not (features (dis arg)))) get_host_cpu.2
          else FL_and E (FL_not (features (dis arg)))) = Some G /\
      features (en res) = G /\
      features (dis res) = match cf with
                           | Some _ => FL_and feature_masks (FL_not G)
                           | None => features (dis arg)
                           end) as Hgen.
  { intros cf nm fl.
    destruct (He (match cf with
                  | Some cf => FL_or (features (en arg)) cf
                  | None => features (en arg)
                  end)) as (E & HE & _).
    destruct (Hd (if require_host
                  then FL_and (FL_and E (FL_not (features (dis arg)))) get_host_cpu.2
                  else FL_and E (FL_not (features (dis arg))))) as (G & HG & _).
    eexists E, G, _. rewrite HE. cbn [mbind option_bind].
    rewrite HG. cbn [mbind option_bind]. repeat split; done. }
  destruct (String.eqb (name arg) "native").
  { apply (Hgen (Some get_host_cpu.2) host_cpu_name (flags (en arg))). }
  destruct (find_cpu (name arg)) as [spec|].
  - apply (Hgen (Some (spec_features spec)) (name arg) (flags (en arg))).
  - apply (Hgen None (name arg)
             (Z.lor (flags (en arg)) JL_TARGET_UNKNOWN_NAME)).
Qed.

(** C4.  For every parsed target, found in the catalog or not, the
    resolver returns, and the enable and disable feature sets of what it
    returns have no bit in common. *)
Theorem arg_target_data_enable_disable_disjoint
    (arg : TargetData) (require_host : bool) :
  exists res, arg_target_data arg require_host = Some res /\
              FL_and (features (en res)) (features (dis res)) = FL_zero.
Proof.
  destruct (arg_target_data_inv arg require_host)
    as (E & G & res & Hres & HE & HG & Hen & Hdis).
  exists res. split; [done|]. rewrite Hen, Hdis.
  destruct (cpu_features_of arg); [apply FL_and_mask_not_self|].
  destruct (disable_depends_total
              (if require_host
               then FL_and (FL_and E (FL_not (features (dis arg)))) get_host_cpu.2
               else FL_and E (FL_not (features (dis arg)))))
    as (G' & HG' & Hsub & _).
  rewrite HG in HG'. injection HG' as <-.
  eapply FL_subset_disjoint; [exact Hsub|].
  destruct require_host; [|apply FL_and_not_disjoint].
  eapply FL_subset_disjoint; [apply FL_and_l_subset|apply FL_and_not_disjoint].
Qed.

(** C1, as the code has it.  When the CPU name is "native" or is found in
    the catalog, the resolver returns, and the disable set of what it
    returns is [feature_masks & ~enable]: the mask of every feature of the
    header, the third word included. *)
Theorem arg_target_data_disable_known
    (arg : TargetData) (require_host : bool) :
  name arg = "native" \/ is_Some (find_cpu (name arg)) ->
  exists res, arg_target_data arg require_host = Some res /\
              features (dis res) =
                FL_and feature_masks (FL_not (features (en res))).
Proof.
  intros Hknown.
  destruct (arg_target_data_inv arg require_host)
    as (E & G & res & Hres & HE & HG & Hen & Hdis).
  exists res. split; [done|]. rewrite Hdis, Hen.
  assert (is_Some (cpu_features_of arg)) as [cf ->]; [|done].
  unfold cpu_features_of. destruct Hknown as [->|[spec ->]]; [by eexists|].
  destruct (String.eqb _ _); by eexists.
Qed.

End resolver_facts.

(** C1 as stated fails: for "generic" under the sample header the disable
    set keeps the version markers of the third word, which the real mask
    drops. *)
Lemma arg_target_data_disable_not_real_mask :
  exists res,
    @arg_target_data sample_header sample_processor m2_host
      (parsed "generic") false = Some res /\
    features (dis res) <>
      FL_and (@real_feature_masks sample_header) (FL_not (features (en res))).
Proof. eexists. split; [by vm_compute|]. by vm_compute. Qed.

(** ** Image initialization *)

Section init_facts.
Context {jl_image_buf_t jl_image_t : Type}.
Context (parse_sysimg : jl_image_buf_t -> init_cb -> option string ->
                        list TargetData -> jl_image_t * list TargetData).

(** C5.  Sysimg initialization on a JIT target list that already has an
    entry ends in an error; pkgimg initialization ends in an error on the
    empty list, and on a list of two entries or more. *)
Theorem init_processor_order_errors
    (image : jl_image_buf_t) (cpu_target : string)
    (t t' : TargetData) (ts : list TargetData) :
  jl_init_processor_sysimg parse_sysimg image cpu_target (t :: ts)
    = jl_error "JIT targets already initialized" /\
  jl_init_processor_pkgimg parse_sysimg image []
    = jl_error "JIT targets not initialized" /\
  jl_init_processor_pkgimg parse_sysimg image (t :: t' :: ts)
    = jl_error "Expected only one JIT target".
Proof.
  unfold jl_init_processor_sysimg, jl_init_processor_pkgimg.
  repeat split.
Qed.

(** With one entry, and only then, pkgimg initialization reaches the
    image reader; with none, sysimg initialization does. *)
Lemma init_processor_reaches_reader
    (image : jl_image_buf_t) (cpu_target : string) (t : TargetData) :
  jl_init_processor_sysimg parse_sysimg image cpu_target []
    = Returns (parse_sysimg image sysimg_init_cb (Some cpu_target) []) /\
  jl_init_processor_pkgimg parse_sysimg image [t]
    = Returns (parse_sysimg image pkgimg_init_cb None [t]).
Proof. done. Qed.

End init_facts.

(** ** The FPCR stubs *)

(** C8, as the code has it.  On AArch32 the four operations leave the
    state as it is; the two getters return 0, and each setter returns its
    argument, so it reports success (0) exactly when asked to switch the
    mode off. *)
Theorem aarch32_fpcr_stubs {St : Type} (s : St) (arg : Z) :
  AArch32.jl_get_zero_subnormals s = (0, s) /\
  AArch32.jl_get_default_nans s = (0, s) /\
  AArch32.jl_set_zero_subnormals arg s = (arg, s) /\
  AArch32.jl_set_default_nans arg s = (arg, s) /\
  ((AArch32.jl_set_zero_subnormals arg s).1 = 0 <-> arg = 0) /\
  ((AArch32.jl_set_default_nans arg s).1 = 0 <-> arg = 0).
Proof. repeat split; done. Qed.

(** C8 as stated fails: asked to switch flush-to-zero (or default NaN) on,
    the setter returns 1, not the success value. *)
Lemma aarch32_set_reports_failure :
  (AArch32.jl_set_zero_subnormals 1 tt).1 <> 0 /\
  (AArch32.jl_set_default_nans 1 tt).1 <> 0.
Proof. split; discriminate. Qed.

(** ** [jl_test_cpu_feature] *)

Lemma testbit_u32_high (w n : Z) : 0 <= w < 2 ^ 32 -> 32 <= n -> Z.testbit w n = false.
Proof.
  intros Hw Hn. destruct (Z.eq_dec w 0) as [->|Hne]; [apply Z.bits_0|].
  apply Z.bits_above_log2; [lia|].
  assert (Z.log2 w < 32); [|lia]. apply Z.log2_lt_pow2; lia.
Qed.

Lemma bit_word_cases (b : Z) :
  0 <= b < 96 ->
  b < 32 /\ b / 32 = 0 /\ b mod 32 = b \/
  32 <= b < 64 /\ b / 32 = 1 /\ b mod 32 = b - 32 \/
  64 <= b /\ b / 32 = 2 /\ b mod 32 = b - 64.
Proof.
  intros Hb. pose proof (Z.div_mod b 32 ltac:(lia)).
  pose proof (Z.mod_pos_bound b 32 ltac:(lia)). lia.
Qed.

Lemma flat_testbit (F : FeatureList) (b : Z) :
  wf_words F -> 0 <= b < 96 ->
  Z.testbit (flat F) b = Z.testbit (get_word F (b / 32)) (b mod 32).
Proof.
  intros (H0 & H1 & H2) Hb. unfold flat.
  rewrite !Z.lor_spec, !Z.shiftl_spec by lia.
  pose proof (bit_word_cases b Hb) as Hcase.
  unfold get_word.
  destruct Hcase as [(? & -> & ->)|[(? & -> & ->)|(? & -> & ->)]]; simpl.
  - rewrite (Z.testbit_neg_r (w1 F)), (Z.testbit_neg_r (w2 F)) by lia.
    rewrite !orb_false_r. done.
  - rewrite (testbit_u32_high (w0 F)) by lia.
    rewrite (Z.testbit_neg_r (w2 F)) by lia. rewrite orb_false_r. done.
  - rewrite (testbit_u32_high (w0 F)), (testbit_u32_high (w1 F)) by lia. done.
Qed.

Section query_facts.
Context `{Host}.

(** C7.  On a host vector of 32-bit words and for every 32-bit argument,
    signed or not, [jl_test_cpu_feature] returns: 0 from 96 on, and below
    96 the bit of that index in the host feature vector. *)
Theorem jl_test_cpu_feature_safe (b : Z) :
  wf_words get_host_cpu.2 ->
  - 2 ^ 31 <= b < 2 ^ 32 ->
  exists r, jl_test_cpu_feature b = Some r /\
            (96 <= b -> r = 0) /\
            (0 <= b < 96 -> r = Z.b2z (Z.testbit (flat get_host_cpu.2) b)).
Proof.
  intros Hwf Hb. unfold jl_test_cpu_feature, feature_sz.
  destruct (Z.leb_spec (32 * 3) (b mod 2 ^ 64)) as [Hge|Hlt].
  - exists 0. split; [done|]. split; [done|]. intros Hsmall.
    rewrite Z.mod_small in Hge by lia. lia.
  - assert (0 <= b < 96) as Hsmall.
    { destruct (Z.le_gt_cases 0 b) as [Hpos|Hneg].
      - rewrite Z.mod_small in Hlt by lia. lia.
      - assert (b mod 2 ^ 64 = b + 2 ^ 64); [|lia].
        symmetry. apply (Z.mod_unique_pos _ _ (-1)); lia. }
    rewrite (Z.mod_small b (2 ^ 32)) by lia.
    unfold test_nbit_ptr, read_u32.
    destruct (in_range_word b Hsmall) as [Hw Hm].
    assert (forall w, negb (Z.land w (Z.shiftl 1 (b mod 32)) =? 0)
                      = Z.testbit w (b mod 32)) as Hbit.
    { intros w. apply land_shiftl_1. lia. }
    rewrite flat_testbit by done. unfold get_word.
    destruct (bit_word_cases b Hsmall) as [(_ & Hq & _)|[(_ & Hq & _)|(_ & Hq & _)]];
      rewrite Hq; cbn [Z.eqb Pos.eqb mbind option_bind]; rewrite Hbit;
      (eexists; split; [done|]; split; [lia|]; intros _;
       by destruct (Z.testbit _ _)).
Qed.

End query_facts.

Lemma jl_test_cpu_feature_safe_witness :
  exists r, @jl_test_cpu_feature crc_host 7 = Some r /\
            (96 <= 7 -> r = 0) /\
            (0 <= 7 < 96 ->
             r = Z.b2z (Z.testbit (flat (@get_host_cpu crc_host).2) 7)).
Proof.
  apply (@jl_test_cpu_feature_safe crc_host 7).
  - unfold wf_words. simpl. lia.
  - lia.
Defined.

(** ** Host discovery on Darwin *)

Lemma prefix_spec (p s : string) :
  String.prefix p s = true <-> exists post, s = p +:+ post.
Proof.
  revert s. induction p as [|c p IH]; intros [|c' s]; cbn.
  - split; [intros _; by exists ""|done].
  - split; [intros _; by exists (String c' s)|done].
  - split; [done|by intros [? ?]].
  - destruct (Ascii.ascii_dec c c') as [<-|Hne].
    + rewrite IH. split; intros [post Hp]; exists post; [by rewrite Hp|].
      by injection Hp.
    + split; [done|]. intros [post [= ? ?]]. done.
Qed.

Lemma StringRef_find_nil (needle : string) :
  StringRef_find "" needle = if String.prefix needle "" then Some O else None.
Proof. done. Qed.

Lemma StringRef_find_cons (c : Ascii.ascii) (s needle : string) :
  StringRef_find (String c s) needle =
    if String.prefix needle (String c s) then Some O
    else S <$> StringRef_find s needle.
Proof. done. Qed.

Lemma StringRef_find_spec (s needle : string) :
  StringRef_find s needle <> None <-> occurs_in needle s.
Proof.
  induction s as [|c s IH].
  - rewrite StringRef_find_nil.
    destruct (String.prefix needle "") eqn:Ep.
    + split; [|done]. intros _. apply prefix_spec in Ep as [post Hp].
      by exists "", post.
    + split; [done|]. intros (pre & post & Hs). exfalso.
      destruct pre; [|done]. cbn in Hs.
      assert (String.prefix needle "" = true) as Ht; [|by rewrite Ht in Ep].
      apply prefix_spec. by exists post.
  - rewrite StringRef_find_cons.
    destruct (String.prefix needle (String c s)) eqn:Ep.
    + split; [|done]. intros _. apply prefix_spec in Ep as [post Hp].
      by exists "", post.
    + destruct (StringRef_find s needle) as [n|]; cbn [fmap option_fmap option_map].
      * split; [|done]. intros _.
        destruct IH as [IH _]. destruct IH as (pre & post & ->); [done|].
        by exists (String c pre), post.
      * split; [done|]. intros (pre & post & Hs). exfalso.
        destruct pre as [|c' pre]; cbn in Hs.
        -- assert (String.prefix needle (String c s) = true) as Ht;
             [|by rewrite Ht in Ep].
           apply prefix_spec. by exists post.
        -- injection Hs as -> ->. apply IH; [|done]. by exists pre, post.
Qed.

Section darwin_facts.
Context `{Header}.

Lemma find_cpu_id_apple :
  find_cpu_id (CPU.id CPU.apple_m1)
    = Some (mkCPUSpec "apple-m1" CPU.apple_m1 CPU.apple_a14 130000 Feature.apple_m1) /\
  find_cpu_id (CPU.id CPU.apple_m2)
    = Some (mkCPUSpec "apple-m2" CPU.apple_m2 CPU.apple_m1 160000 Feature.apple_m2) /\
  find_cpu_id (CPU.id CPU.apple_m3)
    = Some (mkCPUSpec "apple-m3" CPU.apple_m3 CPU.apple_m2 180000 Feature.apple_m3) /\
  find_cpu_id (CPU.id CPU.apple_m4)
    = Some (mkCPUSpec "apple-m4" CPU.apple_m4 CPU.apple_m3 190000 Feature.apple_m4).
Proof. repeat split. Qed.

(** C9.  On Darwin the host is the Apple CPU of the first of M1, M2, M3,
    M4 (in this order) that occurs in the brand string, and apple-m1 when
    none does; the feature vector returned with it is the one the catalog
    has for that CPU. *)
Theorem darwin_get_host_cpu (cpu_name : string) :
  (occurs_in "M1" cpu_name ->
   _get_host_cpu cpu_name = (CPU.id CPU.apple_m1, Feature.apple_m1)) /\
  (~ occurs_in "M1" cpu_name -> occurs_in "M2" cpu_name ->
   _get_host_cpu cpu_name = (CPU.id CPU.apple_m2, Feature.apple_m2)) /\
  (~ occurs_in "M1" cpu_name -> ~ occurs_in "M2" cpu_name ->
   occurs_in "M3" cpu_name ->
   _get_host_cpu cpu_name = (CPU.id CPU.apple_m3, Feature.apple_m3)) /\
  (~ occurs_in "M1" cpu_name -> ~ occurs_in "M2" cpu_name ->
   ~ occurs_in "M3" cpu_name -> occurs_in "M4" cpu_name ->
   _get_host_cpu cpu_name = (CPU.id CPU.apple_m4, Feature.apple_m4)) /\
  (~ occurs_in "M1" cpu_name -> ~ occurs_in "M2" cpu_name ->
   ~ occurs_in "M3" cpu_name -> ~ occurs_in "M4" cpu_name ->
   _get_host_cpu cpu_name = (CPU.id CPU.apple_m1, Feature.apple_m1)) /\
  (exists spec, find_cpu_id (_get_host_cpu cpu_name).1 = Some spec /\
                spec_features spec = (_get_host_cpu cpu_name).2).
Proof.
  unfold _get_host_cpu.
  destruct find_cpu_id_apple as (Hm1 & Hm2 & Hm3 & Hm4).
  rewrite <- !StringRef_find_spec.
  repeat case_bool_decide; cbn [fst snd];
    (repeat split; [try done..|by eexists]).
Qed.

End darwin_facts.

(** ** The big.LITTLE shrink *)

Lemma first_index_unique (cpus : list CPU.t) (name : Z) (i j : nat) :
  first_index cpus name i -> first_index cpus name j -> i = j.
Proof.
  intros [(c & Hc & Hn) Hi] [(c' & Hc' & Hn') Hj].
  destruct (Nat.lt_trichotomy i j) as [Hlt|[->|Hlt]]; [|done|].
  - by destruct (Hj i c Hlt Hc).
  - by destruct (Hi j c' Hlt Hc').
Qed.

Lemma to_int_small (i : Z) : 0 <= i < 2 ^ 31 -> to_int i = i.
Proof. intros Hi. unfold to_int. destruct (Z.ltb_spec i 2147483648); lia. Qed.

Lemma find_from_spec (cpus : list CPU.t) (name k : Z) :
  0 <= k -> k + Z.of_nat (length cpus) <= 2 ^ 31 ->
  (find_from cpus name k = -1 /\ forall c, c ∈ cpus -> CPU.id c <> name) \/
  (exists i : nat, find_from cpus name k = k + Z.of_nat i /\
                   first_index cpus name i).
Proof.
  revert k. induction cpus as [|c cpus IH]; intros k Hk Hlen.
  - left. split; [done|]. intros c Hc. by apply elem_of_nil in Hc.
  - cbn [find_from length] in *. destruct (Z.eqb_spec (CPU.id c) name) as [Heq|Hne].
    + right. exists O. rewrite to_int_small by lia. split; [lia|]. split.
      * by exists c.
      * intros j c' Hj. lia.
    + destruct (IH (k + 1)) as [[Hf Hall]|(i & Hf & (c' & Hc' & Hn') & Hmin)];
        [lia..| |].
      * left. split; [done|]. intros c' [->|Hc']%elem_of_cons; auto.
      * right. exists (S i). split; [lia|]. split; [by exists c'|].
        intros [|j] c'' Hj Hc''; cbn in Hc''.
        -- by injection Hc'' as <-.
        -- apply (Hmin j); [lia|done].
Qed.

Lemma find_from_cases (cpus : list CPU.t) (name : Z) :
  Z.of_nat (length cpus) <= 2 ^ 31 ->
  (find_from cpus name 0 = -1 /\ forall i, ~ first_index cpus name i) \/
  (exists i : nat, find_from cpus name 0 = Z.of_nat i /\ first_index cpus name i).
Proof.
  intros Hlen. destruct (find_from_spec cpus name 0) as [[Hf Hall]|(i & Hf & Hi)];
    [lia..| |].
  - left. split; [done|]. intros i [(c & Hc & Hn) _].
    apply (Hall c); [|done]. by eapply list_elem_of_lookup_2.
  - right. exists i. split; [lia|done].
Qed.

Lemma max_index_spec (cpus : list CPU.t) (lst : list (Z * CPUID)) (start : Z) :
  start <= max_index cpus lst start /\
  (forall ele, ele ∈ lst -> find_from cpus ele.1 0 <= max_index cpus lst start) /\
  (max_index cpus lst start = start \/
   exists ele, ele ∈ lst /\ find_from cpus ele.1 0 = max_index cpus lst start).
Proof.
  revert start. induction lst as [|e lst IH]; intros start.
  - cbn. split; [lia|]. split; [|by left]. intros ele He. by apply elem_of_nil in He.
  - cbn [max_index fold_left].
    set (start' := if start <? find_from cpus e.1 0
                   then find_from cpus e.1 0 else start).
    destruct (IH start') as (Hge & Hall & Hex). fold (max_index cpus lst start').
    assert (start <= start' /\ find_from cpus e.1 0 <= start' /\
            (start' = start \/ start' = find_from cpus e.1 0)) as (H1 & H2 & H3).
    { unfold start'. destruct (Z.ltb_spec start (find_from cpus e.1 0)); lia. }
    split; [lia|]. split.
    + intros ele [->|He]%elem_of_cons; [lia|by apply Hall].
    + destruct Hex as [Hex|(ele & He & Hf)].
      * destruct H3 as [H3|H3]; [left; lia|].
        right. exists e. split; [constructor|lia].
      * right. exists ele. split; [by constructor|done].
Qed.

Lemma filter_bool_decide {A} (P : A -> Prop) `{!forall x, Decision (P x)}
    (l : list A) :
  filter P l = List.filter (fun x => bool_decide (P x)) l.
Proof.
  induction l as [|x l IH]; [done|]. rewrite filter_cons. cbn.
  destruct (decide (P x)).
  - rewrite bool_decide_eq_true_2 by done. by rewrite IH.
  - rewrite bool_decide_eq_false_2 by done. done.
Qed.

Lemma List_filter_true {A} (keep : A -> bool) (l : list A) :
  (forall x, x ∈ l -> keep x = true) -> List.filter keep l = l.
Proof.
  induction l as [|x l IH]; intros HP; [done|]. cbn.
  rewrite HP by constructor. f_equal. apply IH. intros y Hy. apply HP.
  by constructor.
Qed.

Lemma shrink_big_little_kept (lst : list (Z * CPUID)) (cpus : list CPU.t) :
  shrink_big_little lst cpus
    = List.filter (kept cpus (max_index cpus lst (-1))) lst.
Proof.
  unfold shrink_big_little, kept. fold (max_index cpus lst (-1)).
  destruct (0 <=? max_index cpus lst (-1)).
  - apply filter_bool_decide.
  - symmetry. by apply List_filter_true.
Qed.

Lemma kept_false_iff (lst : list (Z * CPUID)) (cpus : list CPU.t)
    (ele : Z * CPUID) :
  Z.of_nat (length cpus) <= 2 ^ 31 ->
  kept cpus (max_index cpus lst (-1)) ele = false <-> outranked lst cpus ele.
Proof.
  intros Hlen. unfold kept.
  destruct (max_index_spec cpus lst (-1)) as (Hge & Hall & Hex).
  destruct (Z.leb_spec 0 (max_index cpus lst (-1))) as [Hpos|Hneg].
  - destruct Hex as [Hex|(emax & Hemax & Hfmax)]; [lia|].
    destruct (find_from_cases cpus emax.1 Hlen) as [[Hf _]|(m & Hm & Hfm)];
      [lia|].
    rewrite bool_decide_eq_false.
    destruct (find_from_cases cpus ele.1 Hlen) as [[Hf Hnone]|(i & Hi & Hfi)].
    + split; [intros Hk; destruct Hk; lia|].
      intros (i & _ & Hfi & _). by destruct (Hnone i).
    + split.
      * intros Hnot. exists i, m. split; [done|]. split; [by exists emax|].
        destruct (decide (i < m)%nat); [done|]. destruct Hnot. lia.
      * intros (i' & m' & Hfi' & (e' & He' & Hfm') & Hlt) Hkeep.
        rewrite (first_index_unique _ _ _ _ Hfi' Hfi) in Hlt.
        apply Hkeep. split; [lia|].
        destruct (find_from_cases cpus e'.1 Hlen) as [[_ Hn]|(m'' & Hm'' & Hfm'')];
          [by destruct (Hn m')|].
        rewrite (first_index_unique _ _ _ _ Hfm' Hfm'') in Hlt.
        specialize (Hall e' He'). lia.
  - split; [done|]. intros (i & m & _ & (e' & He' & Hfm) & _).
    destruct (find_from_cases cpus e'.1 Hlen) as [[_ Hn]|(m' & Hm' & _)];
      [by destruct (Hn m)|].
    specialize (Hall e' He'). lia.
Qed.

(** C10.  [shrink_big_little] keeps the entries in their order and drops
    exactly those whose CPU is a member of the family order list at an
    index (its first position there) strictly below the greatest index of
    a member that is present; an entry whose CPU is not in the order list
    stays, and so does the whole list when none of its CPUs is in it. *)
Theorem shrink_big_little_spec (lst : list (Z * CPUID)) (cpus : list CPU.t) :
  Z.of_nat (length cpus) <= 2 ^ 31 ->
  (exists keep : Z * CPUID -> bool,
     shrink_big_little lst cpus = List.filter keep lst /\
     forall ele, keep ele = false <-> outranked lst cpus ele) /\
  (forall ele, ele ∈ lst -> (forall c, c ∈ cpus -> CPU.id c <> ele.1) ->
               ele ∈ shrink_big_little lst cpus) /\
  ((forall ele c, ele ∈ lst -> c ∈ cpus -> CPU.id c <> ele.1) ->
   shrink_big_little lst cpus = lst).
Proof.
  intros Hlen.
  assert (forall ele, (forall c, c ∈ cpus -> CPU.id c <> ele.1) ->
                      kept cpus (max_index cpus lst (-1)) ele = true) as Hout.
  { intros ele Hno. apply not_false_iff_true. rewrite kept_false_iff by done.
    intros (i & m & [(c & Hc & Hn) _] & _).
    apply (Hno c); [|done]. by eapply list_elem_of_lookup_2. }
  split; [|split].
  - exists (kept cpus (max_index cpus lst (-1))).
    split; [apply shrink_big_little_kept|]. intros ele. by apply kept_false_iff.
  - intros ele He Hno. rewrite shrink_big_little_kept.
    apply list_elem_of_In, List.filter_In. split; [by apply list_elem_of_In|].
    by apply Hout.
  - intros Hno. rewrite shrink_big_little_kept. apply List_filter_true.
    intros ele He. apply Hout. intros c Hc. by apply Hno.
Qed.

Lemma shrink_big_little_spec_witness :
  let lst := [ (CPU.id CPU.arm_cortex_a53, mkCPUID 65 0 3331);
               (CPU.id CPU.arm_cortex_a73, mkCPUID 65 0 3337);
               (CPU.id CPU.apple_m1, mkCPUID 97 0 34) ] in
  Z.of_nat (length v8order) <= 2 ^ 31 /\
  shrink_big_little lst v8order
    = [ (CPU.id CPU.arm_cortex_a73, mkCPUID 65 0 3337);
        (CPU.id CPU.apple_m1, mkCPUID 97 0 34) ] /\
  ((exists keep : Z * CPUID -> bool,
      shrink_big_little lst v8order = List.filter keep lst /\
      forall ele, keep ele = false <-> outranked lst v8order ele) /\
   (forall ele, ele ∈ lst -> (forall c, c ∈ v8order -> CPU.id c <> ele.1) ->
                ele ∈ shrink_big_little lst v8order) /\
   ((forall ele c, ele ∈ lst -> c ∈ v8order -> CPU.id c <> ele.1) ->
    shrink_big_little lst v8order = lst)).
Proof.
  split; [by vm_compute|]. split; [by vm_compute|].
  apply shrink_big_little_spec. by vm_compute.
Defined.

(** ** The clone flags *)

Section clone_facts.
Context `{Header} `{Processor} `{Host}.
Hypothesis Hok : header_ok.

Lemma arg_target_data_base (arg res : TargetData) (require_host : bool) :
  arg_target_data arg require_host = Some res -> base res = base arg.
Proof.
  unfold arg_target_data.
  generalize (@enable_depends _) (@disable_depends _). intros ed dd.
  destruct (if String.eqb (name arg) "native" then _ else _) as [[? ?] ?].
  destruct (ed _); [|done]. cbn [mbind option_bind].
  destruct (dd _); [|done]. cbn [mbind option_bind].
  by intros [= <-].
Qed.

Lemma resolve_all_spec (cmdline acc : list TargetData) :
  exists rs, resolve_all cmdline acc = Some (acc ++ rs) /\
             length rs = length cmdline /\
             forall i arg, cmdline !! i = Some arg ->
               exists r, rs !! i = Some r /\
                 arg_target_data arg (bool_decide (acc = [] /\ i = O)) = Some r.
Proof.
  revert acc. induction cmdline as [|arg cmdline IH]; intros acc.
  - exists []. rewrite app_nil_r. split; [done|]. split; [done|].
    intros i arg Hi. by rewrite lookup_nil in Hi.
  - cbn [resolve_all].
    destruct (arg_target_data_inv Hok arg (bool_decide (acc = [])))
      as (_ & _ & r & Hr & _).
    rewrite Hr. cbn [mbind option_bind].
    destruct (IH (acc ++ [r])) as (rs & Hrs & Hlen & Hall).
    exists (r :: rs). rewrite Hrs, <- app_assoc. split; [done|].
    split; [cbn; lia|]. intros [|i] arg' Hi; cbn in Hi.
    + injection Hi as <-. exists r. split; [done|]. rewrite <- Hr. f_equal.
      apply bool_decide_ext. tauto.
    + destruct (Hall i arg' Hi) as (r' & Hr' & Harg). exists r'.
      split; [done|]. rewrite <- Harg. f_equal.
      rewrite !bool_decide_eq_false_2; [done|..]; intros [Hnil Hi0];
        first [discriminate Hi0 | destruct acc; discriminate Hnil].
Qed.

Lemma clone_step_inv (rs ts : list TargetData) (k : nat) :
  (forall i r, rs !! i = Some r -> (Z.to_nat (base r) < length rs)%nat) ->
  (1 <= k < length rs)%nat ->
  clone_inv rs k ts ->
  exists ts', clone_step ts k = Some ts' /\ clone_inv rs (S k) ts'.
Proof.
  intros Hbase Hk [Hlen Hinv]. unfold clone_step.
  destruct (lookup_lt_is_Some_2 rs k) as [r Hr]; [lia|].
  destruct (Hinv k r Hr) as (t & Ht & (Hn & He & Hf & Hd & Hb) & Hfl).
  rewrite bool_decide_eq_false_2 in Hfl by lia.
  rewrite Ht. cbn [mbind option_bind]. rewrite Hfl.
  destruct (negb (Z.land (flags (en r)) JL_TARGET_CLONE_ALL =? 0)) eqn:Eall.
  - exists ts. split; [done|]. split; [done|]. intros j r' Hr'.
    destruct (Hinv j r' Hr') as (t' & Ht' & Hsame & Hfl').
    exists t'. split; [done|]. split; [done|]. rewrite Hfl'.
    destruct (decide (j = k)) as [->|Hne].
    + assert (r' = r) as -> by congruence.
      rewrite bool_decide_eq_false_2, bool_decide_eq_true_2 by lia.
      unfold clone_flags_of. by rewrite Eall.
    + apply (f_equal (fun b : bool => if b then clone_flags_of rs r' else flags (en r'))).
      apply bool_decide_ext. lia.
  - specialize (Hbase k r Hr).
    destruct (lookup_lt_is_Some_2 rs (Z.to_nat (base r))) as [r0 Hr0]; [lia|].
    destruct (Hinv _ r0 Hr0) as (t0 & Ht0 & (_ & _ & Hf0 & _ & _) & _).
    rewrite Hb, Ht0. cbn [mbind option_bind]. rewrite Hf0, Hf.
    eexists. split; [done|]. split; [by rewrite length_insert|].
    intros j r' Hr'. destruct (decide (j = k)) as [->|Hne].
    + assert (r' = r) as -> by congruence.
      rewrite list_lookup_insert_eq by lia. eexists. split; [done|].
      split; [by repeat split|]. cbn [en flags].
      rewrite bool_decide_eq_true_2 by lia.
      unfold clone_flags_of. by rewrite Eall, Hr0.
    + rewrite list_lookup_insert_ne by done.
      destruct (Hinv j r' Hr') as (t' & Ht' & Hsame & Hfl').
      exists t'. split; [done|]. split; [done|]. rewrite Hfl'.
      apply (f_equal (fun b : bool => if b then clone_flags_of rs r' else flags (en r'))).
      apply bool_decide_ext. lia.
Qed.

Lemma clone_loop_inv (rs : list TargetData) (n k : nat) (ts : list TargetData) :
  (forall i r, rs !! i = Some r -> (Z.to_nat (base r) < length rs)%nat) ->
  (1 <= k)%nat -> (k + n = Nat.max 1 (length rs))%nat ->
  clone_inv rs k ts ->
  exists ts', clone_loop ts k n = Some ts' /\ clone_inv rs (k + n) ts'.
Proof.
  intros Hbase. revert k ts. induction n as [|n IH]; intros k ts Hk Hkn Hinv.
  - exists ts. rewrite Nat.add_0_r. done.
  - cbn [clone_loop].
    destruct (clone_step_inv rs ts k Hbase ltac:(lia) Hinv) as (ts' & Hstep & Hinv').
    rewrite Hstep. cbn [mbind option_bind].
    destruct (IH (S k) ts' ltac:(lia) ltac:(lia) Hinv') as (ts'' & Hloop & Hinv'').
    exists ts''. split; [done|]. by replace (k + S n)%nat with (S k + n)%nat by lia.
Qed.

Lemma clone_if_new_fp16 (r0 r : TargetData) (fl : Z) :
  (new_fp16 r0 r ->
   clone_if_new clone_fp16 (features (en r0)) (features (en r))
     JL_TARGET_CLONE_FLOAT16 fl = Z.lor fl JL_TARGET_CLONE_FLOAT16) /\
  (~ new_fp16 r0 r ->
   clone_if_new clone_fp16 (features (en r0)) (features (en r))
     JL_TARGET_CLONE_FLOAT16 fl = fl).
Proof.
  unfold clone_if_new, clone_fp16, new_fp16. cbn [existsb].
  destruct (test_nbit (features (en r)) (bit fp16fml)),
           (test_nbit (features (en r0)) (bit fp16fml)),
           (test_nbit (features (en r)) (bit fullfp16)),
           (test_nbit (features (en r0)) (bit fullfp16)); cbn;
    (split; [done || (intros [[? ?]|[? ?]]; done)|done || tauto]).
Qed.

(** C6.  When the command line passes its check and every base index
    points into the list, [ensure_jit_target] fills the empty JIT target
    list with the resolved targets and changes nothing but enable flags:
    the first target and every target with [JL_TARGET_CLONE_ALL] keep
    theirs; any other receives [JL_TARGET_CLONE_CPU] and
    [JL_TARGET_CLONE_LOOP], and [JL_TARGET_CLONE_FLOAT16] with them exactly
    when it enables one of fp16fml and fullfp16 that its base target does
    not. *)
Theorem ensure_jit_target_clone_flags
    (cmdline : list TargetData) (imaging : bool) :
  check_cmdline cmdline imaging = true ->
  (forall i arg, cmdline !! i = Some arg ->
                 (Z.to_nat (base arg) < length cmdline)%nat) ->
  exists resolved targets,
    resolve_all cmdline [] = Some resolved /\
    ensure_jit_target [] cmdline imaging = Some targets /\
    length targets = length resolved /\
    forall i r, resolved !! i = Some r ->
      exists t, targets !! i = Some t /\ same_but_flags r t /\
        (i = O -> flags (en t) = flags (en r)) /\
        (Z.land (flags (en r)) JL_TARGET_CLONE_ALL <> 0 ->
         flags (en t) = flags (en r)) /\
        (i <> O -> Z.land (flags (en r)) JL_TARGET_CLONE_ALL = 0 ->
         exists r0, resolved !! Z.to_nat (base r) = Some r0 /\
           (new_fp16 r0 r ->
            flags (en t) =
              Z.lor (Z.lor (Z.lor (flags (en r)) JL_TARGET_CLONE_CPU)
                           JL_TARGET_CLONE_FLOAT16) JL_TARGET_CLONE_LOOP) /\
           (~ new_fp16 r0 r ->
            flags (en t) =
              Z.lor (Z.lor (flags (en r)) JL_TARGET_CLONE_CPU)
                    JL_TARGET_CLONE_LOOP)).
Proof.
  intros Hcheck Hbase. unfold ensure_jit_target. rewrite Hcheck.
  cbn [negb]. rewrite bool_decide_eq_true_2 by done. cbn [negb].
  destruct (resolve_all_spec cmdline []) as (rs & Hrs & Hlen & Hall).
  rewrite app_nil_l in Hrs. rewrite Hrs. cbn [mbind option_bind].
  assert (forall i r, rs !! i = Some r -> (Z.to_nat (base r) < length rs)%nat)
    as Hbase'.
  { intros i r Hr. destruct (lookup_lt_is_Some_2 cmdline i) as [arg Harg].
    { rewrite <- Hlen. by eapply lookup_lt_Some. }
    destruct (Hall i arg Harg) as (r' & Hr' & Hres).
    assert (r' = r) as -> by congruence.
    rewrite Hlen. specialize (Hbase i arg Harg).
    enough (base r = base arg) as -> by done.
    by eapply arg_target_data_base. }
  destruct (clone_loop_inv rs (length rs - 1) 1 rs Hbase') as (ts & Hts & Hlent & Hinv);
    [lia..| |].
  { split; [done|]. intros j r Hr. exists r. split; [done|].
    split; [done|]. rewrite bool_decide_eq_false_2; [done|lia]. }
  exists rs, ts. split; [done|]. split; [done|]. split; [done|].
  intros i r Hr. destruct (Hinv i r Hr) as (t & Ht & Hsame & Hfl).
  exists t. split; [done|]. split; [done|].
  assert (i < length rs)%nat as Hi by (by eapply lookup_lt_Some).
  split; [|split].
  - intros ->. rewrite Hfl, bool_decide_eq_false_2; [done|lia].
  - intros Hall'. rewrite Hfl. unfold clone_flags_of.
    destruct (Z.eqb_spec (Z.land (flags (en r)) JL_TARGET_CLONE_ALL) 0);
      [done|]. cbn. by destruct (bool_decide _).
  - intros Hi0 Hnall. destruct (lookup_lt_is_Some_2 rs (Z.to_nat (base r)))
      as [r0 Hr0]; [by eapply Hbase'|].
    exists r0. split; [done|].
    rewrite Hfl, bool_decide_eq_true_2 by lia.
    unfold clone_flags_of. rewrite Hnall, Hr0. cbn.
    destruct (clone_if_new_fp16 r0 r
                (Z.lor (flags (en r)) JL_TARGET_CLONE_CPU)) as [Hy Hn].
    split; intros Hnew; [by rewrite Hy|by rewrite Hn].
Qed.

End clone_facts.

(** ** The sample environment is admissible *)

Lemma sample_header_ok : @header_ok sample_header.
Proof.
  split.
  - intros a b Hab.
    destruct a; destruct b; first [reflexivity | discriminate Hab].
  - intros a. destruct a; cbn; lia.
Qed.

Lemma enable_depends_superset_idempotent_witness :
  exists G,
    @enable_depends sample_header (@masks sample_header [v8_3a; sve2]) = Some G /\
    FL_subset (@masks sample_header [v8_3a; sve2]) G /\
    @enable_depends sample_header G = Some G.
Proof.
  apply (@enable_depends_superset_idempotent sample_header sample_header_ok).
Defined.

Lemma arg_target_data_enable_disable_disjoint_witness :
  exists res,
    @arg_target_data sample_header sample_processor m2_host
      unknown_target true = Some res /\
    FL_and (features (en res)) (features (dis res)) = FL_zero.
Proof.
  apply (@arg_target_data_enable_disable_disjoint
           sample_header sample_processor m2_host sample_header_ok).
Defined.

Lemma arg_target_data_disable_known_witness :
  is_Some (@find_cpu sample_header (name (parsed "cortex-a76"))) /\
  exists res,
    @arg_target_data sample_header sample_processor m2_host
      (parsed "cortex-a76") false = Some res /\
    features (dis res) =
      FL_and (@feature_masks sample_header) (FL_not (features (en res))).
Proof.
  assert (is_Some (@find_cpu sample_header (name (parsed "cortex-a76"))))
    as Hfound by (by eexists).
  split; [exact Hfound|].
  apply (@arg_target_data_disable_known
           sample_header sample_processor m2_host sample_header_ok).
  right. exact Hfound.
Defined.

Lemma ensure_jit_target_clone_flags_witness :
  exists resolved targets,
    @resolve_all sample_header sample_processor m2_host sample_cmdline []
      = Some resolved /\
    @ensure_jit_target sample_header sample_processor m2_host []
      sample_cmdline true = Some targets /\
    length targets = length resolved /\
    forall i r, resolved !! i = Some r ->
      exists t, targets !! i = Some t /\ same_but_flags r t /\
        (i = O -> flags (en t) = flags (en r)) /\
        (Z.land (flags (en r)) 1 <> 0 -> flags (en t) = flags (en r)) /\
        (i <> O -> Z.land (flags (en r)) 1 = 0 ->
         exists r0, resolved !! Z.to_nat (base r) = Some r0 /\
           (@new_fp16 sample_header r0 r ->
            flags (en t) = Z.lor (Z.lor (Z.lor (flags (en r)) 128) 256) 4) /\
           (~ @new_fp16 sample_header r0 r ->
            flags (en t) = Z.lor (Z.lor (flags (en r)) 128) 4)).
Proof.
  apply (@ensure_jit_target_clone_flags
           sample_header sample_processor m2_host sample_header_ok
           sample_cmdline true).
  - reflexivity.
  - intros [|[|[|i]]] arg Harg; cbn in Harg; [injection Harg as <-..|done];
      cbn; lia.
Defined.

(** The list that witness is about: the third target, whose base is the
    first, is given CPU, LOOP and FLOAT16 (128 + 4 + 256); the second has
    [clone_all] and keeps its flags. *)
Example ensure_jit_target_sample_flags :
  (fun ts : list TargetData => (fun t => flags (en t)) <$> ts)
    <$> @ensure_jit_target sample_header sample_processor m2_host []
          sample_cmdline true
  = Some [0; 1; 388].
Proof. by vm_compute. Qed.

(** ** Masks as sets of enumerators *)

Lemma lor_u32 (a b : Z) :
  Z.land a UINT32_MAX = a -> Z.land b UINT32_MAX = b ->
  Z.land (Z.lor a b) UINT32_MAX = Z.lor a b.
Proof. intros Ha Hb. by rewrite Z.land_lor_distr_l, Ha, Hb. Qed.

Lemma shiftl_1_u32 (k : Z) :
  0 <= k < 32 -> Z.land (Z.shiftl 1 k) UINT32_MAX = Z.shiftl 1 k.
Proof.
  intros Hk. apply Z.bits_inj'. intros n Hn.
  rewrite Z.land_spec, shiftl_1_testbit by lia.
  change UINT32_MAX with (Z.ones 32). rewrite Z.testbit_ones_nonneg by lia.
  case_bool_decide; [|done]. subst n. simpl. apply Z.ltb_lt. lia.
Qed.

Lemma FL_zero_u32 : u32_words FL_zero.
Proof. done. Qed.

Lemma set_bit_u32 (F : FeatureList) (b : Z) :
  u32_words F -> u32_words (set_bit F b true).
Proof.
  intros (H0 & H1 & H2). unfold set_bit, set_word, get_word. cbv zeta.
  pose proof (shiftl_1_u32 (b mod 32) (Z.mod_pos_bound b 32 ltac:(lia))).
  unfold u32_words. case_eqb; cbn [w0 w1 w2]; auto using lor_u32.
Qed.

Lemma get_feature_masks_u32 (bits : list Z) : u32_words (get_feature_masks bits).
Proof.
  unfold get_feature_masks. generalize FL_zero_u32. generalize FL_zero.
  induction bits as [|b bits IH]; intros F HF; [done|]. cbn [fold_left].
  apply IH. destruct (_ && _); [by apply set_bit_u32|done].
Qed.

Lemma FL_or_u32 (A B : FeatureList) :
  u32_words A -> u32_words B -> u32_words (FL_or A B).
Proof.
  intros (?&?&?) (?&?&?). unfold u32_words, FL_or. cbn [w0 w1 w2].
  auto using lor_u32.
Qed.

Lemma FL_and_not_zero (F : FeatureList) :
  u32_words F -> FL_and F (FL_not FL_zero) = F.
Proof.
  intros (H0 & H1 & H2). destruct F as [a b c]. unfold FL_and, FL_not.
  cbn [w0 w1 w2 FL_zero] in *. change (not32 0) with UINT32_MAX.
  by rewrite H0, H1, H2.
Qed.

Lemma FL_or_zero_l (F : FeatureList) : FL_or FL_zero F = F.
Proof. by destruct F. Qed.

Lemma FL_and_diag (F : FeatureList) : FL_and F F = F.
Proof. apply FL_subset_refl. Qed.

Section mask_facts.
Context `{Header}.
Hypothesis Hok : header_ok.

Lemma mem_fold_masks (l : list id) (F : FeatureList) (f : id) :
  mem (fold_left (fun F b => if (0 <=? b) && (b <? 32 * feature_sz)
                             then set_bit F b true else F) (bit <$> l) F) f
  = bool_decide (f ∈ l) || mem F f.
Proof.
  revert F. induction l as [|b l IH]; intros F.
  - cbn. rewrite bool_decide_eq_false_2; [done|]. apply not_elem_of_nil.
  - cbn [fmap list_fmap fold_left].
    destruct (bit_in_range Hok b) as [Hlo Hhi]. unfold feature_sz.
    replace ((0 <=? bit b) && (bit b <? 32 * 3)) with true
      by (symmetry; apply andb_true_iff; split; [apply Z.leb_le|apply Z.ltb_lt]; lia).
    fold (fmap (M:=list) bit l). unfold feature_sz in IH.
    rewrite IH, (mem_set_bit Hok).
    rewrite (bool_decide_ext (f ∈ b :: l) (f = b \/ f ∈ l)) by apply elem_of_cons.
    repeat case_bool_decide; simpl; try done; tauto.
Qed.

Lemma mem_masks (l : list id) (f : id) :
  mem (masks l) f = bool_decide (f ∈ l).
Proof.
  unfold masks, get_feature_masks. rewrite mem_fold_masks.
  unfold has. by rewrite test_nbit_zero, orb_false_r.
Qed.

Lemma mem_or (A B : FeatureList) (f : id) :
  mem (FL_or A B) f = mem A f || mem B f.
Proof. apply test_nbit_or. Qed.

Lemma masks_u32 (l : list id) : u32_words (masks l).
Proof. apply get_feature_masks_u32. Qed.

Lemma mem_apple_m2 (f : id) :
  mem Feature.apple_m2 f = bool_decide (f ∈ apple_m2_ids).
Proof.
  unfold Feature.apple_m2, armv8_5a_crypto, armv8_5a, armv8_4a, armv8_3a,
    armv8_2a, armv8_1a, armv8a_crc.
  rewrite !mem_or, !mem_masks. by destruct f.
Qed.

Lemma apple_m2_u32 : u32_words Feature.apple_m2.
Proof.
  unfold Feature.apple_m2, armv8_5a_crypto, armv8_5a, armv8_4a, armv8_3a,
    armv8_2a, armv8_1a, armv8a_crc.
  repeat apply FL_or_u32; apply masks_u32.
Qed.

Lemma apple_m2_upward_closed : upward_closed Feature.apple_m2.
Proof.
  split.
  - assert (Forall (fun r : list id * list id =>
                      Forall (fun a => a ∈ apple_m2_ids) r.1 ->
                      Forall (fun b => b ∈ apple_m2_ids) r.2)
                   arch_rules) as Hall.
    { apply (bool_decide_unpack _). by vm_compute. }
    rewrite Forall_forall in Hall. intros r Hr Hm b Hb.
    rewrite mem_apple_m2. apply bool_decide_eq_true.
    assert (Forall (fun a => a ∈ apple_m2_ids) r.1) as Hpre.
    { apply Forall_forall. intros a Ha. rewrite forallb_forall in Hm.
      apply list_elem_of_In in Ha. specialize (Hm a Ha).
      rewrite mem_apple_m2 in Hm. by apply bool_decide_eq_true in Hm. }
    specialize (Hall r Hr Hpre).
    rewrite Forall_forall in Hall. by apply Hall.
  - assert (Forall (fun p : id * id => p.1 ∈ apple_m2_ids -> p.2 ∈ apple_m2_ids)
                   deps_ids) as Hall.
    { apply (bool_decide_unpack _). by vm_compute. }
    rewrite Forall_forall in Hall. intros d Hd.
    apply list_elem_of_fmap in Hd as (p & -> & Hp). cbn [feature dep].
    fold (mem Feature.apple_m2 p.1). fold (mem Feature.apple_m2 p.2).
    rewrite !mem_apple_m2. intros Hm%bool_decide_eq_true.
    apply bool_decide_eq_true. by apply Hall.
Qed.

End mask_facts.

(** ** The Apple M2 scenario *)

Lemma append_assoc (a b c : string) : (a +:+ b) +:+ c = a +:+ b +:+ c.
Proof.
  induction a as [|x a IH]; [done|].
  change (String x ((a +:+ b) +:+ c) = String x (a +:+ b +:+ c)).
  by rewrite IH.
Qed.

Lemma join_feature_strs_app (pre suf : list string) :
  suf <> [] ->
  exists s, join_feature_strs (pre ++ suf) = s +:+ join_feature_strs suf.
Proof.
  intros Hsuf. induction pre as [|x pre [s IH]]; [by exists ""|].
  exists (x +:+ "," +:+ s). cbn [app join_feature_strs].
  destruct (pre ++ suf) eqn:E.
  - by apply app_eq_nil in E as [_ ?].
  - rewrite IH, !append_assoc. done.
Qed.

Section m2_scenario.
Context `{Header} `{Processor}.
Hypothesis Hok : header_ok.

Lemma arg_target_data_native `{Host} (arg : TargetData) (require_host : bool) :
  name arg = "native" ->
  arg_target_data arg require_host =
    (en_features ← enable_depends (FL_or (features (en arg)) get_host_cpu.2);
     en_features ← disable_depends
       (if require_host
        then FL_and (FL_and en_features (FL_not (features (dis arg))))
                    get_host_cpu.2
        else FL_and en_features (FL_not (features (dis arg))));
     Some (mkTargetData host_cpu_name (ext_features arg)
             (mkFeatureData en_features (flags (en arg)))
             (mkFeatureData (FL_and feature_masks (FL_not en_features))
                            (flags (dis arg)))
             (base arg))).
Proof.
  intros Hn. unfold arg_target_data. rewrite Hn.
  generalize (@enable_depends _) (@disable_depends _). intros ed dd.
  done.
Qed.

Lemma find_cpu_apple_m2 :
  find_cpu "apple-m2"
    = Some (mkCPUSpec "apple-m2" CPU.apple_m2 CPU.apple_m1 160000 Feature.apple_m2).
Proof. done. Qed.

Lemma fallback_loop_unfold (fuel : nat) (spec : CPUSpec) :
  fallback_loop (S fuel) spec =
    if spec_llvmver spec <=? JL_LLVM_VERSION then Some spec
    else spec ← find_cpu_id (CPU.id (spec_fallback spec)); fallback_loop fuel spec.
Proof. done. Qed.

Lemma fallback_apple_m2 :
  JL_LLVM_VERSION = 140000 ->
  fallback_loop ncpu_names
    (mkCPUSpec "apple-m2" CPU.apple_m2 CPU.apple_m1 160000 Feature.apple_m2)
  = Some (mkCPUSpec "apple-m1" CPU.apple_m1 CPU.apple_a14 130000 Feature.apple_m1).
Proof.
  intros HV. change ncpu_names with (S (S 72)).
  rewrite fallback_loop_unfold. cbn [spec_llvmver spec_fallback]. rewrite HV.
  change (160000 <=? 140000) with false. cbn match.
  destruct find_cpu_id_apple as (-> & _). cbn [mbind option_bind].
  rewrite fallback_loop_unfold. cbn [spec_llvmver]. rewrite HV. done.
Qed.

Lemma disable_depends_unfold (F : FeatureList) :
  disable_depends F = generic_disable_depends F deps.
Proof. done. Qed.

Lemma disable_depends_fixed (F : FeatureList) :
  settled deps F -> disable_depends F = Some F.
Proof.
  intros Hs. rewrite disable_depends_unfold.
  by apply generic_disable_depends_fixed.
Qed.

Lemma apple_m2_resolves (brand llvm_name : string) :
  ~ occurs_in "M1" brand -> occurs_in "M2" brand ->
  @arg_target_data _ _ (darwin_host brand llvm_name) (parsed "native") true
    = Some apple_m2_target.
Proof.
  intros Hm1 Hm2.
  destruct (darwin_get_host_cpu brand) as (_ & Hhost & _).
  specialize (Hhost Hm1 Hm2).
  pose proof (enable_depends_fixed _ (apple_m2_upward_closed Hok)) as He.
  pose proof (disable_depends_fixed _ (proj2 (apple_m2_upward_closed Hok))) as Hd.
  rewrite arg_target_data_native by done.
  revert He Hd. generalize (@enable_depends _) (@disable_depends _).
  intros ed dd He Hd.
  unfold host_cpu_name.
  cbn [parsed en dis features flags ext_features base get_host_cpu darwin_host].
  rewrite Hhost. cbn [fst snd].
  rewrite FL_or_zero_l, He. cbn [mbind option_bind].
  rewrite (FL_and_not_zero _ (apple_m2_u32)), FL_and_diag, Hd.
  cbn [mbind option_bind].
  change (is_generic_cpu_name (CPU.id CPU.apple_m2)) with false.
  cbn [andb]. unfold find_cpu_name.
  destruct find_cpu_id_apple as (_ & -> & _). done.
Qed.

(** C2, as the code has it.  On an Apple M2 under Darwin, with backend
    version 14, the target "native" resolves to the name "apple-m2" with
    v8_5a, aes, sha2, dotprod, fp16fml, fullfp16, sha3, i8mm and bf16
    enabled; the emitted CPU name is the fallback "apple-m1", and the
    emitted feature list, hence the feature string, ends (it does not
    begin) with +v8.5a, +v8.4a, +v8.3a, +v8.2a, +v8.1a, +neon, +fp-armv8. *)
Theorem apple_m2_native_target (brand llvm_name : string) :
  JL_LLVM_VERSION = 140000 ->
  ~ occurs_in "M1" brand -> occurs_in "M2" brand ->
  exists res pre s,
    @arg_target_data _ _ (darwin_host brand llvm_name) (parsed "native") true
      = Some res /\
    name res = "apple-m2" /\
    Forall (fun f => test_nbit (features (en res)) (bit f) = true)
      [v8_5a; aes; sha2; dotprod; fp16fml; fullfp16; sha3; i8mm; bf16] /\
    get_llvm_target_noext res
      = Some ("apple-m1",
              pre ++ ["+v8.5a"; "+v8.4a"; "+v8.3a"; "+v8.2a"; "+v8.1a";
                      "+neon"; "+fp-armv8"]) /\
    get_llvm_target_str res
      = Some ("apple-m1",
              s +:+ "+v8.5a,+v8.4a,+v8.3a,+v8.2a,+v8.1a,+neon,+fp-armv8").
Proof.
  intros HV Hm1 Hm2.
  pose proof (mem_apple_m2 Hok) as Hmem.
  pose proof (apple_m2_resolves brand llvm_name Hm1 Hm2) as Hres.
  set (res := apple_m2_target) in *.
  assert (exists pre, get_llvm_target_noext res
            = Some ("apple-m1",
                    pre ++ ["+v8.5a"; "+v8.4a"; "+v8.3a"; "+v8.2a"; "+v8.1a";
                            "+neon"; "+fp-armv8"])) as [pre Hpre].
  { unfold get_llvm_target_noext. cbn [res apple_m2_target name en dis features].
    rewrite find_cpu_apple_m2, (fallback_apple_m2 HV).
    cbn [fmap option_fmap option_map mbind option_bind spec_name spec_cpu spec_features].
    change (is_generic_cpu_name (CPU.id CPU.apple_m1)) with false. cbn match.
    exists (feature_strs_loop feature_names Feature.apple_m2
              (FL_and feature_masks (FL_not Feature.apple_m2)) []).
    unfold push_if. fold (mem Feature.apple_m2 v8_6a).
    fold (mem Feature.apple_m2 v8_5a). fold (mem Feature.apple_m2 v8_4a).
    fold (mem Feature.apple_m2 v8_3a). fold (mem Feature.apple_m2 v8_2a).
    fold (mem Feature.apple_m2 v8_1a). rewrite !Hmem.
    change (bool_decide (v8_6a ∈ apple_m2_ids)) with false.
    change (bool_decide (v8_5a ∈ apple_m2_ids)) with true.
    change (bool_decide (v8_4a ∈ apple_m2_ids)) with true.
    change (bool_decide (v8_3a ∈ apple_m2_ids)) with true.
    change (bool_decide (v8_2a ∈ apple_m2_ids)) with true.
    change (bool_decide (v8_1a ∈ apple_m2_ids)) with true.
    cbn match. rewrite <- !app_assoc. done. }
  destruct (join_feature_strs_app pre
              ["+v8.5a"; "+v8.4a"; "+v8.3a"; "+v8.2a"; "+v8.1a";
               "+neon"; "+fp-armv8"] ltac:(done)) as [s Hs].
  exists res, pre, s. split; [done|]. split; [done|]. split.
  - cbn [res apple_m2_target en features]. repeat constructor;
      match goal with |- test_nbit _ (bit ?f) = true =>
        fold (mem Feature.apple_m2 f); rewrite Hmem; done end.
  - split; [done|]. unfold get_llvm_target_str. rewrite Hpre.
    cbn [mbind option_bind fst snd]. rewrite Hs. done.
Qed.

End m2_scenario.

Lemma apple_m2_native_target_witness :
  exists res pre s,
    @arg_target_data sample_header sample_processor
      (@darwin_host sample_header "Apple M2" "apple-m2") (parsed "native") true
      = Some res /\
    name res = "apple-m2" /\
    Forall (fun f => test_nbit (features (en res)) (sample_bit f) = true)
      [v8_5a; aes; sha2; dotprod; fp16fml; fullfp16; sha3; i8mm; bf16] /\
    @get_llvm_target_noext sample_header sample_processor res
      = Some ("apple-m1",
              pre ++ ["+v8.5a"; "+v8.4a"; "+v8.3a"; "+v8.2a"; "+v8.1a";
                      "+neon"; "+fp-armv8"]) /\
    @get_llvm_target_str sample_header sample_processor res
      = Some ("apple-m1",
              s +:+ "+v8.5a,+v8.4a,+v8.3a,+v8.2a,+v8.1a,+neon,+fp-armv8").
Proof.
  apply (@apple_m2_native_target sample_header sample_processor
           sample_header_ok "Apple M2" "apple-m2").
  - reflexivity.
  - rewrite <- StringRef_find_spec. by vm_compute.
  - rewrite <- StringRef_find_spec. by vm_compute.
Defined.

(** C2 as stated fails: under the sample header the emitted feature string
    of that target begins with the enabled features, last named first,
    and +neon comes at the end. *)
Lemma apple_m2_feature_string_not_neon_first :
  exists res s,
    @arg_target_data sample_header sample_processor m2_host (parsed "native") true
      = Some res /\
    name res = "apple-m2" /\
    @get_llvm_target_str sample_header sample_processor res
      = Some ("apple-m1", s) /\
    String.prefix "+bf16,+i8mm," s = true /\
    String.prefix "+neon,+fp-armv8,+v8.5a,+v8.4a,+v8.3a,+v8.2a,+v8.1a" s = false.
Proof.
  eexists _, _. split; [by vm_compute|]. split; [done|].
  split; [by vm_compute|]. split; by vm_compute.
Qed.

(** ** The third word of the disable set *)

Lemma test_nbit_fold_masks (bits : list Z) (F : FeatureList) (b : Z) :
  in_range b -> test_nbit F b = true \/ b ∈ bits ->
  test_nbit (fold_left (fun F b => if (0 <=? b) && (b <? 32 * feature_sz)
                                   then set_bit F b true else F) bits F) b
  = true.
Proof.
  intros Hb. revert F. induction bits as [|c bits IH]; intros F Hin.
  - destruct Hin as [?|Hin]; [done|]. by apply elem_of_nil in Hin.
  - cbn [fold_left]. apply IH.
    destruct Hin as [Ht|[->|Hin]%elem_of_cons]; [| |by right]; left.
    + destruct (_ && _); [|done].
      eapply FL_subset_test; [apply FL_subset_set_bit|done].
    + unfold in_range, feature_sz in *.
      replace ((0 <=? c) && (c <? 32 * 3)) with true
        by (symmetry; apply andb_true_iff; split;
            [apply Z.leb_le|apply Z.ltb_lt]; lia).
      rewrite test_nbit_set_bit by done. by rewrite bool_decide_eq_true_2.
Qed.

Section third_word.
Context `{Header} `{Processor} `{Host}.
Hypothesis Hok : header_ok.

Lemma FL_zero_upward_closed : upward_closed FL_zero.
Proof.
  split.
  - intros r Hr Hm. exfalso. revert r Hr Hm.
    apply (Forall_forall (fun r => forallb (mem FL_zero) r.1 = true -> False)).
    repeat constructor; cbn [forallb fst]; unfold has;
      by rewrite test_nbit_zero.
  - intros d _ Hm. by rewrite test_nbit_zero in Hm.
Qed.

Lemma generic_resolves :
  arg_target_data (parsed "generic") false
    = Some (mkTargetData "generic" "" (mkFeatureData FL_zero 0)
              (mkFeatureData (FL_and feature_masks (FL_not FL_zero)) 0) 0).
Proof.
  pose proof (enable_depends_fixed _ FL_zero_upward_closed) as He.
  pose proof (disable_depends_fixed _ (proj2 FL_zero_upward_closed)) as Hd.
  unfold arg_target_data. revert He Hd.
  generalize (@enable_depends _) (@disable_depends _). intros ed dd He Hd.
  change (String.eqb (name (parsed "generic")) "native") with false.
  change (find_cpu (name (parsed "generic")))
    with (Some (mkCPUSpec "generic" CPU.generic CPU.generic 0 Feature.generic)).
  cbn [parsed en dis features flags ext_features base name spec_features].
  change (FL_or FL_zero Feature.generic) with FL_zero.
  rewrite He. cbn [mbind option_bind].
  change (FL_and FL_zero (FL_not FL_zero)) with FL_zero.
  rewrite Hd. done.
Qed.

(** Whatever the header, as soon as it names one feature in the third word
    the disable set of "generic" differs from what the real mask gives:
    that feature's bit is in the one and not in the other. *)
Lemma generic_disable_keeps_third_word (fe : FeatureName) :
  fe ∈ feature_names -> 64 <= fe_bit fe < 96 ->
  exists res,
    arg_target_data (parsed "generic") false = Some res /\
    test_nbit (features (dis res)) (fe_bit fe) = true /\
    test_nbit (FL_and real_feature_masks (FL_not (features (en res))))
              (fe_bit fe) = false.
Proof.
  intros Hfe Hbit. eexists. split; [apply generic_resolves|].
  cbn [dis en features].
  assert (in_range (fe_bit fe)) as Hr by (unfold in_range; lia).
  assert (test_nbit (FL_not FL_zero) (fe_bit fe) = true) as Hnot.
  { rewrite test_nbit_testbit. destruct (in_range_word _ Hr) as [Hw Hm].
    unfold FL_not, FL_zero, get_word. cbn [w0 w1 w2].
    change (not32 0) with (Z.ones 32).
    case_eqb; apply Z.ones_spec_low; lia. }
  rewrite !test_nbit_and, Hnot, !andb_true_r. split.
  - unfold feature_masks, get_feature_masks.
    apply test_nbit_fold_masks; [done|]. right.
    apply elem_of_app. left. by apply list_elem_of_fmap_2.
  - unfold real_feature_masks. rewrite test_nbit_and.
    apply andb_false_intro2. rewrite test_nbit_testbit. unfold get_word.
    destruct (bit_word_cases _ ltac:(unfold in_range in Hr; exact Hr))
      as [(? & _)|[(? & _)|(_ & -> & _)]]; [lia..|].
    apply Z.bits_0.
Qed.

End third_word.

(** ** The set of CPUIDs *)

Lemma CPUID_lt_irrefl (a : CPUID) : CPUID_lt a a = false.
Proof. unfold CPUID_lt. rewrite !Z.ltb_irrefl. done. Qed.

Lemma CPUID_lt_spec (a b : CPUID) :
  CPUID_lt a b = true <->
  implementer a < implementer b \/
  implementer a = implementer b /\
  (part a < part b \/ part a = part b /\ variant a < variant b).
Proof.
  unfold CPUID_lt.
  destruct (Z.ltb_spec (implementer a) (implementer b));
  destruct (Z.ltb_spec (implementer b) (implementer a));
  destruct (Z.ltb_spec (part a) (part b));
  destruct (Z.ltb_spec (part b) (part a));
  destruct (Z.ltb_spec (variant a) (variant b)); split; intros; try done; lia.
Qed.

Lemma CPUID_lt_trans (a b c : CPUID) :
  CPUID_lt a b = true -> CPUID_lt b c = true -> CPUID_lt a c = true.
Proof. rewrite !CPUID_lt_spec. lia. Qed.

Lemma CPUID_lt_total (a b : CPUID) :
  CPUID_lt a b = false -> CPUID_lt b a = false -> a = b.
Proof.
  intros Hab Hba.
  assert (~ CPUID_lt a b = true) as Hab' by (by rewrite Hab).
  assert (~ CPUID_lt b a = true) as Hba' by (by rewrite Hba).
  rewrite CPUID_lt_spec in Hab', Hba'.
  destruct a as [ia va pa], b as [ib vb pb]. cbn in *.
  f_equal; lia.
Qed.

(** X1.  [CPUID::operator<] is a strict total order: nothing is below
    itself, the order is transitive, two CPUIDs are never each below the
    other, and two that are not ordered either way have the same
    implementer, variant and part. *)
Theorem CPUID_lt_strict_total_order (a b c : CPUID) :
  CPUID_lt a a = false /\
  (CPUID_lt a b = true -> CPUID_lt b c = true -> CPUID_lt a c = true) /\
  (CPUID_lt a b = true -> CPUID_lt b a = false) /\
  (CPUID_lt a b = false -> CPUID_lt b a = false -> a = b).
Proof.
  split; [apply CPUID_lt_irrefl|]. split; [apply CPUID_lt_trans|].
  split; [|apply CPUID_lt_total].
  intros Hab. destruct (CPUID_lt b a) eqn:Hba; [|done].
  pose proof (CPUID_lt_trans _ _ _ Hab Hba) as Haa.
  by rewrite CPUID_lt_irrefl in Haa.
Qed.

Lemma set_insert_elem (x y : CPUID) (s : list CPUID) :
  y ∈ set_insert x s <-> y = x \/ y ∈ s.
Proof.
  induction s as [|z s IH]; cbn [set_insert].
  - rewrite elem_of_cons. split; intros [?|?]; auto.
  - destruct (CPUID_lt x z) eqn:Hxz.
    { rewrite elem_of_cons. tauto. }
    destruct (CPUID_lt z x) eqn:Hzx.
    + rewrite !elem_of_cons, IH. tauto.
    + rewrite (CPUID_lt_total _ _ Hxz Hzx), elem_of_cons. tauto.
Qed.

Lemma set_insert_increasing (x : CPUID) (s : list CPUID) :
  increasing s -> increasing (set_insert x s).
Proof.
  induction s as [|z s IH]; cbn [set_insert increasing].
  - intros _. by repeat constructor.
  - intros [Hz Hs]. destruct (CPUID_lt x z) eqn:Hxz.
    { cbn [increasing]. split; [|done]. constructor; [done|].
      eapply Forall_impl; [exact Hz|]. intros w Hw. by eapply CPUID_lt_trans. }
    destruct (CPUID_lt z x) eqn:Hzx; [|done].
    cbn [increasing]. split; [|by apply IH]. apply Forall_forall. intros w Hw.
    apply set_insert_elem in Hw as [->|Hw]; [done|].
    rewrite Forall_forall in Hz. by apply Hz.
Qed.

(** X2.  [get_cpuinfo_sysfs] keeps the set a set: the result is
    increasing for [operator<], so it has no two equal CPUIDs, and it holds
    what [res] held and the CPUID of every directory whose name starts with
    cpu and whose midr_el1 could be read, and nothing else.  When the
    directory cannot be opened, [res] is returned as it is. *)
Theorem get_cpuinfo_sysfs_set (entries : list dirent) (res : list CPUID) :
  increasing res ->
  increasing (get_cpuinfo_sysfs (Some entries) res) /\
  (forall x, x ∈ get_cpuinfo_sysfs (Some entries) res <->
     x ∈ res \/ exists entry val,
       entry ∈ entries /\ read_from entry val /\ x = cpuid_of_midr val) /\
  get_cpuinfo_sysfs None res = res.
Proof.
  intros Hres. split; [|split; [|done]].
  - cbn [get_cpuinfo_sysfs]. revert res Hres.
    induction entries as [|e entries IH]; intros res Hres; [done|].
    cbn [fold_left]. apply IH.
    destruct (d_type_is_dir e); cbn [negb]; [|done].
    destruct (String.prefix "cpu" (d_name e)); cbn [negb]; [|done].
    destruct (midr_el1 e); [|done]. by apply set_insert_increasing.
  - cbn [get_cpuinfo_sysfs]. clear Hres. revert res.
    induction entries as [|e entries IH]; intros res x.
    + cbn [fold_left]. split; [by left|]. intros [?|(e & v & He & _)]; [done|].
      by apply elem_of_nil in He.
    + cbn [fold_left]. rewrite IH. unfold read_from.
      destruct (d_type_is_dir e) eqn:Ed; cbn [negb];
        [destruct (String.prefix "cpu" (d_name e)) eqn:Ep; cbn [negb];
         [destruct (midr_el1 e) as [v|] eqn:Em|]|].
      * rewrite set_insert_elem. split.
        -- intros [[->|?]|(e' & v' & He' & Hr & ->)]; [|by left|].
           ++ right. exists e, v. split; [by left|]. by rewrite Ed, Ep, Em.
           ++ right. exists e', v'. split; [by right|]. done.
        -- intros [?|(e' & v' & [->|He']%elem_of_cons & Hr & ->)]; [by left; right| |].
           ++ destruct Hr as (_ & _ & Hr). rewrite Em in Hr.
              injection Hr as ->. by left; left.
           ++ right. by exists e', v'.
      * split.
        -- intros [?|(e' & v' & He' & Hr & ->)]; [by left|].
           right. exists e', v'. split; [by right|]. done.
        -- intros [?|(e' & v' & [->|He']%elem_of_cons & Hr & ->)]; [by left| |].
           ++ destruct Hr as (_ & _ & Hr). by rewrite Em in Hr.
           ++ right. by exists e', v'.
      * split.
        -- intros [?|(e' & v' & He' & Hr & ->)]; [by left|].
           right. exists e', v'. split; [by right|]. done.
        -- intros [?|(e' & v' & [->|He']%elem_of_cons & Hr & ->)]; [by left| |].
           ++ destruct Hr as (_ & Hr & _). by rewrite Ep in Hr.
           ++ right. by exists e', v'.
      * split.
        -- intros [?|(e' & v' & He' & Hr & ->)]; [by left|].
           right. exists e', v'. split; [by right|]. done.
        -- intros [?|(e' & v' & [->|He']%elem_of_cons & Hr & ->)]; [by left| |].
           ++ destruct Hr as (Hr & _ & _). by rewrite Ed in Hr.
           ++ right. by exists e', v'.
Qed.

(** X3.  The CPUID read from a MIDR_EL1 value has the implementer of bits
    31..24, the variant of bits 23..20 and the part of bits 15..4; the
    architecture and revision fields and everything above bit 31 are
    ignored. *)
Theorem cpuid_of_midr_fields (hi i v a p r : Z) :
  0 <= hi -> 0 <= i < 2 ^ 8 -> 0 <= v < 2 ^ 4 -> 0 <= a < 2 ^ 4 ->
  0 <= p < 2 ^ 12 -> 0 <= r < 2 ^ 4 ->
  cpuid_of_midr (hi * 2 ^ 32 + i * 2 ^ 24 + v * 2 ^ 20 + a * 2 ^ 16
                 + p * 2 ^ 4 + r) = mkCPUID i v p.
Proof.
  intros Hhi Hi Hv Ha Hp Hr. unfold cpuid_of_midr.
  change 0xf with (Z.ones 4). change 0xfff with (Z.ones 12).
  rewrite !Z.land_ones, !Z.shiftr_div_pow2 by lia.
  set (val := hi * 2 ^ 32 + i * 2 ^ 24 + v * 2 ^ 20 + a * 2 ^ 16 + p * 2 ^ 4 + r).
  assert (val / 2 ^ 24 = hi * 2 ^ 8 + i) as ->.
  { symmetry. apply (Z.div_unique _ _ _ (v * 2 ^ 20 + a * 2 ^ 16 + p * 2 ^ 4 + r));
      unfold val; lia. }
  assert (val / 2 ^ 20 = (hi * 2 ^ 8 + i) * 2 ^ 4 + v) as ->.
  { symmetry. apply (Z.div_unique _ _ _ (a * 2 ^ 16 + p * 2 ^ 4 + r));
      unfold val; lia. }
  assert (val / 2 ^ 4 = ((hi * 2 ^ 8 + i) * 2 ^ 8 + v * 2 ^ 4 + a) * 2 ^ 12 + p) as ->.
  { symmetry. apply (Z.div_unique _ _ _ r); unfold val; lia. }
  f_equal.
  - symmetry. apply (Z.mod_unique _ _ hi); lia.
  - rewrite (Z.mod_small (_ mod 2 ^ 4)) by (pose proof (Z.mod_pos_bound
      ((hi * 2 ^ 8 + i) * 2 ^ 4 + v) (2 ^ 4)); lia).
    symmetry. apply (Z.mod_unique _ _ (hi * 2 ^ 8 + i)); lia.
  - rewrite (Z.mod_small (_ mod 2 ^ 12)) by (pose proof (Z.mod_pos_bound
      (((hi * 2 ^ 8 + i) * 2 ^ 8 + v * 2 ^ 4 + a) * 2 ^ 12 + p) (2 ^ 12)); lia).
    symmetry. apply (Z.mod_unique _ _ ((hi * 2 ^ 8 + i) * 2 ^ 8 + v * 2 ^ 4 + a)); lia.
Qed.

(** The Cortex-A53 r0p4, whose MIDR_EL1 is 0x410fd034. *)
Lemma cpuid_of_midr_fields_witness :
  cpuid_of_midr 0x410fd034 = mkCPUID 0x41 0 0xd03.
Proof.
  apply (cpuid_of_midr_fields 0 0x41 0 0xf 0xd03 4); lia.
Defined.

(** ** The CPU of a CPUID *)

Lemma switch_ind {A : Type} (P : A -> Prop) (x : Z) (cases : list (Z * A))
    (default : A) :
  P default -> Forall (fun c => P c.2) cases -> P (switch x cases default).
Proof.
  intros Hd Hc. unfold switch.
  destruct (List.find _ cases) as [c|] eqn:Hf; [|done].
  apply find_some in Hf as [Hin _]. rewrite Forall_forall in Hc.
  apply Hc. by apply list_elem_of_In.
Qed.

Ltac switch_cases P tac :=
  repeat first
    [ apply (switch_ind P)
    | apply Forall_nil
    | apply Forall_cons; split; cbn [snd]
    | match goal with
      | |- P (if ?b then _ else _) => destruct b
      end ];
  tac.

(** X4.  [get_cpu_name] returns [CPU::generic] or a CPU that is not one of
    the architecture names [is_generic_cpu_name] lists: the test
    [name == 0] of [_get_host_cpu] is the only one an unrecognized core
    needs. *)
Theorem get_cpu_name_generic_or_specific (cpuid : CPUID) :
  get_cpu_name cpuid = CPU.generic \/
  is_generic_cpu_name (CPU.id (get_cpu_name cpuid)) = false.
Proof.
  pose (P := fun c : CPU.t =>
               c = CPU.generic \/ is_generic_cpu_name (CPU.id c) = false).
  change (P (get_cpu_name cpuid)). unfold get_cpu_name.
  switch_cases P ltac:(first [done | by left | by right]).
Qed.

(** ** Host discovery on Linux *)

Lemma FL_and_r_subset (A B : FeatureList) : FL_subset (FL_and A B) B.
Proof.
  unfold FL_subset, FL_and. cbn. f_equal;
    rewrite <- Z.land_assoc, Z.land_diag; done.
Qed.

Lemma elem_of_snoc {A : Type} (l : list A) (x y : A) :
  y ∈ l ++ [x] <-> y ∈ l \/ y = x.
Proof. by rewrite elem_of_app, list_elem_of_singleton. Qed.

Section linux_facts.
Context `{Header}.

Lemma check_cpu_arch_ver_elf (cpu : Z) :
  check_cpu_arch_ver cpu get_elf_arch = bool_decide (is_Some (find_cpu_id cpu)).
Proof.
  unfold check_cpu_arch_ver. destruct (find_cpu_id cpu) as [s|].
  - rewrite bool_decide_eq_true_2 by done. done.
  - rewrite bool_decide_eq_false_2; [done|]. by intros [? ?].
Qed.

Lemma scan_step_inv (seen : list CPUID) (st : host_scan) (info : CPUID) :
  scan_inv seen st ->
  exists st', scan_step get_elf_arch st info = Some st' /\
              scan_inv (seen ++ [info]) st'.
Proof.
  intros (Hinit & Hzero & Hbits & Hcpus & Hlist & Hall).
  unfold scan_step. fold (core_name info).
  destruct (Z.eqb_spec (core_name info) 0) as [Hn0|Hn0].
  { (* an unrecognized core *)
    eexists. split; [done|]. unfold scan_inv.
  cbn [extra_initialized extra_features scan_cpus scan_list].
    split; [|split; [done|split; [|split; [|split]]]].
    - split; [|done]. intros _. exists info. split; [|by left].
      apply elem_of_app. right. by left.
    - intros b. split.
      + intros Hb. exfalso. destruct (extra_initialized st) eqn:Ei.
        * by rewrite test_nbit_zero in Hb.
        * rewrite Hzero, test_nbit_zero in Hb; done.
      + intros (_ & Hno & _). destruct (Hno info); [|done].
        apply elem_of_app. right. by left.
    - intros n. rewrite Hcpus. split.
      + intros (i & Hi & Hk & Hnm). exists i. split; [|done].
        apply elem_of_app. by left.
      + intros (i & [Hi|Hi]%elem_of_snoc & Hk & Hnm).
        * by exists i.
        * subst i. by destruct Hk.
    - intros e He. destruct (Hlist e He) as (? & ? & ?).
      split; [done|]. split; [|done]. apply elem_of_app. by left.
    - intros i [Hi|Hi]%elem_of_snoc Hk.
      + by apply Hall.
      + subst i. by destruct Hk. }
  rewrite check_cpu_arch_ver_elf.
  destruct (find_cpu_id (core_name info)) as [s|] eqn:Hs.
  2:{ (* a core the catalog does not have *)
    rewrite bool_decide_eq_false_2 by (by intros [? ?]). cbn [negb].
    exists st. split; [done|]. unfold scan_inv.
    assert (~ known_core info) as Hnk.
    { intros [_ [? Hk]]. by rewrite Hs in Hk. }
    split; [|split; [done|split; [|split; [|split]]]].
    - rewrite Hinit. split.
      + intros (i & Hi & Hc). exists i. split; [|done]. apply elem_of_app. by left.
      + intros (i & [Hi|Hi]%elem_of_snoc & Hc).
        * by exists i.
        * subst i. destruct Hc as [?|?]; done.
    - intros b. rewrite Hbits. split.
      + intros (Hi & Hno & Hsp). split; [done|]. split.
        * intros i [?| ->]%elem_of_snoc; [by apply Hno|done].
        * intros i s' [?| ->]%elem_of_snoc Hs'.
          -- by eapply Hsp.
          -- by rewrite Hs in Hs'.
      + intros (Hi & Hno & Hsp). split; [done|]. split.
        * intros i Hi'. apply Hno. apply elem_of_app. by left.
        * intros i s' Hi'. apply Hsp. apply elem_of_app. by left.
    - intros n. rewrite Hcpus. split.
      + intros (i & Hi & Hk & Hnm). exists i. split; [|done].
        apply elem_of_app. by left.
      + intros (i & [Hi|Hi]%elem_of_snoc & Hk & Hnm).
        * by exists i.
        * by subst i.
    - intros e He. destruct (Hlist e He) as (? & ? & ?).
      split; [done|]. split; [|done]. apply elem_of_app. by left.
    - intros i [Hi|Hi]%elem_of_snoc Hk.
      + by apply Hall.
      + by subst i. }
  rewrite bool_decide_eq_true_2 by done. cbn [negb].
  assert (known_core info) as Hk by (split; [done|by rewrite Hs]).
  case_bool_decide as Hdup.
  { (* a core of a name that was seen *)
    exists st. split; [done|]. unfold scan_inv.
    apply Hcpus in Hdup as (i0 & Hi0 & Hk0 & Hnm0).
    split; [|split; [done|split; [|split; [|split]]]].
    - rewrite Hinit. split.
      + intros (i & Hi & Hc). exists i. split; [|done]. apply elem_of_app. by left.
      + intros _. exists i0. split; [done|by right].
    - intros b. rewrite Hbits. split.
      + intros (Hi & Hno & Hsp). split; [done|]. split.
        * intros i [?| ->]%elem_of_snoc; [by apply Hno|done].
        * intros i s' [?| ->]%elem_of_snoc Hs'.
          -- by eapply Hsp.
          -- apply (Hsp i0); [done|]. by rewrite Hnm0.
      + intros (Hi & Hno & Hsp). split; [done|]. split.
        * intros i Hi'. apply Hno. apply elem_of_app. by left.
        * intros i s' Hi'. apply Hsp. apply elem_of_app. by left.
    - intros n. rewrite Hcpus. split.
      + intros (i & Hi & Hk' & Hnm). exists i. split; [|done].
        apply elem_of_app. by left.
      + intros (i & [Hi|Hi]%elem_of_snoc & Hk' & Hnm).
        * by exists i.
        * subst i. exists i0. split; [done|]. split; [done|]. congruence.
    - intros e He. destruct (Hlist e He) as (? & ? & ?).
      split; [done|]. split; [|done]. apply elem_of_app. by left.
    - intros i [Hi|Hi]%elem_of_snoc Hk'.
      + by apply Hall.
      + subst i. destruct (Hall i0 Hi0 Hk0) as (e & He & Hne).
        exists e. split; [done|]. congruence. }
  (* a core of a new name *)
  cbn [mbind option_bind]. eexists. split; [done|]. unfold scan_inv.
  cbn [extra_initialized extra_features scan_cpus scan_list].
  split; [|split; [done|split; [|split; [|split]]]].
  - split; [|done]. intros _. exists info. split; [|by right].
    apply elem_of_app. right. by left.
  - intros b. destruct (extra_initialized st) eqn:Ei.
    + rewrite test_nbit_and, andb_true_iff, Hbits. split.
      * intros ((_ & Hno & Hsp) & HS). split; [done|]. split.
        -- intros i [?| ->]%elem_of_snoc; [by apply Hno|done].
        -- intros i s' [?| ->]%elem_of_snoc Hs'.
           ++ by eapply Hsp.
           ++ rewrite Hs in Hs'. by injection Hs' as <-.
      * intros (_ & Hno & Hsp). split.
        -- split; [done|]. split.
           ++ intros i Hi'. apply Hno. apply elem_of_app. by left.
           ++ intros i s' Hi'. apply Hsp. apply elem_of_app. by left.
        -- apply (Hsp info); [|done]. apply elem_of_app. right. by left.
    + assert (forall i, i ∈ seen -> core_name i <> 0 /\ ~ known_core i) as Hnone.
      { intros i Hi. split.
        - intros Hi0. assert (false = true) as [=].
          apply Hinit. exists i. split; [done|by left].
        - intros Hki. assert (false = true) as [=].
          apply Hinit. exists i. split; [done|by right]. }
      split.
      * intros HS. split; [done|]. split.
        -- intros i [Hi| ->]%elem_of_snoc; [|done].
           by apply Hnone.
        -- intros i s' [Hi| ->]%elem_of_snoc Hs'.
           ++ destruct (Hnone i Hi) as [Hi0 Hnk]. destruct Hnk.
              split; [done|]. by rewrite Hs'.
           ++ rewrite Hs in Hs'. by injection Hs' as <-.
      * intros (_ & _ & Hsp). apply (Hsp info); [|done].
        apply elem_of_app. right. by left.
  - intros n. rewrite elem_of_cons, Hcpus. split.
    + intros [->|(i & Hi & Hk' & Hnm)].
      * exists info. split; [|done]. apply elem_of_app. right. by left.
      * exists i. split; [|done]. apply elem_of_app. by left.
    + intros (i & [Hi|Hi]%elem_of_snoc & Hk' & Hnm).
      * right. by exists i.
      * subst i. by left.
  - intros e [He| ->]%elem_of_snoc.
    + destruct (Hlist e He) as (? & ? & ?).
      split; [done|]. split; [|done]. apply elem_of_app. by left.
    + cbn [fst snd]. split; [done|]. split; [|done]. apply elem_of_app. right. by left.
  - intros i [Hi|Hi]%elem_of_snoc Hk'.
    + destruct (Hall i Hi Hk') as (e & He & Hne). exists e.
      split; [|done]. apply elem_of_app. by left.
    + subst i. exists (core_name info, info). split; [|done].
      apply elem_of_app. right. by left.
Qed.

Lemma scan_cpuinfo_inv (cpuinfo seen : list CPUID) (st : host_scan) :
  scan_inv seen st ->
  exists st', scan_cpuinfo get_elf_arch cpuinfo st = Some st' /\
              scan_inv (seen ++ cpuinfo) st'.
Proof.
  revert seen st. induction cpuinfo as [|info cpuinfo IH]; intros seen st Hinv.
  - exists st. by rewrite app_nil_r.
  - destruct (scan_step_inv seen st info Hinv) as (st1 & Hst1 & Hinv1).
    destruct (IH _ _ Hinv1) as (st' & Hst' & Hinv').
    exists st'. cbn [scan_cpuinfo]. rewrite Hst1. cbn [mbind option_bind].
    split; [done|]. by rewrite <- app_assoc in Hinv'.
Qed.

Lemma scan_inv_init : scan_inv [] (mk_host_scan false FL_zero [] []).
Proof.
  unfold scan_inv. cbn. split; [|split; [done|split; [|split; [|split]]]].
  - split; [done|]. intros (i & Hi & _). by apply elem_of_nil in Hi.
  - intros b. rewrite test_nbit_zero. split; [done|]. by intros [? _].
  - intros n. split; [by intros ?%elem_of_nil|].
    intros (i & Hi & _). by apply elem_of_nil in Hi.
  - by intros e ?%elem_of_nil.
  - by intros i ?%elem_of_nil.
Qed.

End linux_facts.

Lemma shrink_big_little_sublist (lst : list (Z * CPUID)) (cpus : list CPU.t)
    (e : Z * CPUID) :
  e ∈ shrink_big_little lst cpus -> e ∈ lst.
Proof.
  rewrite shrink_big_little_kept. intros He%list_elem_of_In.
  apply filter_In in He as [He _]. by apply list_elem_of_In.
Qed.

Lemma shrink_big_little_nonempty (lst : list (Z * CPUID)) (cpus : list CPU.t) :
  lst <> [] -> shrink_big_little lst cpus <> [].
Proof.
  intros Hne. rewrite shrink_big_little_kept.
  destruct (max_index_spec cpus lst (-1)) as (Hlo & Hle & [Hm|(e & He & Hm)]).
  - rewrite List_filter_true; [done|]. intros x _. unfold kept. by rewrite Hm.
  - intros Hnil. assert (In e (List.filter (kept cpus (max_index cpus lst (-1))) lst))
      as Hin; [|by rewrite Hnil in Hin].
    apply filter_In. split; [by apply list_elem_of_In|].
    unfold kept. destruct (0 <=? _); [|done].
    apply bool_decide_eq_true. lia.
Qed.

(** X5.  [shrink_big_little] only removes entries, never removes the last
    one, and has nothing left to remove from its own result. *)
Theorem shrink_big_little_stable (lst : list (Z * CPUID)) (cpus : list CPU.t) :
  (forall e, e ∈ shrink_big_little lst cpus -> e ∈ lst) /\
  (shrink_big_little lst cpus = [] <-> lst = []) /\
  shrink_big_little (shrink_big_little lst cpus) cpus
    = shrink_big_little lst cpus.
Proof.
  split; [apply shrink_big_little_sublist|]. split.
  { split; [|by intros ->].
    intros Hnil. destruct lst as [|e lst]; [done|].
    by destruct (shrink_big_little_nonempty (e :: lst) cpus). }
  rewrite (shrink_big_little_kept (shrink_big_little lst cpus)).
  apply List_filter_true. intros x Hx.
  set (l' := shrink_big_little lst cpus) in *.
  destruct (max_index_spec cpus lst (-1)) as (Hlo & Hle & _).
  destruct (max_index_spec cpus l' (-1)) as (Hlo' & Hle' & Hm').
  assert (max_index cpus l' (-1) <= max_index cpus lst (-1)) as Hmm.
  { destruct Hm' as [->|(e & He & <-)]; [done|].
    apply Hle. by eapply shrink_big_little_sublist. }
  unfold l' in Hx. rewrite shrink_big_little_kept in Hx.
  apply list_elem_of_In, filter_In in Hx as [_ Hk].
  unfold kept in *. destruct (0 <=? max_index cpus l' (-1)) eqn:E'; [|done].
  apply Z.leb_le in E'.
  destruct (0 <=? max_index cpus lst (-1)) eqn:E; [|apply Z.leb_gt in E; lia].
  apply bool_decide_eq_true in Hk. apply bool_decide_eq_true. lia.
Qed.

Section linux_results.
Context `{Header}.

Lemma linux_get_host_cpu_unfold (hwcap hwcap2 : Z) (cpuinfo : list CPUID) :
  exists st,
    scan_inv cpuinfo st /\
    Linux._get_host_cpu hwcap hwcap2 cpuinfo =
      Some (match shrink_big_little (scan_list st) v8order with
            | [] => 0
            | ele :: _ => ele.1
            end,
            FL_and (FL_or (hwcap_features hwcap hwcap2) (extra_features st))
                   feature_masks).
Proof.
  destruct (scan_cpuinfo_inv cpuinfo [] _ scan_inv_init) as (st & Hst & Hinv).
  exists st. split; [done|].
  unfold Linux._get_host_cpu. cbv zeta. rewrite Hst. done.
Qed.

(** X6.  On Linux, [_get_host_cpu] returns for every HWCAP pair and every
    set of cores: it never follows a null [find_cpu] result.  The features
    it returns are inside [feature_masks].  The CPU it returns is
    [CPU::generic] exactly when no core is one that [get_cpu_name]
    recognizes and the catalog has; otherwise it is the name of such a
    core. *)
Theorem linux_get_host_cpu_returns (hwcap hwcap2 : Z) (cpuinfo : list CPUID) :
  exists cpu F,
    Linux._get_host_cpu hwcap hwcap2 cpuinfo = Some (cpu, F) /\
    FL_subset F feature_masks /\
    (cpu = CPU.id CPU.generic <->
     forall info, info ∈ cpuinfo -> ~ known_core info) /\
    (cpu <> CPU.id CPU.generic ->
     exists info, info ∈ cpuinfo /\ known_core info /\ cpu = core_name info).
Proof.
  destruct (linux_get_host_cpu_unfold hwcap hwcap2 cpuinfo)
    as (st & (_ & _ & _ & _ & Hlist & Hall) & ->).
  eexists _, _. split; [done|]. split; [apply FL_and_r_subset|].
  change (CPU.id CPU.generic) with 0.
  destruct (shrink_big_little (scan_list st) v8order) as [|e l] eqn:Hshr.
  - assert (scan_list st = []) as Hnil.
    { destruct (scan_list st) as [|e l] eqn:El; [done|].
      by destruct (shrink_big_little_nonempty (e :: l) v8order). }
    split; [|done]. split; [|done]. intros _ info Hi Hk.
    destruct (Hall info Hi Hk) as (e & He & _).
    rewrite Hnil in He. by apply elem_of_nil in He.
  - assert (e ∈ scan_list st) as He.
    { apply (shrink_big_little_sublist _ v8order). rewrite Hshr. by left. }
    destruct (Hlist e He) as (He1 & He2 & He3).
    split.
    + split.
      * intros H0. destruct He3 as [He3 _]. by rewrite <- He1 in He3.
      * intros Hno. by destruct (Hno e.2).
    + intros _. by exists e.2.
Qed.

(** X7.  On Linux, a feature is a host feature exactly when the file has
    it in [feature_masks] and either the kernel reports it (HWCAP, HWCAP2
    and [pauth] for HWCAP_PACG) or the cores vouch for it: every core is
    recognized, at least one is in the catalog, and the catalog entry of
    every core that has one lists the feature.  One unrecognized core
    leaves the kernel's word alone. *)
Theorem linux_get_host_cpu_features (hwcap hwcap2 : Z) (cpuinfo : list CPUID) :
  exists cpu F,
    Linux._get_host_cpu hwcap hwcap2 cpuinfo = Some (cpu, F) /\
    forall b, test_nbit F b = true <->
      test_nbit feature_masks b = true /\
      (test_nbit (hwcap_features hwcap hwcap2) b = true \/
       (exists info, info ∈ cpuinfo /\ known_core info) /\
       (forall info, info ∈ cpuinfo -> core_name info <> 0) /\
       (forall info s, info ∈ cpuinfo ->
          find_cpu_id (core_name info) = Some s ->
          test_nbit (spec_features s) b = true)).
Proof.
  destruct (linux_get_host_cpu_unfold hwcap hwcap2 cpuinfo)
    as (st & (Hinit & _ & Hbits & _) & ->).
  eexists _, _. split; [done|]. intros b.
  rewrite test_nbit_and, test_nbit_or, andb_true_iff, orb_true_iff, Hbits, Hinit.
  split.
  - intros [[Hhw|((i & Hi & Hc) & Hno & Hsp)] Hm]; (split; [done|]); [by left|].
    right. split; [|done]. exists i. split; [done|].
    destruct Hc as [Hc|Hc]; [|done]. by destruct (Hno i).
  - intros [Hm [Hhw|((i & Hi & Hk) & Hno & Hsp)]]; (split; [|done]); [by left|].
    right. split; [|done]. exists i. split; [done|]. by right.
Qed.

End linux_results.

(** ** Architecture, vector width and FMA *)

(** X8.  Whatever the architecture, [generic_for_arch] returns a CPU that
    [is_generic_cpu_name] accepts, in the AArch64 build and in the AArch32
    build. *)
Theorem generic_for_arch_is_generic `{AArch32.Header} `{AArch32Host.Build}
    (arch : arm_arch) :
  is_generic_cpu_name (CPU.id (generic_for_arch arch)) = true /\
  is_generic_cpu_name (CPU.id (AArch32Host.generic_for_arch arch)) = true.
Proof.
  split; [done|]. unfold AArch32Host.generic_for_arch.
  repeat match goal with
         | |- context [if ?b then _ else _] => destruct b
         end; done.
Qed.

Section arch32_facts.
Context `{AArch32.Header} `{AArch32Host.Build}.
Hypothesis Hok : AArch32.header_ok.

Lemma has32_set_bit (F : FeatureList) (b f : AArch32.id) :
  has AArch32.bit (set_bit F (AArch32.bit b) true) f
    = bool_decide (f = b) || has AArch32.bit F f.
Proof. apply has_set_bit; apply Hok. Qed.

(** X9.  The architecture bits [_get_host_cpu] records are the ones
    [feature_arch_version] reads: for version 7 or 8 and a profile among
    M, R, A and none, on a vector that has none of the five bits, the
    round trip gives the architecture back. *)
Theorem feature_arch_version_of_host_arch (F : FeatureList) (arch : arm_arch) :
  version arch = 7 \/ version arch = 8 ->
  klass arch ∈ ["M"%char; "R"%char; "A"%char; Ascii.zero] ->
  (forall f, f ∈ [AArch32.v7; AArch32.v8; AArch32.mclass; AArch32.rclass;
                  AArch32.aclass] -> has AArch32.bit F f = false) ->
  AArch32Host.feature_arch_version (AArch32Host.host_arch_features F arch)
    = arch.
Proof.
  intros Hv Hk HF.
  assert (has AArch32.bit F AArch32.v7 = false) as H7
    by (apply HF; repeat constructor).
  assert (has AArch32.bit F AArch32.v8 = false) as H8
    by (apply HF; repeat constructor).
  assert (has AArch32.bit F AArch32.mclass = false) as Hm
    by (apply HF; repeat constructor).
  assert (has AArch32.bit F AArch32.rclass = false) as Hr
    by (apply HF; repeat constructor).
  assert (has AArch32.bit F AArch32.aclass = false) as Ha
    by (apply HF; repeat constructor).
  destruct arch as [v k]. cbn [version klass] in *.
  unfold AArch32Host.feature_arch_version, AArch32Host.host_arch_features.
  cbn [version klass].
  repeat (apply elem_of_cons in Hk as [->|Hk]);
    [ | | | | by apply elem_of_nil in Hk];
    destruct Hv as [-> | ->]; cbn [Z.leb Z.eqb Z.compare Pos.compare
      Pos.compare_cont Pos.eqb Ascii.eqb Bool.eqb Ascii.zero];
    repeat match goal with
           | |- context [test_nbit ?X (AArch32.bit ?f)] =>
               change (test_nbit X (AArch32.bit f)) with (has AArch32.bit X f)
           end;
    rewrite ?has32_set_bit, ?H7, ?H8, ?Hm, ?Hr, ?Ha; done.
Qed.

(** X10.  In the AArch32 build a vector with more features never has a
    smaller [max_vector_size], and the size is 8 or 16. *)
Theorem aarch32_max_vector_size_monotone (F G : FeatureList) :
  FL_subset F G ->
  AArch32Host.max_vector_size F <= AArch32Host.max_vector_size G /\
  (AArch32Host.max_vector_size F = 8 \/ AArch32Host.max_vector_size F = 16).
Proof.
  intros Hs. unfold AArch32Host.max_vector_size.
  destruct (test_nbit F (AArch32.bit AArch32.neon)) eqn:EF.
  - rewrite (FL_subset_test _ _ _ Hs EF). split; [done|by right].
  - split; [|by left]. destruct (test_nbit G _); done.
Qed.


End arch32_facts.

Section vector_facts.
Context `{Header}.

(** X12.  In the AArch64 build a vector with more features never has a
    smaller [max_vector_size], and the size is 16, 128 or 256. *)
Theorem max_vector_size_monotone (F G : FeatureList) :
  FL_subset F G ->
  max_vector_size F <= max_vector_size G /\
  max_vector_size F ∈ [16; 128; 256].
Proof.
  intros Hs. unfold max_vector_size.
  destruct (test_nbit F (bit sve2)) eqn:E2.
  { rewrite (FL_subset_test _ _ _ Hs E2). split; [done|]. repeat constructor. }
  destruct (test_nbit F (bit sve)) eqn:E1.
  { rewrite (FL_subset_test _ _ _ Hs E1). split; [|repeat constructor].
    by destruct (test_nbit G (bit sve2)). }
  split; [|repeat constructor].
  destruct (test_nbit G (bit sve2)); [done|]. by destruct (test_nbit G (bit sve)).
Qed.

End vector_facts.

(** ** The FPCR of the AArch64 build *)

Lemma not64_testbit (x n : Z) :
  0 <= n -> Z.testbit (not64 x) n = negb (Z.testbit x n) && bool_decide (n < 64).
Proof.
  intros Hn. unfold not64. change (2 ^ 64 - 1) with (Z.ones 64).
  rewrite Z.land_spec, Z.lnot_spec by done.
  destruct (decide (n < 64)).
  - rewrite Z.ones_spec_low, bool_decide_eq_true_2 by lia. done.
  - rewrite Z.ones_spec_high, bool_decide_eq_false_2 by lia. done.
Qed.

Lemma testbit_u64_high (w n : Z) : 0 <= w < 2 ^ 64 -> 64 <= n -> Z.testbit w n = false.
Proof.
  intros Hw Hn. destruct (decide (w = 0)) as [->|]; [apply Z.bits_0|].
  apply Z.bits_above_log2; [lia|].
  assert (Z.log2 w < 64); [|lia]. apply Z.log2_lt_pow2; lia.
Qed.

Lemma fpcr_get_bit (fpcr k : Z) :
  0 <= k ->
  (if negb (Z.land fpcr (Z.shiftl 1 k) =? 0) then 1 else 0)
    = Z.b2z (Z.testbit fpcr k).
Proof. intros Hk. rewrite land_shiftl_1 by done. by destruct (Z.testbit fpcr k). Qed.

Section fpcr_facts.
Context `{Header} `{Host}.

Lemma jl_test_cpu_feature_total (feature : Z) :
  is_Some (jl_test_cpu_feature feature).
Proof.
  unfold jl_test_cpu_feature, feature_sz.
  destruct (Z.leb_spec (32 * 3) (feature mod 2 ^ 64)) as [|Hlt]; [done|].
  pose proof (Z.mod_pos_bound feature (2 ^ 64) ltac:(lia)) as Hb.
  assert (feature mod 2 ^ 32 = feature mod 2 ^ 64) as ->.
  { pose proof (Z.div_mod feature (2 ^ 64) ltac:(lia)) as Hd.
    symmetry.
    apply (Z.mod_unique feature (2 ^ 32) (feature / 2 ^ 64 * 2 ^ 32)); lia. }
  unfold test_nbit_ptr, read_u32.
  destruct (bit_word_cases (feature mod 2 ^ 64) ltac:(lia))
    as [(_ & -> & _)|[(_ & -> & _)|(_ & -> & _)]]; done.
Qed.

Lemma jl_get_zero_subnormals_bit (fpcr : Z) :
  (jl_get_zero_subnormals fpcr).1 = Z.b2z (Z.testbit fpcr 24).
Proof. apply fpcr_get_bit. done. Qed.

Lemma jl_get_default_nans_bit (fpcr : Z) :
  (jl_get_default_nans fpcr).1 = Z.b2z (Z.testbit fpcr 25).
Proof. apply fpcr_get_bit. done. Qed.

(** The bits [jl_set_zero_subnormals] writes. *)
Lemma fz_mask_testbit (t n : Z) :
  0 <= n ->
  Z.testbit (Z.lor fpcr_fz_mask (if negb (t =? 0) then fpcr_fz16_mask else 0)) n
    = bool_decide (n = 24) || (negb (t =? 0) && bool_decide (n = 19)).
Proof.
  intros Hn. unfold fpcr_fz_mask, fpcr_fz16_mask.
  rewrite Z.lor_spec, shiftl_1_testbit by done.
  destruct (negb (t =? 0)); [by rewrite shiftl_1_testbit|].
  by rewrite Z.bits_0.
Qed.

(** X13.  Setting flush-to-zero reports success and is read back: after
    [jl_set_zero_subnormals(isZero)], [jl_get_zero_subnormals] returns 1
    for a nonzero [isZero] and 0 for 0.  The call changes bit 24 of the
    FPCR, and bit 19 when the host has fullfp16, and no other bit; in
    particular [jl_get_default_nans] returns what it returned before. *)
Theorem jl_set_zero_subnormals_round_trip (isZero fpcr : Z) :
  0 <= fpcr < 2 ^ 64 ->
  exists fpcr',
    jl_set_zero_subnormals isZero fpcr = Some (0, fpcr') /\
    (jl_get_zero_subnormals fpcr').1 = (if isZero =? 0 then 0 else 1) /\
    (jl_get_default_nans fpcr').1 = (jl_get_default_nans fpcr).1 /\
    (forall n, 0 <= n -> n <> 24 -> n <> 19 ->
               Z.testbit fpcr' n = Z.testbit fpcr n) /\
    (jl_test_cpu_feature JL_AArch64_fullfp16 = Some 0 ->
     Z.testbit fpcr' 19 = Z.testbit fpcr 19).
Proof.
  intros Hf. unfold jl_set_zero_subnormals, get_fpcr_aarch64, set_fpcr_aarch64.
  destruct (jl_test_cpu_feature_total JL_AArch64_fullfp16) as [t Ht].
  rewrite Ht. cbn [mbind option_bind].
  set (mask := Z.lor fpcr_fz_mask (if negb (t =? 0) then fpcr_fz16_mask else 0)).
  eexists. split; [done|].
  assert (forall n, 0 <= n ->
            Z.testbit (if negb (isZero =? 0) then Z.lor fpcr mask
                       else Z.land fpcr (not64 mask)) n
            = if bool_decide (n = 24) || (negb (t =? 0) && bool_decide (n = 19))
              then negb (isZero =? 0) else Z.testbit fpcr n) as Hbits.
  { intros n Hn. destruct (negb (isZero =? 0)).
    - rewrite Z.lor_spec. unfold mask. rewrite fz_mask_testbit by done.
      destruct (bool_decide (n = 24) || _); [apply orb_true_r|apply orb_false_r].
    - rewrite Z.land_spec, not64_testbit by done. unfold mask.
      rewrite fz_mask_testbit by done.
      destruct (bool_decide (n = 24) || _); [apply andb_false_r|].
      cbn [negb andb].
      case_bool_decide; [apply andb_true_r|].
      rewrite andb_false_r. symmetry. apply testbit_u64_high; [done|lia]. }
  rewrite !jl_get_zero_subnormals_bit, !jl_get_default_nans_bit.
  rewrite !Hbits by lia.
  rewrite (bool_decide_eq_true_2 (24 = 24)) by done.
  rewrite (bool_decide_eq_false_2 (25 = 24)), (bool_decide_eq_false_2 (25 = 19))
    by done.
  rewrite andb_false_r. cbn [orb].
  split; [by destruct (isZero =? 0)|]. split; [by rewrite andb_false_r|]. split.
  - intros n Hn H24 H19. rewrite Hbits by done.
    rewrite !bool_decide_eq_false_2 by done. by rewrite andb_false_r.
  - by intros [= ->].
Qed.

(** X14.  Setting default-NaN reports success and is read back: after
    [jl_set_default_nans(isDefault)], [jl_get_default_nans] returns 1 for a
    nonzero [isDefault] and 0 for 0.  The call changes bit 25 of the FPCR
    and no other bit; in particular [jl_get_zero_subnormals] returns what
    it returned before. *)
Theorem jl_set_default_nans_round_trip (isDefault fpcr : Z) :
  0 <= fpcr < 2 ^ 64 ->
  (jl_set_default_nans isDefault fpcr).1 = 0 /\
  (jl_get_default_nans (jl_set_default_nans isDefault fpcr).2).1
    = (if isDefault =? 0 then 0 else 1) /\
  (jl_get_zero_subnormals (jl_set_default_nans isDefault fpcr).2).1
    = (jl_get_zero_subnormals fpcr).1 /\
  (forall n, 0 <= n -> n <> 25 ->
     Z.testbit (jl_set_default_nans isDefault fpcr).2 n = Z.testbit fpcr n).
Proof.
  intros Hf. unfold jl_set_default_nans, get_fpcr_aarch64, set_fpcr_aarch64.
  cbn [fst snd]. split; [done|].
  assert (forall n, 0 <= n ->
            Z.testbit (if negb (isDefault =? 0) then Z.lor fpcr fpcr_dn_mask
                       else Z.land fpcr (not64 fpcr_dn_mask)) n
            = if bool_decide (n = 25) then negb (isDefault =? 0)
              else Z.testbit fpcr n) as Hbits.
  { intros n Hn. unfold fpcr_dn_mask. destruct (negb (isDefault =? 0)).
    - rewrite Z.lor_spec, shiftl_1_testbit by done.
      destruct (bool_decide _); [apply orb_true_r|apply orb_false_r].
    - rewrite Z.land_spec, not64_testbit, shiftl_1_testbit by done.
      destruct (bool_decide (n = 25)); [apply andb_false_r|]. cbn [negb andb].
      case_bool_decide; [apply andb_true_r|].
      rewrite andb_false_r. symmetry. apply testbit_u64_high; [done|lia]. }
  rewrite !jl_get_zero_subnormals_bit, !jl_get_default_nans_bit.
  rewrite !Hbits by lia.
  rewrite (bool_decide_eq_true_2 (25 = 25)) by done.
  rewrite (bool_decide_eq_false_2 (24 = 25)) by done.
  split; [by destruct (isDefault =? 0)|]. split; [done|].
  intros n Hn H25. rewrite Hbits by done. by rewrite bool_decide_eq_false_2.
Qed.

End fpcr_facts.

(** ** The command line and the catalog *)

Section cmdline_facts.
Context `{Header}.
Variable find_feature_bit : list FeatureName -> string -> Z.

(** X15.  The feature callback of the command line parser never clears a
    bit of the list, leaves the list as it is when it rejects a name, and
    accepts crypto whatever the feature table holds, as aes and sha2. *)
Theorem feature_cb_only_adds (str : string) (lst : FeatureList) :
  FL_subset lst (feature_cb find_feature_bit str lst).2 /\
  ((feature_cb find_feature_bit str lst).1 = false ->
   (feature_cb find_feature_bit str lst).2 = lst) /\
  (feature_cb find_feature_bit "crypto" lst).1 = true /\
  (header_ok -> forall f,
     mem (feature_cb find_feature_bit "crypto" lst).2 f
       = bool_decide (f ∈ [aes; sha2]) || mem lst f).
Proof.
  split; [|split; [|split; [done|]]].
  - unfold feature_cb. destruct (String.eqb str "crypto"); cbn [snd].
    + eapply FL_subset_trans; apply FL_subset_set_bit.
    + destruct (_ =? UINT32_MAX); cbn [snd];
        [apply FL_subset_refl|apply FL_subset_set_bit].
  - unfold feature_cb. destruct (String.eqb str "crypto"); [done|].
    by destruct (_ =? UINT32_MAX).
  - intros Hok f. unfold feature_cb. cbn [String.eqb Ascii.eqb Bool.eqb snd].
    rewrite !(mem_set_bit Hok).
    rewrite (bool_decide_ext (f ∈ [aes; sha2]) (f = aes \/ f = sha2)).
    + repeat case_bool_decide; simpl; try done; tauto.
    + rewrite !elem_of_cons. split; [|tauto].
      intros [?|[?|?%elem_of_nil]]; tauto.
Qed.

End cmdline_facts.

Section catalog_facts.
Context `{Header}.

Lemma cpus_lookups :
  Forall (fun s => find_cpu (spec_name s) = Some s /\
                   find_cpu_id (CPU.id (spec_cpu s)) = Some s) cpus.
Proof. unfold cpus. repeat (apply List.Forall_cons; [by split|]). done. Qed.

Lemma find_cpu_Some (name : string) (s : CPUSpec) :
  find_cpu name = Some s -> s ∈ cpus /\ spec_name s = name.
Proof.
  unfold find_cpu. intros [Hin Heq]%find_some. split; [by apply list_elem_of_In|].
  by apply String.eqb_eq.
Qed.

Lemma find_cpu_id_Some (cpu : Z) (s : CPUSpec) :
  find_cpu_id cpu = Some s -> s ∈ cpus /\ CPU.id (spec_cpu s) = cpu.
Proof.
  unfold find_cpu_id. intros [Hin Heq]%find_some. split; [by apply list_elem_of_In|].
  by apply Z.eqb_eq.
Qed.

(** X16.  The catalog has one entry for a name and one for an id: the
    entry found by name is the one found by its id, whose name
    [find_cpu_name] gives back, and the entry found by id is the one found
    by its name.  An id the catalog does not have is named "generic". *)
Theorem catalog_round_trip (name : string) (cpu : Z) :
  match find_cpu name with
  | Some s =>
      spec_name s = name /\ find_cpu_id (CPU.id (spec_cpu s)) = Some s /\
      find_cpu_name (CPU.id (spec_cpu s)) = name
  | None => True
  end /\
  match find_cpu_id cpu with
  | Some s =>
      CPU.id (spec_cpu s) = cpu /\ find_cpu (spec_name s) = Some s /\
      find_cpu_name cpu = spec_name s
  | None => find_cpu_name cpu = "generic"
  end.
Proof.
  pose proof cpus_lookups as Hall. rewrite Forall_forall in Hall. split.
  - destruct (find_cpu name) as [s|] eqn:Hs; [|done].
    apply find_cpu_Some in Hs as [Hin <-].
    destruct (Hall s Hin) as [_ Hid]. unfold find_cpu_name. by rewrite Hid.
  - unfold find_cpu_name. destruct (find_cpu_id cpu) as [s|] eqn:Hs; [|done].
    apply find_cpu_id_Some in Hs as [Hin <-].
    by destruct (Hall s Hin) as [Hnm _].
Qed.

(** X17.  Every alias [normalize_cpu_name] knows stands for a name of the
    catalog that is not itself an alias.  So normalizing a target twice is
    normalizing it once, and no target [get_cmdline_targets] returns is
    named by an alias, whatever the parser and the feature lookup are. *)
Theorem normalize_cpu_name_catalog
    (find_feature_bit : list FeatureName -> string -> Z)
    (generic_get_cmdline_targets :
       string -> (string -> FeatureList -> bool * FeatureList) ->
       list TargetData)
    (alias cpu_target : string) (t : TargetData) :
  match normalize_cpu_name alias with
  | Some nname => normalize_cpu_name nname = None /\ is_Some (find_cpu nname)
  | None => True
  end /\
  normalize_target (normalize_target t) = normalize_target t /\
  Forall (fun t => normalize_cpu_name (name t) = None)
         (get_cmdline_targets find_feature_bit generic_get_cmdline_targets
            cpu_target).
Proof.
  assert (forall n nn, normalize_cpu_name n = Some nn ->
            normalize_cpu_name nn = None /\ is_Some (find_cpu nn)) as Hn.
  { intros n nn. unfold normalize_cpu_name.
    repeat match goal with
           | |- context [if String.eqb n ?s then _ else _] =>
               destruct (String.eqb n s)
           end; intros [= <-]; (split; [done|by eexists]). }
  assert (forall t, normalize_cpu_name (name (normalize_target t)) = None)
    as Hnt.
  { intros t'. unfold normalize_target.
    destruct (normalize_cpu_name (name t')) as [nn|] eqn:E; [|done].
    cbn [name]. by destruct (Hn _ _ E). }
  split; [|split].
  - destruct (normalize_cpu_name alias) eqn:E; [by eapply Hn|done].
  - unfold normalize_target at 1. by rewrite Hnt.
  - unfold get_cmdline_targets. apply Forall_fmap, Forall_forall.
    intros t' _. apply Hnt.
Qed.

End catalog_facts.

(** ** The backend string *)

Section emitter_facts.
Context `{Header} `{Processor}.

Lemma feature_strs_loop_tokens (names : list FeatureName)
    (F D : FeatureList) (acc : list string) :
  feature_strs_loop names F D acc =
    rev (plus_tokens F (visited names)) ++ acc
      ++ minus_tokens F D (visited names).
Proof.
  revert acc. induction names as [|n names IH]; intros acc.
  - cbn. by rewrite app_nil_r.
  - cbn [feature_strs_loop visited].
    destruct (JL_LLVM_VERSION <? fe_llvmver n); [apply IH|].
    destruct (32 * 2 <=? fe_bit n); [cbn; by rewrite app_nil_r|].
    unfold plus_tokens, minus_tokens in *. cbn [List.filter].
    destruct (test_nbit F (fe_bit n)) eqn:EF; cbn [negb andb].
    + rewrite IH. cbn [fmap list_fmap rev]. by rewrite <- !app_assoc.
    + destruct (test_nbit D (fe_bit n)) eqn:ED.
      * rewrite IH. cbn [fmap list_fmap]. by rewrite <- !app_assoc.
      * apply IH.
Qed.

(** X18.  The per-feature part of the backend feature list: the enabled
    features of the table come first, as +name in the reverse of the
    table's order, then the features that are disabled and not enabled, as
    -name in the table's order.  A feature the backend is too old for has
    no token, and neither has any feature from the first one on whose bit
    is 64 or more. *)
Theorem feature_strs_loop_order (names : list FeatureName) (F D : FeatureList) :
  feature_strs_loop names F D [] =
    rev (plus_tokens F (visited names)) ++ minus_tokens F D (visited names).
Proof. apply feature_strs_loop_tokens. Qed.

Ltac elem_of_cpus :=
  unfold cpus;
  repeat first [ apply list_elem_of_here | apply list_elem_of_further ].

Ltac fallback_chain :=
  rewrite fallback_loop_unfold; cbn [spec_llvmver spec_fallback];
  match goal with
  | |- context [?a <=? JL_LLVM_VERSION] =>
      destruct (Z.leb_spec a JL_LLVM_VERSION)
  end;
  [ eexists; split; [reflexivity|]; split; [elem_of_cpus|cbn [spec_llvmver]; lia]
  | first
      [ unfold UINT32_MAX in *; lia
      | match goal with
        | |- context [find_cpu_id (CPU.id ?c)] =>
            let r := eval cbv [find_cpu_id cpus List.find CPU.id spec_cpu
                                Z.eqb Pos.eqb fst]
                     in (find_cpu_id (CPU.id c)) in
            change (find_cpu_id (CPU.id c)) with r
        end;
        cbn [mbind option_bind]; fallback_chain ] ].

Lemma fallback_loop_catalog :
  0 <= JL_LLVM_VERSION ->
  Forall (fun spec =>
            exists s, fallback_loop ncpu_names spec = Some s /\
                      s ∈ cpus /\ spec_llvmver s <= JL_LLVM_VERSION) cpus.
Proof.
  intros HV. change ncpu_names with (S (S (S (S (S (S (S 67))))))).
  unfold cpus at 1.
  repeat (apply List.Forall_cons; [fallback_chain|]). done.
Qed.

Lemma push_if_app (F : FeatureList) (fe : Z) (s : string) (strs : list string) :
  exists suf, push_if F fe s strs = strs ++ suf /\
              Forall (fun t => String.prefix "+" t = String.prefix "+" s) suf.
Proof.
  unfold push_if. destruct (test_nbit F fe).
  - exists [s]. split; [done|]. by repeat constructor.
  - exists []. split; [by rewrite app_nil_r|]. constructor.
Qed.

(** The shape of what [get_llvm_target_noext] returns. *)
Lemma get_llvm_target_noext_shape (data : TargetData) :
  0 <= JL_LLVM_VERSION ->
  exists (spec : option CPUSpec) (F : FeatureList) (aliases : list string),
    get_llvm_target_noext data =
      Some (match spec with
            | Some s => if is_generic_cpu_name (CPU.id (spec_cpu s))
                        then "generic" else spec_name s
            | None => name data
            end,
            feature_strs_loop feature_names F (features (dis data)) []
              ++ aliases ++ ["+neon"; "+fp-armv8"]) /\
    (spec = None <-> find_cpu (name data) = None) /\
    (forall s, spec = Some s ->
       s ∈ cpus /\ spec_llvmver s <= JL_LLVM_VERSION) /\
    FL_subset (features (en data)) F /\
    Forall (fun t => String.prefix "+" t = true) aliases.
Proof.
  intros HV. unfold get_llvm_target_noext.
  assert (exists spec : option CPUSpec,
            match find_cpu (name data) with
            | Some spec => Some <$> fallback_loop ncpu_names spec
            | None => Some None
            end = Some spec /\
            (spec = None <-> find_cpu (name data) = None) /\
            (forall s, spec = Some s ->
               s ∈ cpus /\ spec_llvmver s <= JL_LLVM_VERSION))
    as (spec & -> & Hnone & Hspec).
  { destruct (find_cpu (name data)) as [s0|] eqn:Hf.
    - apply find_cpu_Some in Hf as [Hin _].
      pose proof (fallback_loop_catalog HV) as Hall.
      rewrite Forall_forall in Hall.
      destruct (Hall s0 Hin) as (s & -> & Hs & Hle).
      exists (Some s). split; [done|]. split; [done|].
      by intros ? [= <-].
    - exists None. done. }
  cbn [mbind option_bind].
  set (F0 := features (en data)).
  set (pr := match spec with
             | Some s =>
                 if is_generic_cpu_name (CPU.id (spec_cpu s))
                 then (FL_or F0 (spec_features s), "generic")
                 else (F0, match spec with
                           | Some s => spec_name s
                           | None => name data
                           end)
             | None => (F0, match spec with
                            | Some s => spec_name s
                            | None => name data
                            end)
             end).
  assert (exists F, pr = (F, match spec with
                             | Some s => if is_generic_cpu_name (CPU.id (spec_cpu s))
                                         then "generic" else spec_name s
                             | None => name data
                             end) /\ FL_subset F0 F) as (F & -> & HF).
  { unfold pr. destruct spec as [s|].
    - destruct (is_generic_cpu_name _).
      + eexists. split; [done|]. unfold FL_subset, FL_or, FL_and. cbn.
        by rewrite !land_lor_absorb; destruct F0.
      + eexists. split; [done|apply FL_subset_refl].
    - eexists. split; [done|apply FL_subset_refl]. }
  set (strs0 := feature_strs_loop feature_names F (features (dis data)) []).
  destruct (push_if_app F (bit v8_6a) "+v8.6a" strs0) as (a6 & -> & H6).
  destruct (push_if_app F (bit v8_5a) "+v8.5a" (strs0 ++ a6)) as (a5 & -> & H5).
  destruct (push_if_app F (bit v8_4a) "+v8.4a" ((strs0 ++ a6) ++ a5))
    as (a4 & -> & H4).
  destruct (push_if_app F (bit v8_3a) "+v8.3a" (((strs0 ++ a6) ++ a5) ++ a4))
    as (a3 & -> & H3).
  destruct (push_if_app F (bit v8_2a) "+v8.2a"
              ((((strs0 ++ a6) ++ a5) ++ a4) ++ a3)) as (a2 & -> & H2).
  destruct (push_if_app F (bit v8_1a) "+v8.1a"
              (((((strs0 ++ a6) ++ a5) ++ a4) ++ a3) ++ a2)) as (a1 & -> & H1').
  exists spec, F, (a6 ++ a5 ++ a4 ++ a3 ++ a2 ++ a1).
  split; [|split; [done|split; [done|split; [done|]]]].
  - rewrite <- !app_assoc. done.
  - repeat (apply Forall_app; split); done.
Qed.

(** X19.  For a backend version that is not negative,
    [get_llvm_target_noext] returns for every target: the fallback chain
    of every CPU of the catalog ends, inside the catalog, at a CPU the
    backend is not too old for.  The name it returns is the target's own
    when the catalog does not have it, and otherwise "generic" or the name
    of such a CPU.  The feature list ends with +neon and +fp-armv8. *)
Theorem get_llvm_target_noext_returns (data : TargetData) :
  0 <= JL_LLVM_VERSION ->
  exists nm strs,
    get_llvm_target_noext data = Some (nm, strs) /\
    (find_cpu (name data) = None -> nm = name data) /\
    (is_Some (find_cpu (name data)) ->
     nm = "generic" \/
     exists s, s ∈ cpus /\ spec_name s = nm /\
               spec_llvmver s <= JL_LLVM_VERSION) /\
    exists pre, strs = pre ++ ["+neon"; "+fp-armv8"].
Proof.
  intros HV.
  destruct (get_llvm_target_noext_shape data HV)
    as (spec & F & aliases & -> & Hnone & Hspec & _ & _).
  eexists _, _. split; [done|]. split; [|split].
  - intros Hf. apply Hnone in Hf. by subst spec.
  - intros [s0 Hs0]. destruct spec as [s|].
    + destruct (is_generic_cpu_name _); [by left|]. right.
      exists s. destruct (Hspec s eq_refl). done.
    + destruct Hnone as [Hnone _]. by rewrite Hnone in Hs0.
  - eexists. by rewrite app_assoc.
Qed.

End emitter_facts.

Lemma land_not32_diag (m : Z) : Z.land m (not32 m) = 0.
Proof.
  apply Z.bits_inj'. intros n Hn.
  rewrite Z.land_spec, not32_testbit, Z.bits_0 by done.
  by destruct (Z.testbit m n).
Qed.

Lemma FL_and_not_diag (M : FeatureList) : FL_and M (FL_not M) = FL_zero.
Proof. unfold FL_and, FL_not, FL_zero. cbn. by rewrite !land_not32_diag. Qed.

Lemma filter_false {A : Type} (f : A -> bool) (l : list A) :
  (forall x, f x = false) -> List.filter f l = [].
Proof.
  intros Hf. induction l as [|x l IH]; [done|]. cbn. by rewrite Hf.
Qed.

Section disasm_facts.
Context `{Header} `{Processor} `{Host}.

(** X20.  The disassembler target disables nothing: for a backend version
    that is not negative, [jl_get_llvm_disasm_target] returns, and every
    entry of the feature list its string is made of starts with +. *)
Theorem jl_get_llvm_disasm_target_enables :
  0 <= JL_LLVM_VERSION ->
  is_Some jl_get_llvm_disasm_target /\
  exists nm strs,
    get_llvm_target_noext disasm_target_data = Some (nm, strs) /\
    Forall (fun t => String.prefix "+" t = true) strs.
Proof.
  intros HV.
  destruct (get_llvm_target_noext_shape disasm_target_data HV)
    as (spec & F & aliases & Hres & _ & _ & _ & Hal).
  split.
  - unfold jl_get_llvm_disasm_target. fold disasm_target_data.
    unfold get_llvm_target_str. rewrite Hres. by eexists.
  - eexists _, _. split; [exact Hres|].
    rewrite feature_strs_loop_tokens.
    cbn [disasm_target_data dis features]. rewrite FL_and_not_diag.
    unfold minus_tokens. rewrite filter_false.
    2:{ intros x. by rewrite test_nbit_zero, andb_false_r. }
    cbn [fmap list_fmap app]. rewrite app_nil_r.
    repeat (apply Forall_app; split); [| done | by repeat constructor].
    apply Forall_forall. intros t Ht. apply list_elem_of_In, in_rev, list_elem_of_In in Ht.
    unfold plus_tokens in Ht. apply list_elem_of_fmap in Ht as (n & -> & _).
    cbn. by destruct (fe_name n).
Qed.

End disasm_facts.

(** ** The closures as least and greatest sets *)

Lemma land_lor_bit (x h k : Z) :
  0 <= k -> Z.land x h = x -> Z.testbit h k = true ->
  Z.land (Z.lor x (Z.shiftl 1 k)) h = Z.lor x (Z.shiftl 1 k).
Proof.
  intros Hk Hx Hh. apply Z.bits_inj'. intros n Hn.
  rewrite Z.land_spec, Z.lor_spec, shiftl_1_testbit by done.
  assert (Z.testbit x n && Z.testbit h n = Z.testbit x n) as Hxn
    by (by rewrite <- Z.land_spec, Hx).
  case_bool_decide as E; [subst n; rewrite Hh; apply andb_true_r|].
  by rewrite !orb_false_r.
Qed.

Lemma land_land_not_bit (x h k : Z) :
  0 <= k -> Z.land h UINT32_MAX = h -> Z.land h x = h ->
  Z.testbit h k = false ->
  Z.land h (Z.land x (not32 (Z.shiftl 1 k))) = h.
Proof.
  intros Hk Hu Hx Hh. apply Z.bits_inj'. intros n Hn.
  rewrite !Z.land_spec, not32_testbit, shiftl_1_testbit by done.
  assert (Z.testbit h n && Z.testbit x n = Z.testbit h n) as Hxn
    by (by rewrite <- Z.land_spec, Hx).
  assert (Z.testbit h n && bool_decide (n < 32) = Z.testbit h n) as Hun.
  { rewrite <- Hu at 2. rewrite Z.land_spec. f_equal.
    unfold UINT32_MAX. change 4294967295 with (Z.ones 32).
    case_bool_decide; [by rewrite Z.ones_spec_low by lia|
                       by rewrite Z.ones_spec_high by lia]. }
  destruct (decide (n = k)) as [->|E].
  - rewrite Hh. done.
  - rewrite (bool_decide_eq_false_2 (n = k)) by done. cbn [negb andb].
    rewrite andb_assoc, Hxn. done.
Qed.

Lemma FL_subset_set_bit_l (X Hs : FeatureList) (b : Z) :
  in_range b -> FL_subset X Hs -> test_nbit Hs b = true ->
  FL_subset (set_bit X b true) Hs.
Proof.
  intros Hb HX Ht. destruct (in_range_word b Hb) as [Hw Hm].
  rewrite test_nbit_testbit in Ht.
  apply FL_subset_words in HX as (H0 & H1 & H2). apply FL_subset_words.
  unfold set_bit, set_word, get_word in *. cbv zeta.
  revert Ht. case_eqb; cbn [w0 w1 w2]; intros Ht;
    repeat split; try done; apply land_lor_bit; (done || lia).
Qed.

Lemma u32_words_subset (A B : FeatureList) :
  u32_words B -> FL_subset A B -> u32_words A.
Proof.
  intros (U0 & U1 & U2) (H0 & H1 & H2)%FL_subset_words.
  repeat split; eapply land_trans; eauto.
Qed.

Lemma FL_subset_unset_bits_r (Hs X : FeatureList) (b : Z) :
  in_range b -> u32_words Hs -> FL_subset Hs X -> test_nbit Hs b = false ->
  FL_subset Hs (unset_bits X b).
Proof.
  intros Hb (U0 & U1 & U2) HX Ht. destruct (in_range_word b Hb) as [Hw Hm].
  rewrite test_nbit_testbit in Ht.
  apply FL_subset_words in HX as (H0 & H1 & H2). apply FL_subset_words.
  unfold unset_bits, set_word, get_word in *. cbv zeta.
  revert Ht. case_eqb; cbn [w0 w1 w2]; intros Ht;
    repeat split; try done; apply land_land_not_bit; (done || lia).
Qed.

Lemma set_all_least (bs : list Z) (X Hs : FeatureList) :
  Forall in_range bs -> FL_subset X Hs ->
  Forall (fun b => test_nbit Hs b = true) bs ->
  FL_subset (set_all X bs) Hs.
Proof.
  intros Hr. revert X. induction Hr as [|b bs Hb _ IH]; intros X HX Hbs; [done|].
  apply Forall_cons in Hbs as [Hb1 Hbs]. unfold set_all in *. cbn [fold_left].
  apply IH; [|done]. by apply FL_subset_set_bit_l.
Qed.

Lemma generic_enable_depends_least (ds : list FeatureDep) (F G Hs : FeatureList) :
  Forall (fun d => in_range (dep d)) ds ->
  generic_enable_depends F ds = Some G ->
  settled ds Hs -> FL_subset F Hs -> FL_subset G Hs.
Proof.
  intros Hr HG Hset HF. revert HG. unfold generic_enable_depends, enable_pass.
  apply (closure_loop_inv _ (fun X => FL_subset X Hs)); [|done].
  intros X d Hd Hfire HX. unfold fires in Hfire.
  apply andb_true_iff in Hfire as [Hf _].
  rewrite Forall_forall in Hr.
  apply FL_subset_set_bit_l; [by apply Hr|done|].
  apply Hset; [done|]. by eapply FL_subset_test.
Qed.

Lemma generic_disable_depends_greatest (ds : list FeatureDep)
    (F G Hs : FeatureList) :
  Forall (fun d => in_range (feature d)) ds -> u32_words Hs ->
  generic_disable_depends F ds = Some G ->
  settled ds Hs -> FL_subset Hs F -> FL_subset Hs G.
Proof.
  intros Hr Hu HG Hset HF. revert HG. unfold generic_disable_depends, disable_pass.
  apply (closure_loop_inv _ (fun X => FL_subset Hs X)); [|done].
  intros X d Hd Hfire HX. unfold fires in Hfire.
  apply andb_true_iff in Hfire as [_ Hf%negb_true_iff].
  rewrite Forall_forall in Hr.
  apply FL_subset_unset_bits_r; [by apply Hr|done|done|].
  destruct (test_nbit Hs (feature d)) eqn:E; [|done].
  rewrite <- Hf. symmetry. eapply FL_subset_test; [exact HX|]. by apply Hset.
Qed.

Section rule_least.
Context {I : Type} (bit : I -> Z).
Hypothesis bit_range : forall f : I, in_range (bit f).

Lemma run_rules_least (rules : list (list I * list I)) (X Hs : FeatureList) :
  closed_rules bit rules Hs -> FL_subset X Hs ->
  FL_subset (run_rules bit X rules) Hs.
Proof.
  revert X. induction rules as [|r rules IH]; intros X Hc HX; [done|].
  unfold run_rules in *. cbn [fold_left]. apply IH.
  { intros r' Hr'. apply Hc. by right. }
  unfold apply_rule. destruct (forallb (has bit X) r.1) eqn:Ep; [|done].
  apply set_all_least; [|done|].
  - apply Forall_fmap, Forall_forall. intros f _. apply bit_range.
  - apply Forall_fmap, Forall_forall. intros f Hf. apply (Hc r); [by left| |done].
    apply forallb_forall. intros a Ha. rewrite forallb_forall in Ep.
    eapply FL_subset_test; [exact HX|]. by apply Ep.
Qed.

End rule_least.

Section closure_order.
Context `{Header}.
Hypothesis Hok : header_ok.

(** X21.  What [enable_depends] returns is the least vector that holds
    [F] and every feature its own features imply: it is such a vector, and
    it is inside every other one.  So the closure is monotone, and
    [disable_depends] has nothing to remove from it. *)
Theorem enable_depends_least (F : FeatureList) :
  exists G,
    enable_depends F = Some G /\
    FL_subset F G /\ upward_closed G /\
    (forall Hs, upward_closed Hs -> FL_subset F Hs -> FL_subset G Hs) /\
    (forall F' G', FL_subset F' F -> enable_depends F' = Some G' ->
                   FL_subset G' G) /\
    disable_depends G = Some G.
Proof.
  assert (forall A B Hs, enable_depends A = Some B -> upward_closed Hs ->
            FL_subset A Hs -> FL_subset B Hs) as Hleast.
  { intros A B Hs HB [Hc Hset] HA. rewrite enable_depends_unfold in HB.
    eapply generic_enable_depends_least;
      [apply (deps_in_range Hok)|exact HB|done|].
    apply run_rules_least; [apply Hok|done|done]. }
  destruct (enable_depends_total Hok F) as (G & HG & Hsub).
  pose proof (enable_depends_closed Hok _ _ HG) as Hcl.
  exists G. split; [done|]. split; [done|]. split; [done|].
  split; [intros Hs ? ?; by apply (Hleast F G)|]. split.
  - intros F' G' HF' HG'. apply (Hleast F' G' G HG' Hcl).
    by eapply FL_subset_trans.
  - apply disable_depends_fixed. apply Hcl.
Qed.

(** X22.  What [disable_depends] returns is the greatest vector inside
    [F] in which every set feature has its prerequisites set: it is such a
    vector, and every other one is inside it. *)
Theorem disable_depends_greatest (F : FeatureList) :
  u32_words F ->
  exists G,
    disable_depends F = Some G /\
    FL_subset G F /\ settled deps G /\
    (forall Hs, settled deps Hs -> FL_subset Hs F -> FL_subset Hs G) /\
    disable_depends G = Some G.
Proof.
  intros Hu. destruct (disable_depends_total Hok F) as (G & HG & Hsub & Hset).
  exists G. split; [done|]. split; [done|]. split; [done|]. split.
  - intros Hs HHs HsF. rewrite disable_depends_unfold in HG.
    eapply generic_disable_depends_greatest;
      [apply (deps_in_range Hok)| |exact HG|done|done].
    by eapply u32_words_subset.
  - by apply disable_depends_fixed.
Qed.

End closure_order.

(** ** Resolved targets and the host *)

Section resolved_facts.
Context `{Header} `{Processor} `{Host}.
Hypothesis Hok : header_ok.

Lemma arg_target_data_result (arg : TargetData) (require_host : bool) :
  exists E res,
    arg_target_data arg require_host = Some res /\
    enable_depends (match cpu_features_of arg with
                    | Some cf => FL_or (features (en arg)) cf
                    | None => features (en arg)
                    end) = Some E /\
    FL_subset (features (en res)) E /\
    settled deps (features (en res)) /\
    (require_host = true -> FL_subset (features (en res)) get_host_cpu.2).
Proof.
  destruct (arg_target_data_inv Hok arg require_host)
    as (E & G & res & Hres & HE & HG & Hen & _).
  exists E, res. split; [done|]. split; [done|]. rewrite Hen.
  destruct (disable_depends_total Hok
              (if require_host
               then FL_and (FL_and E (FL_not (features (dis arg)))) get_host_cpu.2
               else FL_and E (FL_not (features (dis arg)))))
    as (G' & HG' & Hsub & Hset).
  assert (G' = G) as -> by congruence.
  split; [|split; [done|]].
  - eapply FL_subset_trans; [exact Hsub|]. destruct require_host.
    + eapply FL_subset_trans; apply FL_and_l_subset.
    + apply FL_and_l_subset.
  - intros ->. eapply FL_subset_trans; [exact Hsub|]. apply FL_and_r_subset.
Qed.

(** X23.  The enable set of a resolved target is consistent and asks for
    nothing new: every feature it has is one of the closure of what the
    target and its CPU enable, every set feature has its prerequisites
    set, and a target resolved for the host enables only features the
    host has. *)
Theorem arg_target_data_enables_consistent
    (arg : TargetData) (require_host : bool) :
  exists E res,
    arg_target_data arg require_host = Some res /\
    enable_depends (match cpu_features_of arg with
                    | Some cf => FL_or (features (en arg)) cf
                    | None => features (en arg)
                    end) = Some E /\
    FL_subset (features (en res)) E /\
    settled deps (features (en res)) /\
    (require_host = true -> FL_subset (features (en res)) get_host_cpu.2).
Proof. apply arg_target_data_result. Qed.

Lemma ensure_jit_target_resolved (cmdline : list TargetData) (imaging : bool) :
  check_cmdline cmdline imaging = true ->
  (forall i arg, cmdline !! i = Some arg ->
                 (Z.to_nat (base arg) < length cmdline)%nat) ->
  exists rs ts,
    ensure_jit_target [] cmdline imaging = Some ts /\
    length rs = length cmdline /\
    clone_inv rs (Nat.max 1 (length rs)) ts /\
    forall i arg, cmdline !! i = Some arg ->
      exists r, rs !! i = Some r /\
                arg_target_data arg (bool_decide (i = O)) = Some r.
Proof.
  intros Hcheck Hbase. unfold ensure_jit_target. rewrite Hcheck.
  cbn [negb]. rewrite bool_decide_eq_true_2 by done. cbn [negb].
  destruct (resolve_all_spec Hok cmdline []) as (rs & Hrs & Hlen & Hall).
  rewrite app_nil_l in Hrs. rewrite Hrs. cbn [mbind option_bind].
  assert (forall i arg, cmdline !! i = Some arg ->
            exists r, rs !! i = Some r /\
                      arg_target_data arg (bool_decide (i = O)) = Some r)
    as Hall'.
  { intros i arg Hi. destruct (Hall i arg Hi) as (r & Hr & Harg).
    exists r. split; [done|]. rewrite <- Harg. f_equal.
    apply bool_decide_ext. tauto. }
  assert (forall i r, rs !! i = Some r -> (Z.to_nat (base r) < length rs)%nat)
    as Hbase'.
  { intros i r Hr. destruct (lookup_lt_is_Some_2 cmdline i) as [arg Harg].
    { rewrite <- Hlen. by eapply lookup_lt_Some. }
    destruct (Hall' i arg Harg) as (r' & Hr' & Hres).
    assert (r' = r) as -> by congruence.
    rewrite Hlen. specialize (Hbase i arg Harg).
    enough (base r = base arg) as -> by done.
    by eapply arg_target_data_base. }
  destruct (clone_loop_inv rs (length rs - 1) 1 rs Hbase')
    as (ts & Hts & Hinv); [lia..| |].
  { split; [done|]. intros j r Hr. exists r. split; [done|].
    split; [done|]. rewrite bool_decide_eq_false_2; [done|lia]. }
  exists rs, ts. split; [done|]. split; [done|]. split; [|done].
  replace (Nat.max 1 (length rs)) with (1 + (length rs - 1))%nat by lia. done.
Qed.

(** X24.  From no JIT target, [ensure_jit_target] leaves one target for
    each target of the command line; every one of them has the
    prerequisites of each feature it enables, and the first one, the one
    code is generated for, enables only features the host has. *)
Theorem ensure_jit_target_first_on_host
    (cmdline : list TargetData) (imaging : bool) :
  check_cmdline cmdline imaging = true ->
  (forall i arg, cmdline !! i = Some arg ->
                 (Z.to_nat (base arg) < length cmdline)%nat) ->
  exists targets,
    ensure_jit_target [] cmdline imaging = Some targets /\
    length targets = length cmdline /\
    (forall i t, targets !! i = Some t -> settled deps (features (en t))) /\
    (forall t, targets !! O = Some t ->
               FL_subset (features (en t)) get_host_cpu.2).
Proof.
  intros Hcheck Hbase.
  destruct (ensure_jit_target_resolved cmdline imaging Hcheck Hbase)
    as (rs & ts & Hts & Hlen & [Hlent Hinv] & Hall).
  exists ts. split; [done|]. split; [congruence|].
  assert (forall i t, ts !! i = Some t ->
            exists arg r, cmdline !! i = Some arg /\
              arg_target_data arg (bool_decide (i = O)) = Some r /\
              features (en t) = features (en r)) as Hback.
  { intros i t Ht.
    destruct (lookup_lt_is_Some_2 cmdline i) as [arg Harg].
    { rewrite <- Hlen, <- Hlent. by eapply lookup_lt_Some. }
    destruct (Hall i arg Harg) as (r & Hr & Hres).
    destruct (Hinv i r Hr) as (t' & Ht' & (_ & _ & Hf & _) & _).
    assert (t' = t) as -> by congruence. by exists arg, r. }
  split.
  - intros i t Ht. destruct (Hback i t Ht) as (arg & r & _ & Hr & ->).
    destruct (arg_target_data_result arg (bool_decide (i = O)))
      as (E & r' & Hr' & _ & _ & Hset & _).
    by assert (r' = r) as -> by congruence.
  - intros t Ht. destruct (Hback O t Ht) as (arg & r & _ & Hr & ->).
    destruct (arg_target_data_result arg (bool_decide (O = O)))
      as (E & r' & Hr' & _ & _ & _ & Hhost).
    assert (r' = r) as -> by congruence.
    apply Hhost. by apply bool_decide_eq_true_2.
Qed.

End resolved_facts.

(** ** The image callback and the image targets *)

Section image_facts.
Context `{Header} `{Processor} `{Host}.
Context {Id Data : Type}.
Hypothesis Hok : header_ok.
Variable deserialize_target_data : Id -> list TargetData.
Variable match_sysimg_targets :
  list TargetData -> TargetData -> (FeatureList -> Z) -> sysimg_match.
Variable append_ext_features_vec : list string -> string -> list string.
Variable serialize_target_data :
  string -> FeatureList -> FeatureList -> string -> Data.
Variable JL_TARGET_VEC_CALL : Z.

(** X25.  When the matcher answers with the index of a target of the image
    or with the no-match value, [sysimg_init_cb] returns the matcher's
    index.  On no match it leaves [jit_targets] alone.  On a match it
    appends one target, the first target of the command line resolved for
    the host, which enables only features the host has; if there was no
    JIT target before, there is exactly one after, which is what
    [jl_init_processor_pkgimg] asks for. *)
Theorem sysimg_init_cb_saves_host_target
    (cmdline : list TargetData) (arg : TargetData) (id : Id)
    (jit_targets : list TargetData) :
  cmdline !! O = Some arg ->
  (forall sysimg target f,
     best_idx (match_sysimg_targets sysimg target f) = UINT32_MAX \/
     (Z.to_nat (best_idx (match_sysimg_targets sysimg target f))
      < length sysimg)%nat) ->
  exists t idx jit_targets',
    arg_target_data arg true = Some t /\
    run_sysimg_init_cb deserialize_target_data match_sysimg_targets
      JL_TARGET_VEC_CALL cmdline id jit_targets = Some (idx, jit_targets') /\
    idx = best_idx (match_sysimg_targets
                      (normalize_target <$> deserialize_target_data id) t
                      max_vector_size) /\
    (idx = UINT32_MAX -> jit_targets' = jit_targets) /\
    (idx <> UINT32_MAX ->
     jit_targets' = jit_targets ++ [t] /\
     FL_subset (features (en t)) get_host_cpu.2 /\
     (jit_targets = [] ->
      forall (jl_image_buf_t jl_image_t : Type)
             (parse_sysimg : jl_image_buf_t -> init_cb -> option string ->
                             list TargetData -> jl_image_t * list TargetData)
             (image : jl_image_buf_t),
        jl_init_processor_pkgimg parse_sysimg image jit_targets'
          = Returns (parse_sysimg image pkgimg_init_cb None jit_targets'))).
Proof.
  intros Harg Hmatch.
  destruct (arg_target_data_result Hok arg true) as (E & t & Ht & _ & _ & _ & Hhost).
  unfold run_sysimg_init_cb. rewrite Harg. cbn [mbind option_bind].
  rewrite Ht. cbn [mbind option_bind].
  set (sysimg := normalize_target <$> deserialize_target_data id).
  set (mtch := match_sysimg_targets sysimg t max_vector_size).
  destruct (Z.eqb_spec (best_idx mtch) UINT32_MAX) as [Hno|Hyes].
  { exists t. eexists _, _. split; [done|]. split; [done|]. split; [done|].
    split; [done|]. by intros []. }
  assert (exists b, (if negb (vreg_size mtch =? max_vector_size (features (en t)))
                     then t0 ← sysimg !! Z.to_nat (best_idx mtch);
                          Some (negb (Z.land (flags (en t0)) JL_TARGET_VEC_CALL =? 0))
                     else Some false) = Some b) as [b ->].
  { destruct (negb _); [|by eexists].
    destruct (Hmatch sysimg t max_vector_size) as [?|Hlt]; [done|].
    fold mtch in Hlt.
    destruct (lookup_lt_is_Some_2 sysimg _ Hlt) as [t0 Ht0].
    rewrite Ht0. by eexists. }
  cbn [mbind option_bind].
  exists t. eexists _, _. split; [done|]. split; [done|]. split; [done|].
  split; [done|]. intros _. split; [done|]. split; [by apply Hhost|].
  intros -> B I parse image. done.
Qed.

Lemma unset_new_features_cons (n : FeatureName) (names : list FeatureName)
    (E D : FeatureList) :
  unset_new_features (n :: names) E D =
    if JL_LLVM_VERSION <? fe_llvmver n
    then unset_new_features names (unset_bits E (fe_bit n))
                            (unset_bits D (fe_bit n))
    else unset_new_features names E D.
Proof. unfold unset_new_features. cbn [fold_left fst snd]. by destruct (_ <? _). Qed.

Lemma unset_new_features_spec (names : list FeatureName) (E D : FeatureList) :
  Forall (fun n => in_range (fe_bit n)) names ->
  FL_subset (unset_new_features names E D).1 E /\
  FL_subset (unset_new_features names E D).2 D /\
  forall n, n ∈ names -> JL_LLVM_VERSION < fe_llvmver n ->
    test_nbit (unset_new_features names E D).1 (fe_bit n) = false /\
    test_nbit (unset_new_features names E D).2 (fe_bit n) = false.
Proof.
  intros Hr. revert E D.
  induction Hr as [|n names Hn _ IH]; intros E D.
  { split; [apply FL_subset_refl|]. split; [apply FL_subset_refl|].
    by intros n ?%elem_of_nil. }
  rewrite unset_new_features_cons.
  destruct (Z.ltb_spec JL_LLVM_VERSION (fe_llvmver n)) as [Hnew|Hold].
  - destruct (IH (unset_bits E (fe_bit n)) (unset_bits D (fe_bit n)))
      as (IE & ID & Irest).
    split; [eapply FL_subset_trans; [exact IE|apply FL_subset_unset_bits]|].
    split; [eapply FL_subset_trans; [exact ID|apply FL_subset_unset_bits]|].
    intros n' [->|Hn']%elem_of_cons Hv; [|by apply Irest].
    split.
    + destruct (test_nbit (unset_new_features names _ _).1 (fe_bit n)) eqn:Et;
        [|done].
      apply (FL_subset_test _ _ _ IE) in Et.
      rewrite test_nbit_unset_bits, bool_decide_eq_true_2 in Et by done. done.
    + destruct (test_nbit (unset_new_features names _ _).2 (fe_bit n)) eqn:Et;
        [|done].
      apply (FL_subset_test _ _ _ ID) in Et.
      rewrite test_nbit_unset_bits, bool_decide_eq_true_2 in Et by done. done.
  - destruct (IH E D) as (IE & ID & Irest).
    split; [done|]. split; [done|].
    intros n' [->|Hn']%elem_of_cons Hv; [lia|by apply Irest].
Qed.

Lemma serialized_features_spec (target : TargetData) :
  Forall (fun n => in_range (fe_bit n)) feature_names ->
  exists en' dis',
    serialized_features target = Some (en', dis') /\
    FL_subset en' (features (en target)) /\
    FL_subset dis' (features (dis target)) /\
    settled deps en' /\
    forall n, n ∈ feature_names -> JL_LLVM_VERSION < fe_llvmver n ->
      test_nbit en' (fe_bit n) = false /\ test_nbit dis' (fe_bit n) = false.
Proof.
  intros Hr. unfold serialized_features.
  destruct (unset_new_features_spec feature_names (features (en target))
              (features (dis target)) Hr) as (HE & HD & Hnew).
  destruct (unset_new_features _ _ _) as [E D]. cbn [fst snd] in *.
  destruct (disable_depends_total Hok E) as (G & -> & HG & Hset).
  cbn [mbind option_bind]. exists G, D. split; [done|].
  split; [by eapply FL_subset_trans|]. split; [done|]. split; [done|].
  intros n Hn Hv. destruct (Hnew n Hn Hv) as [Hc1 Hc2]. split; [|done].
  destruct (test_nbit G (fe_bit n)) eqn:Et; [|done].
  by rewrite (FL_subset_test _ _ _ HG Et) in Hc1.
Qed.

(** X26.  The feature sets [jl_get_llvm_clone_targets] serializes for a
    target hold no feature the backend is too old for; the enable set is
    inside the target's and has the prerequisites of every feature it
    holds, and the disable set is inside the target's. *)
Theorem serialized_features_backend (target : TargetData) :
  Forall (fun n => in_range (fe_bit n)) feature_names ->
  exists en' dis',
    serialized_features target = Some (en', dis') /\
    FL_subset en' (features (en target)) /\
    FL_subset dis' (features (dis target)) /\
    settled deps en' /\
    forall n, n ∈ feature_names -> JL_LLVM_VERSION < fe_llvmver n ->
      test_nbit en' (fe_bit n) = false /\ test_nbit dis' (fe_bit n) = false.
Proof. apply serialized_features_spec. Qed.

Lemma clone_target_spec_total (target : TargetData) :
  0 <= JL_LLVM_VERSION ->
  Forall (fun n => in_range (fe_bit n)) feature_names ->
  exists s, clone_target_spec serialize_target_data target = Some s /\
            spec_flags s = flags (en target) /\ spec_base s = base target /\
            get_llvm_target_str target = Some (cpu_name s, cpu_features s).
Proof.
  intros HV Hr. unfold clone_target_spec.
  destruct (serialized_features_spec target Hr) as (e & d & -> & _).
  cbn [mbind option_bind].
  destruct (get_llvm_target_noext_shape target HV) as (sp & F & al & Hres & _).
  unfold get_llvm_target_str. rewrite Hres. cbn [mbind option_bind].
  eexists. split; [done|]. done.
Qed.

(** X27.  [jl_get_llvm_clone_targets] ends in the error "No targets
    specified" on an empty command line.  On any other, it returns one
    specification for each target, in order, and the flags and the base of
    each are the ones [ensure_jit_target] gives the same target when it
    starts from no JIT target: the image and the JIT agree on what is
    cloned. *)
Theorem jl_get_llvm_clone_targets_flags (cmdline : list TargetData) :
  0 <= JL_LLVM_VERSION ->
  Forall (fun n => in_range (fe_bit n)) feature_names ->
  check_cmdline cmdline true = true ->
  (forall i arg, cmdline !! i = Some arg ->
                 (Z.to_nat (base arg) < length cmdline)%nat) ->
  (cmdline = [] ->
   jl_get_llvm_clone_targets serialize_target_data cmdline
     = Some (jl_error "No targets specified")) /\
  (cmdline <> [] ->
   exists targets specs,
     ensure_jit_target [] cmdline true = Some targets /\
     jl_get_llvm_clone_targets serialize_target_data cmdline
       = Some (Returns specs) /\
     length specs = length cmdline /\
     forall i t, targets !! i = Some t ->
       exists s, specs !! i = Some s /\
                 spec_flags s = flags (en t) /\ spec_base s = base t /\
                 get_llvm_target_str t = Some (cpu_name s, cpu_features s)).
Proof.
  intros HV Hr Hcheck Hbase. split.
  { intros ->. unfold jl_get_llvm_clone_targets. rewrite Hcheck. done. }
  intros Hne.
  destruct (ensure_jit_target_resolved Hok cmdline true Hcheck Hbase)
    as (rs & ts & Hts & Hlen & [Hlent _] & _).
  exists ts. unfold jl_get_llvm_clone_targets. rewrite Hcheck. cbn [negb].
  pose proof Hts as Hens. unfold ensure_jit_target in Hts. rewrite Hcheck in Hts. cbn [negb] in Hts.
  rewrite bool_decide_eq_true_2 in Hts by done. cbn [negb] in Hts.
  destruct (resolve_all cmdline []) as [rs'|] eqn:Hrs'; [|done].
  cbn [mbind option_bind] in Hts |- *.
  assert (length rs' = length cmdline) as Hlen'.
  { destruct (resolve_all_spec Hok cmdline []) as (rs0 & Hrs0 & Hl0 & _).
    rewrite app_nil_l in Hrs0. congruence. }
  rewrite bool_decide_eq_false_2.
  2:{ intros ->. destruct cmdline; [done|discriminate Hlen']. }
  rewrite Hts. cbn [mbind option_bind].
  assert (exists specs, mapM (clone_target_spec serialize_target_data) ts
                        = Some specs) as [specs Hspecs].
  { apply mapM_is_Some. apply Forall_forall. intros t _.
    destruct (clone_target_spec_total t HV Hr) as (s & Hs & _).
    unfold compose. rewrite Hs. by eexists. }
  rewrite Hspecs. cbn [mbind option_bind]. exists specs. split; [done|].
  split; [done|]. apply mapM_Some in Hspecs.
  split; [rewrite <- (Forall2_length _ _ _ Hspecs); congruence|].
  intros i t Ht.
  destruct (Forall2_lookup_l _ _ _ _ _ Hspecs Ht) as (s & Hs & Hst).
  exists s. split; [done|].
  destruct (clone_target_spec_total t HV Hr) as (s' & Hs' & Hfl).
  assert (s' = s) as -> by congruence. done.
Qed.


End image_facts.

(** ** The properties on the sample inputs *)

Lemma get_cpuinfo_sysfs_set_witness :
  increasing [] /\
  (increasing (get_cpuinfo_sysfs (Some sample_sysfs) []) /\
   (forall x, x ∈ get_cpuinfo_sysfs (Some sample_sysfs) [] <->
      x ∈ [] \/ exists entry val,
        entry ∈ sample_sysfs /\ read_from entry val /\ x = cpuid_of_midr val) /\
   get_cpuinfo_sysfs None [] = []).
Proof.
  split; [exact I|]. apply (get_cpuinfo_sysfs_set sample_sysfs []). exact I.
Defined.

(** The set that witness is about: the two Cortex-A53 entries are one
    element, and the Cortex-A53 comes before the Cortex-A73. *)
Example get_cpuinfo_sysfs_sample :
  get_cpuinfo_sysfs (Some sample_sysfs) []
    = [mkCPUID 0x41 0 0xd03; mkCPUID 0x41 0 0xd09].
Proof. by vm_compute. Qed.

Lemma feature_arch_version_of_host_arch_witness :
  (8 = 7 \/ 8 = 8) /\
  @AArch32Host.feature_arch_version aarch32_sample_header
    (@AArch32Host.host_arch_features aarch32_sample_header FL_zero
       (mk_arm_arch 8 "A")) = mk_arm_arch 8 "A".
Proof.
  split; [by right|].
  apply (@feature_arch_version_of_host_arch aarch32_sample_header
           aarch32_sample_header_ok FL_zero (mk_arm_arch 8 "A")).
  - by right.
  - cbn. repeat constructor.
  - intros f _. apply test_nbit_zero.
Defined.

Lemma aarch32_max_vector_size_monotone_witness :
  FL_subset FL_zero (get_feature_masks [7]) /\
  @AArch32Host.max_vector_size aarch32_sample_header FL_zero
    <= @AArch32Host.max_vector_size aarch32_sample_header (get_feature_masks [7]) /\
  (@AArch32Host.max_vector_size aarch32_sample_header FL_zero = 8 \/
   @AArch32Host.max_vector_size aarch32_sample_header FL_zero = 16).
Proof.
  split; [reflexivity|].
  apply (@aarch32_max_vector_size_monotone aarch32_sample_header).
  reflexivity.
Defined.

Lemma max_vector_size_monotone_witness :
  FL_subset (@masks sample_header [sve]) (@masks sample_header [sve; sve2]) /\
  @max_vector_size sample_header (@masks sample_header [sve])
    <= @max_vector_size sample_header (@masks sample_header [sve; sve2]) /\
  @max_vector_size sample_header (@masks sample_header [sve]) ∈ [16; 128; 256].
Proof.
  split; [reflexivity|].
  apply (@max_vector_size_monotone sample_header). reflexivity.
Defined.

Lemma jl_set_zero_subnormals_round_trip_witness :
  0 <= 0 < 2 ^ 64 /\
  exists fpcr',
    @jl_set_zero_subnormals sample_header m2_host 1 0 = Some (0, fpcr') /\
    (jl_get_zero_subnormals fpcr').1 = (if 1 =? 0 then 0 else 1) /\
    (jl_get_default_nans fpcr').1 = (jl_get_default_nans 0).1 /\
    (forall n, 0 <= n -> n <> 24 -> n <> 19 ->
               Z.testbit fpcr' n = Z.testbit 0 n) /\
    (@jl_test_cpu_feature m2_host (@JL_AArch64_fullfp16 sample_header) = Some 0 ->
     Z.testbit fpcr' 19 = Z.testbit 0 19).
Proof.
  assert (0 <= 0 < 2 ^ 64) as Hr by lia. split; [exact Hr|].
  apply (@jl_set_zero_subnormals_round_trip sample_header m2_host 1 0 Hr).
Defined.

(** The register that witness is about: the M2 has fullfp16, so FZ and
    FZ16 are set. *)
Example jl_set_zero_subnormals_sample :
  @jl_set_zero_subnormals sample_header m2_host 1 0
    = Some (0, 2 ^ 24 + 2 ^ 19).
Proof. by vm_compute. Qed.

Lemma jl_set_default_nans_round_trip_witness :
  0 <= 2 ^ 24 < 2 ^ 64 /\
  (jl_set_default_nans 1 (2 ^ 24)).1 = 0 /\
  (jl_get_default_nans (jl_set_default_nans 1 (2 ^ 24)).2).1
    = (if 1 =? 0 then 0 else 1) /\
  (jl_get_zero_subnormals (jl_set_default_nans 1 (2 ^ 24)).2).1
    = (jl_get_zero_subnormals (2 ^ 24)).1 /\
  (forall n, 0 <= n -> n <> 25 ->
     Z.testbit (jl_set_default_nans 1 (2 ^ 24)).2 n = Z.testbit (2 ^ 24) n).
Proof.
  assert (0 <= 2 ^ 24 < 2 ^ 64) as Hr by lia. split; [exact Hr|].
  apply (jl_set_default_nans_round_trip 1 (2 ^ 24) Hr).
Defined.

Lemma sample_feature_names_in_range :
  Forall (fun n => in_range (fe_bit n)) (@feature_names sample_header).
Proof.
  cbn [feature_names sample_header]. unfold sample_feature_names.
  repeat (apply List.Forall_cons; [unfold in_range; cbn; lia|]). done.
Qed.

Lemma sample_cmdline_bases (i : nat) (arg : TargetData) :
  sample_cmdline !! i = Some arg ->
  (Z.to_nat (base arg) < length sample_cmdline)%nat.
Proof.
  destruct i as [|[|[|i]]]; cbn; intros Harg; [injection Harg as <-..|done];
    cbn; lia.
Qed.

Lemma sample_match_in_range (sysimg : list TargetData) (target : TargetData)
    (f : FeatureList -> Z) :
  best_idx (sample_match sysimg target f) = UINT32_MAX \/
  (Z.to_nat (best_idx (sample_match sysimg target f)) < length sysimg)%nat.
Proof. destruct sysimg; [by left|right; cbn; lia]. Qed.

Lemma get_llvm_target_noext_returns_witness :
  0 <= @JL_LLVM_VERSION sample_processor /\
  exists nm strs,
    @get_llvm_target_noext sample_header sample_processor (parsed "apple-m2")
      = Some (nm, strs) /\
    (@find_cpu sample_header (name (parsed "apple-m2")) = None ->
     nm = name (parsed "apple-m2")) /\
    (is_Some (@find_cpu sample_header (name (parsed "apple-m2"))) ->
     nm = "generic" \/
     exists s, s ∈ @cpus sample_header /\ spec_name s = nm /\
               spec_llvmver s <= @JL_LLVM_VERSION sample_processor) /\
    exists pre, strs = pre ++ ["+neon"; "+fp-armv8"].
Proof.
  assert (0 <= @JL_LLVM_VERSION sample_processor) as HV by (cbn; lia).
  split; [exact HV|].
  apply (@get_llvm_target_noext_returns sample_header sample_processor
           (parsed "apple-m2") HV).
Defined.

Lemma jl_get_llvm_disasm_target_enables_witness :
  0 <= @JL_LLVM_VERSION sample_processor /\
  is_Some (@jl_get_llvm_disasm_target sample_header sample_processor m2_host) /\
  exists nm strs,
    @get_llvm_target_noext sample_header sample_processor
      (@disasm_target_data sample_header m2_host) = Some (nm, strs) /\
    Forall (fun t => String.prefix "+" t = true) strs.
Proof.
  assert (0 <= @JL_LLVM_VERSION sample_processor) as HV by (cbn; lia).
  split; [exact HV|].
  apply (@jl_get_llvm_disasm_target_enables sample_header sample_processor
           m2_host HV).
Defined.

Lemma enable_depends_least_witness :
  exists G,
    @enable_depends sample_header (@masks sample_header [v8_3a; sve2]) = Some G /\
    FL_subset (@masks sample_header [v8_3a; sve2]) G /\
    @upward_closed sample_header G /\
    (forall Hs, @upward_closed sample_header Hs ->
                FL_subset (@masks sample_header [v8_3a; sve2]) Hs ->
                FL_subset G Hs) /\
    (forall F' G', FL_subset F' (@masks sample_header [v8_3a; sve2]) ->
                   @enable_depends sample_header F' = Some G' ->
                   FL_subset G' G) /\
    @disable_depends sample_header G = Some G.
Proof.
  apply (@enable_depends_least sample_header sample_header_ok).
Defined.

Lemma disable_depends_greatest_witness :
  u32_words (@masks sample_header [sve2; aes]) /\
  exists G,
    @disable_depends sample_header (@masks sample_header [sve2; aes]) = Some G /\
    FL_subset G (@masks sample_header [sve2; aes]) /\
    settled (@deps sample_header) G /\
    (forall Hs, settled (@deps sample_header) Hs ->
                FL_subset Hs (@masks sample_header [sve2; aes]) ->
                FL_subset Hs G) /\
    @disable_depends sample_header G = Some G.
Proof.
  assert (u32_words (@masks sample_header [sve2; aes])) as Hu
    by (repeat split; reflexivity).
  split; [exact Hu|].
  apply (@disable_depends_greatest sample_header sample_header_ok _ Hu).
Defined.

(** The vector that witness is about: sve2 needs sve, which is not there,
    so aes is all that is left. *)
Example disable_depends_sample :
  @disable_depends sample_header (@masks sample_header [sve2; aes])
    = Some (@masks sample_header [aes]).
Proof. by vm_compute. Qed.

Lemma arg_target_data_enables_consistent_witness :
  exists E res,
    @arg_target_data sample_header sample_processor m2_host
      (parsed "cortex-a76") true = Some res /\
    @enable_depends sample_header
      (match @cpu_features_of sample_header m2_host (parsed "cortex-a76") with
       | Some cf => FL_or (features (en (parsed "cortex-a76"))) cf
       | None => features (en (parsed "cortex-a76"))
       end) = Some E /\
    FL_subset (features (en res)) E /\
    settled (@deps sample_header) (features (en res)) /\
    (true = true ->
     FL_subset (features (en res)) (@get_host_cpu m2_host).2).
Proof.
  apply (@arg_target_data_enables_consistent sample_header sample_processor
           m2_host sample_header_ok (parsed "cortex-a76") true).
Defined.

Lemma ensure_jit_target_first_on_host_witness :
  @check_cmdline sample_processor sample_cmdline true = true /\
  exists targets,
    @ensure_jit_target sample_header sample_processor m2_host []
      sample_cmdline true = Some targets /\
    length targets = length sample_cmdline /\
    (forall i t, targets !! i = Some t ->
                 settled (@deps sample_header) (features (en t))) /\
    (forall t, targets !! O = Some t ->
               FL_subset (features (en t)) (@get_host_cpu m2_host).2).
Proof.
  split; [reflexivity|].
  apply (@ensure_jit_target_first_on_host sample_header sample_processor
           m2_host sample_header_ok sample_cmdline true).
  - reflexivity.
  - exact sample_cmdline_bases.
Defined.

Lemma sysimg_init_cb_saves_host_target_witness :
  sample_cmdline !! O = Some (parsed "generic") /\
  exists t idx jit_targets',
    @arg_target_data sample_header sample_processor m2_host
      (parsed "generic") true = Some t /\
    @run_sysimg_init_cb sample_header sample_processor m2_host unit
      sample_deserialize sample_match 2 sample_cmdline tt []
      = Some (idx, jit_targets') /\
    idx = best_idx (sample_match (normalize_target <$> sample_deserialize tt) t
                      (@max_vector_size sample_header)) /\
    (idx = UINT32_MAX -> jit_targets' = []) /\
    (idx <> UINT32_MAX ->
     jit_targets' = [] ++ [t] /\
     FL_subset (features (en t)) (@get_host_cpu m2_host).2 /\
     (@nil TargetData = [] ->
      forall (jl_image_buf_t jl_image_t : Type)
             (parse_sysimg : jl_image_buf_t -> init_cb -> option string ->
                             list TargetData -> jl_image_t * list TargetData)
             (image : jl_image_buf_t),
        jl_init_processor_pkgimg parse_sysimg image jit_targets'
          = Returns (parse_sysimg image pkgimg_init_cb None jit_targets'))).
Proof.
  split; [reflexivity|].
  apply (@sysimg_init_cb_saves_host_target sample_header sample_processor
           m2_host unit sample_header_ok sample_deserialize sample_match 2
           sample_cmdline (parsed "generic") tt []).
  - reflexivity.
  - exact sample_match_in_range.
Defined.

Lemma serialized_features_backend_witness :
  Forall (fun n => in_range (fe_bit n)) (@feature_names sample_header) /\
  exists en' dis',
    @serialized_features sample_header sample_processor unknown_target
      = Some (en', dis') /\
    FL_subset en' (features (en unknown_target)) /\
    FL_subset dis' (features (dis unknown_target)) /\
    settled (@deps sample_header) en' /\
    forall n, n ∈ @feature_names sample_header ->
      @JL_LLVM_VERSION sample_processor < fe_llvmver n ->
      test_nbit en' (fe_bit n) = false /\ test_nbit dis' (fe_bit n) = false.
Proof.
  split; [exact sample_feature_names_in_range|].
  apply (@serialized_features_backend sample_header sample_processor
           sample_header_ok unknown_target sample_feature_names_in_range).
Defined.

Lemma jl_get_llvm_clone_targets_flags_witness :
  0 <= @JL_LLVM_VERSION sample_processor /\
  @check_cmdline sample_processor sample_cmdline true = true /\
  (sample_cmdline = [] ->
   @jl_get_llvm_clone_targets sample_header sample_processor m2_host _
     sample_serialize sample_cmdline
     = Some (jl_error "No targets specified")) /\
  (sample_cmdline <> [] ->
   exists targets specs,
     @ensure_jit_target sample_header sample_processor m2_host []
       sample_cmdline true = Some targets /\
     @jl_get_llvm_clone_targets sample_header sample_processor m2_host _
       sample_serialize sample_cmdline = Some (Returns specs) /\
     length specs = length sample_cmdline /\
     forall i t, targets !! i = Some t ->
       exists s, specs !! i = Some s /\
                 spec_flags s = flags (en t) /\ spec_base s = base t /\
                 @get_llvm_target_str sample_header sample_processor t
                   = Some (cpu_name s, cpu_features s)).
Proof.
  assert (0 <= @JL_LLVM_VERSION sample_processor) as HV by (cbn; lia).
  split; [exact HV|]. split; [reflexivity|].
  apply (@jl_get_llvm_clone_targets_flags sample_header sample_processor
           m2_host _ sample_header_ok sample_serialize sample_cmdline HV
           sample_feature_names_in_range).
  - reflexivity.
  - exact sample_cmdline_bases.
Defined.


(** ** Sample runs *)

(** A Cortex-A53 with a Cortex-A73: the little core is dropped, the CPU is
    the big one, and crc, which both catalog entries have, is added to what
    the kernel reports. *)
Example linux_get_host_cpu_big_little :
  @Linux._get_host_cpu sample_header 8 0
    (get_cpuinfo_sysfs (Some sample_sysfs) [])
  = Some (CPU.id CPU.arm_cortex_a73, @masks sample_header [aes; crc]).
Proof. by vm_compute. Qed.

(** The same with a core that [get_cpu_name] does not know: the cores add
    nothing to what the kernel reports. *)
Example linux_get_host_cpu_unknown_core :
  @Linux._get_host_cpu sample_header 8 0
    (set_insert (mkCPUID 0x7f 0 1) (get_cpuinfo_sysfs (Some sample_sysfs) []))
  = Some (CPU.id CPU.arm_cortex_a73, @masks sample_header [aes]).
Proof. by vm_compute. Qed.

(** A backend that is too old for sve2: sve2 is not serialized, and
    sve2-aes, which needs it, goes with it. *)
Example serialized_features_old_backend :
  @serialized_features old_backend_header old_backend_processor
    (mkTargetData "generic" ""
       (mkFeatureData (@masks sample_header [sve2; sve2_aes; sve; fullfp16; aes]) 0)
       (mkFeatureData (@masks sample_header [sve2; sm4]) 0) 0)
  = Some (@masks sample_header [sve; fullfp16; aes], @masks sample_header [sm4]).
Proof. by vm_compute. Qed.

(** The per-feature tokens of a target that enables lse and crc and
    disables aes: the enabled ones in the reverse of the table's order. *)
Example feature_strs_loop_sample :
  @feature_strs_loop sample_processor (@feature_names sample_header)
    (@masks sample_header [crc; lse]) (@masks sample_header [aes; crc]) []
  = ["+lse"; "+crc"; "-aes"].
Proof. by vm_compute. Qed.
